(** * IncDigest: the report-generation pipeline and its token ledger

    A shallow embedding of the parts of the repository that move tokens and
    reports, and of what reads and fills the tables around them:

    - [deduct_token]                  (supabase_functions.sql, PL/pgSQL)
    - [create_report], [create_token_refund], [create_error_log]
                                      (database.py, class SupabaseClient)
    - [validate_extraction]           (quality_validator.py)
    - [process_job]                   (worker.py)
    - [generate_report]               (edge function generate-report, the
                                       variant that clones the cached report)
    - [generate_report_session]       (edge function generate-report, the
                                       variant that takes the user from the
                                       session)
    - [search_companies]              (edge function search-companies)
    - [sync_tickers]                  (edge function sync-tickers)
    - [system_stats], [status]        (app/admin/page.tsx, loadDashboardData)
    - [loadUserAndReport]             (app/report/[id]/page.tsx)

    The database is a record of tables; SQL functions are transactions
    (a result or an error that rolls everything back), while the Python and
    TypeScript callers thread the database through a sequence of separate
    requests, each of which commits on its own. *)

From Stdlib Require Import ZArith Lia Bool Ascii String.
From stdpp Require Import gmap list strings pretty sorting.

Local Open Scope Z_scope.

(** ** Results of fallible calls *)

Inductive result (E A : Type) : Type :=
| Ok (a : A)
| Err (e : E).
Arguments Ok {E A} a.
Arguments Err {E A} e.

(** ** Data model (database_schema.sql) *)

(** [UUID] primary keys are [positive] numbers.  [gen_random_uuid()] is
    modelled by picking a key that the table does not hold yet. *)

(** [public.profiles]: only the billing column takes part in the pipeline.
    [tokens_remaining INTEGER DEFAULT 0]; no statement of the repository
    stores NULL in it. *)
Record profile : Type := mkProfile {
  tokens_remaining : Z
}.

(** [public.reports].  [ai_cost_usd DECIMAL(10,4)] is held as a number of
    1/10000 USD; dates and timestamps are held as day and second counts. *)
Record report : Type := mkReport {
  user_id : positive;
  ticker : string;
  company_name : string;
  newer_filing_date : Z;
  older_filing_date : Z;
  newer_accession : string;
  older_accession : string;
  extraction_success : bool;
  sections_extracted : list string;
  extraction_issues : list string;
  ai_summaries : list (string * string);
  tokens_used : Z;
  refunded : bool;
  ai_cost_usd : Z;
  total_tokens_consumed : Z;
  report_url : option string;
  created_at : Z;
  generation_time_seconds : Z
}.

(** [public.token_transactions]: [transaction_type] is one of
    'purchase', 'usage', 'refund', 'grant'. *)
Inductive transaction_type : Type := purchase | usage | refund | grant.

#[global] Instance transaction_type_eq_dec : EqDecision transaction_type.
Proof. solve_decision. Defined.

Record token_transaction : Type := mkTx {
  tx_user_id : positive;
  tx_report_id : option positive;
  tx_type : transaction_type;
  tokens_amount : Z;
  description : string
}.

(** [public.error_logs], the columns [create_error_log] fills. *)
Record error_log : Type := mkErrorLog {
  el_user_id : positive;
  el_ticker : string;
  el_error_type : string;
  el_error_message : string;
  el_stack_trace : string;
  el_status : string
}.

Record db : Type := mkDb {
  profiles : gmap positive profile;
  reports : gmap positive report;
  token_transactions : list token_transaction;
  error_logs : gmap positive error_log
}.

Definition set_profiles (f : gmap positive profile → gmap positive profile) (d : db) : db :=
  mkDb (f (profiles d)) (reports d) (token_transactions d) (error_logs d).

Definition set_reports (f : gmap positive report → gmap positive report) (d : db) : db :=
  mkDb (profiles d) (f (reports d)) (token_transactions d) (error_logs d).

Definition set_token_transactions (f : list token_transaction → list token_transaction)
    (d : db) : db :=
  mkDb (profiles d) (reports d) (f (token_transactions d)) (error_logs d).

Definition set_error_logs (f : gmap positive error_log → gmap positive error_log) (d : db) : db :=
  mkDb (profiles d) (reports d) (token_transactions d) (f (error_logs d)).

Definition set_tokens_remaining (f : Z → Z) (p : profile) : profile :=
  mkProfile (f (tokens_remaining p)).

Definition set_refunded (b : bool) (r : report) : report :=
  mkReport (user_id r) (ticker r) (company_name r) (newer_filing_date r)
    (older_filing_date r) (newer_accession r) (older_accession r)
    (extraction_success r) (sections_extracted r) (extraction_issues r)
    (ai_summaries r) (tokens_used r) b (ai_cost_usd r)
    (total_tokens_consumed r) (report_url r) (created_at r)
    (generation_time_seconds r).

(** The two quantities the ledger relates: an account's balance and the sum
    of the amounts of its transactions. *)
Definition balance (d : db) (u : positive) : option Z :=
  tokens_remaining <$> profiles d !! u.



(** ** Ledger *)

Inductive sql_error : Type :=
| Insufficient_tokens (current_balance : Z)
| Foreign_key_violation.

#[global] Instance sql_error_eq_dec : EqDecision sql_error.
Proof. solve_decision. Defined.

(** [deduct_token(p_user_id)], supabase_functions.sql.  One transaction:
    [SELECT tokens_remaining INTO current_balance ... FOR UPDATE], the check
    [current_balance < 1] that raises, and the [UPDATE].  When no row has the
    id, [current_balance] is NULL, the comparison is not true, and the
    [UPDATE] touches no row. *)
Definition deduct_token (p_user_id : positive) (d : db) : result sql_error db :=
  match profiles d !! p_user_id with
  | None => Ok d
  | Some p =>
      let current_balance := tokens_remaining p in
      if current_balance <? 1 then Err (Insufficient_tokens current_balance)
      else Ok (set_profiles (<[p_user_id := set_tokens_remaining (λ t, t - 1) p]>) d)
  end.

(** One request to the database, [supabase.rpc(...)] or a table
    [.insert(...)]: its transaction either commits its new state or, on an
    exception, leaves the database as it was and hands the error to the
    caller. *)
Definition rpc (f : db → result sql_error db) (d : db) : option sql_error * db :=
  match f d with
  | Ok d' => (None, d')
  | Err e => (Some e, d)
  end.

(** Modelled from the spec: [increment_tokens(user_id, amount)] is called by
    [create_token_refund] but defined nowhere in the repository.  The spec's
    Ledger contract says a refund or credit "increases balance by [amount]". *)
Definition increment_tokens (p_user_id : positive) (amount : Z) (d : db) : result sql_error db :=
  Ok (set_profiles (alter (set_tokens_remaining (λ t, t + amount)) p_user_id) d).

(** [INSERT INTO token_transactions]: [user_id] must reference a profile and
    [report_id], when given, a report. *)
Definition references_report (d : db) (o : option positive) : bool :=
  match o with
  | None => true
  | Some r => bool_decide (is_Some (reports d !! r))
  end.

Definition insert_token_transaction (t : token_transaction) (d : db) : result sql_error db :=
  if bool_decide (is_Some (profiles d !! tx_user_id t))
     && references_report d (tx_report_id t)
  then Ok (set_token_transactions (λ l, l ++ [t]) d)
  else Err Foreign_key_violation.

(** ** database.py: class SupabaseClient

    Every [.execute()] is a request of its own that commits on success and
    raises on an error; what an earlier request of the same method wrote
    stays written. *)

(** [INSERT INTO reports]: [user_id] must reference a profile; the row gets a
    new id. *)
Definition insert_report (r : report) (d : db) : result sql_error (positive * db) :=
  if bool_decide (is_Some (profiles d !! user_id r))
  then let id := fresh (dom (reports d)) in
       Ok (id, set_reports (<[id := r]>) d)
  else Err Foreign_key_violation.

(** [create_report]: the row is built from the arguments with
    ['tokens_used': 1] and ['refunded': False]; [created_at] is the column
    default [NOW()] and [report_url] is left NULL. *)
Definition create_report (now : Z) (p_user_id : positive) (p_ticker p_company_name : string)
    (p_newer_filing_date p_older_filing_date : Z)
    (p_newer_accession p_older_accession : string)
    (p_sections_extracted p_extraction_issues : list string)
    (p_extraction_success : bool) (p_ai_summaries : list (string * string))
    (p_ai_cost_usd p_total_tokens_consumed p_generation_time_seconds : Z)
    (d : db) : result sql_error (positive * db) :=
  insert_report
    {| user_id := p_user_id;
       ticker := p_ticker;
       company_name := p_company_name;
       newer_filing_date := p_newer_filing_date;
       older_filing_date := p_older_filing_date;
       newer_accession := p_newer_accession;
       older_accession := p_older_accession;
       extraction_success := p_extraction_success;
       sections_extracted := p_sections_extracted;
       extraction_issues := p_extraction_issues;
       ai_summaries := p_ai_summaries;
       tokens_used := 1;
       refunded := false;
       ai_cost_usd := p_ai_cost_usd;
       total_tokens_consumed := p_total_tokens_consumed;
       report_url := None;
       created_at := now;
       generation_time_seconds := p_generation_time_seconds |} d.

(** [create_token_refund]: three requests in a row,
    1. mark the report as refunded (no row, no error),
    2. insert the refund transaction of +1,
    3. [increment_tokens(user_id, 1)].
    A request that raises ends the method; the earlier ones stay. *)
Definition create_token_refund (p_user_id p_report_id : positive) (reason : string)
    (d : db) : option sql_error * db :=
  let d1 := set_reports (alter (set_refunded true) p_report_id) d in
  match rpc (insert_token_transaction
               {| tx_user_id := p_user_id;
                  tx_report_id := Some p_report_id;
                  tx_type := refund;
                  tokens_amount := 1;
                  description := "Quality refund: " +:+ reason |}) d1 with
  | (Some e, d2) => (Some e, d2)
  | (None, d2) => rpc (increment_tokens p_user_id 1) d2
  end.

(** [create_error_log].  [error_logs.user_id] references [profiles] too. *)
Definition create_error_log (p_user_id : positive) (p_ticker p_error_type
    p_error_message p_stack_trace : string) (d : db) : result sql_error (positive * db) :=
  if bool_decide (is_Some (profiles d !! p_user_id))
  then let id := fresh (dom (error_logs d)) in
       Ok (id, set_error_logs (<[id := mkErrorLog p_user_id p_ticker p_error_type
                                       p_error_message p_stack_trace "open"]>) d)
  else Err Foreign_key_violation.

(** ** quality_validator.py: class QualityValidator

    Text is a string of code points below 256. *)

Record filing : Type := mkFiling {
  filing_date : Z;
  accession : string;
  f_company_name : string;
  sections : list (string * string)   (* a dict, in insertion order *)
}.

Record ai_result : Type := mkAiResult {
  summaries : list (string * string);
  total_cost_usd : Z;
  total_tokens : Z
}.

(** [str.isspace] on one character. *)
Definition isspace (c : ascii) : bool :=
  let n := N_of_ascii c in
  ((9 <=? n) && (n <=? 13) || (28 <=? n) && (n <=? 32) || (n =? 133) || (n =? 160))%N.

(** [str.isdigit] on one character: 0-9 and the superscripts 1, 2, 3. *)
Definition isdigit (c : ascii) : bool :=
  let n := N_of_ascii c in
  ((48 <=? n) && (n <=? 57) || (n =? 178) || (n =? 179) || (n =? 185))%N.

(** [content.split()]: runs of non-blank characters; [cur] is the word being
    read, reversed. *)
Fixpoint split_go (cur : string) (s : string) : list string :=
  match s with
  | EmptyString =>
      match cur with EmptyString => [] | _ => [String.rev cur] end
  | String c s' =>
      if isspace c
      then match cur with
           | EmptyString => split_go EmptyString s'
           | _ => String.rev cur :: split_go EmptyString s'
           end
      else split_go (String c cur) s'
  end.

Definition split (content : string) : list string := split_go EmptyString content.

Fixpoint any_char (p : ascii → bool) (w : string) : bool :=
  match w with
  | EmptyString => false
  | String c w' => p c || any_char p w'
  end.

(** [', '.join(l)]. *)
Fixpoint join (sep : string) (l : list string) : string :=
  match l with
  | [] => ""
  | [x] => x
  | x :: l' => x +:+ sep +:+ join sep l'
  end.

(** [self.min_word_counts]. *)
Definition min_word_counts (section_name : string) : option Z :=
  if String.eqb section_name "Item 1" then Some 1000
  else if String.eqb section_name "Item 1A" then Some 5000
  else if String.eqb section_name "Item 7" then Some 5000
  else if String.eqb section_name "Item 8" then Some 10000
  else None.

Definition required_sections : list string := ["Item 1"; "Item 1A"; "Item 7"; "Item 8"].

(** [s in filing['sections']]. *)
Definition has_section (f : filing) (s : string) : bool :=
  existsb (String.eqb s) (map fst (sections f)).

Definition too_short_message (section_name : string) (word_count min_words : Z) : string :=
  section_name +:+ ": Content too short (" +:+ pretty word_count
    +:+ " words, expected " +:+ pretty min_words +:+ "+)".

Definition mostly_numbers_message (section_name : string) : string :=
  section_name +:+ ": Appears to be mostly tables/numbers (may indicate extraction error)".

(** Check 1: all required sections present. *)
Definition check_missing (f : filing) : list string :=
  let missing := filter (λ s, has_section f s = false) required_sections in
  match missing with
  | [] => []
  | _ => ["Missing sections: " +:+ join ", " missing]
  end.

(** Check 2: minimum content length. *)
Definition check_length_section (sc : string * string) : list string :=
  match min_word_counts sc.1 with
  | Some min_words =>
      let word_count := Z.of_nat (length (split sc.2)) in
      if word_count <? min_words
      then [too_short_message sc.1 word_count min_words]
      else []
  | None => []
  end.

(** Check 3: content quality.  The source tests
    [number_words / len(words) > 0.8] on floats; the exact comparison
    [5 * number_words > 4 * len(words)] decides the same for any text of
    fewer than 10^15 words. *)
Definition check_numbers_section (sc : string * string) : list string :=
  let words := split sc.2 in
  if (0 <? length words)%nat
  then let number_words := length (filter (λ w, any_char isdigit w = true) words) in
       if (4 * length words <? 5 * number_words)%nat
       then [mostly_numbers_message sc.1]
       else []
  else [].

(** Check 4: AI summaries generated. *)
Definition check_summaries (ai_results : ai_result) : list string :=
  match summaries ai_results with
  | [] => ["No AI summaries generated"]
  | _ => []
  end.

Record quality_result : Type := mkQuality {
  is_valid : bool;
  issues : list string
}.

Definition validate_extraction {D : Type} (filings : list filing) (diff_results : D)
    (ai_results : ai_result) : quality_result :=
  let issues :=
    flat_map check_missing filings
    ++ flat_map (λ f, flat_map check_length_section (sections f)) filings
    ++ flat_map (λ f, flat_map check_numbers_section (sections f)) filings
    ++ check_summaries ai_results in
  {| is_valid := (length issues =? 0)%nat; issues := issues |}.

(** ** worker.py: process_job *)

Inductive job_status : Type := queued | processing | completed | failed.

(** An entry of the in-memory [jobs] dict of app.py. *)
Record job : Type := mkJob {
  status : job_status;
  progress : Z;
  j_ticker : string;
  error : option string
}.

Definition set_progress (n : Z) (j : job) : job :=
  mkJob (status j) n (j_ticker j) (error j).

Definition set_status (s : job_status) (j : job) : job :=
  mkJob s (progress j) (j_ticker j) (error j).

Definition set_error (e : string) (j : job) : job :=
  mkJob (status j) (progress j) (j_ticker j) (Some e).

(** The JSON body posted to the callback URL. *)
Inductive callback : Type :=
| Callback_completed (job_id report_id : positive)
| Callback_failed (job_id : positive) (error : string) (error_log_id : positive).

(** What a worker run leaves behind: the database, the [jobs] dict and the
    callbacks that were delivered. *)
Record world : Type := mkWorld {
  w_db : db;
  w_jobs : gmap positive job;
  w_callbacks : list callback
}.

Definition with_db (d : db) (w : world) : world :=
  mkWorld d (w_jobs w) (w_callbacks w).

Definition with_job (job_id : positive) (f : job → job) (w : world) : world :=
  mkWorld (w_db w) (alter f job_id (w_jobs w)) (w_callbacks w).

(** How a worker run ended: normally, or with the exception that escaped the
    handler ([create_error_log] is not guarded). *)
Inductive outcome : Type :=
| Returned
| Raised (e : string).

Definition show_sql_error (e : sql_error) : string :=
  match e with
  | Insufficient_tokens b => "Insufficient tokens: balance is " +:+ pretty b +:+ ", need 1"
  | Foreign_key_violation => "violates foreign key constraint"
  end.

Section Worker.
(** The collaborators of the pipeline, outside the repository: the SEC
    fetcher, the diff analyzer, the AI analyzer, and the HTTP client used
    for the callback, which says whether the POST went through. *)
Context {diff_result : Type}.
Variable get_10k_sections : string → result string (list filing).
Variable compare_sections :
  list (string * string) → list (string * string) → result string diff_result.
Variable analyze_all_sections :
  string → string → Z → Z → diff_result → result string ai_result.
Variable requests_post : callback → result string unit.
Variable now : Z.

(** The [except Exception as e:] branch; the text of the stack trace is
    left empty. *)
Definition job_failed (job_id p_user_id : positive) (p_ticker : string)
    (e : string) (w : world) : outcome * world :=
  let w := with_job job_id (set_error e ∘ set_status failed) w in
  match create_error_log p_user_id p_ticker "extraction_failed" e "" (w_db w) with
  | Err err => (Raised (show_sql_error err), w)
  | Ok (error_log_id, d) =>
      let w := with_db d w in
      let cb := Callback_failed job_id e error_log_id in
      match requests_post cb with
      | Ok _ => (Returned, mkWorld (w_db w) (w_jobs w) (w_callbacks w ++ [cb]))
      | Err _ => (Returned, w)     (* except: pass *)
      end
  end.

(** Steps 1 to 7 of the [try:] block.  [Err e] is an exception raised at
    that point, with the world as it then is.  [filings[0]] is the newer
    filing and [filings[1]] the older one; [generation_time_seconds] is 0
    because no code stores a ['start_time'] in the job. *)
Definition job_body (job_id p_user_id : positive) (p_ticker : string)
    (w : world) : result string unit * world :=
  let w := mkWorld (w_db w)
             (<[job_id := mkJob processing 10 p_ticker None]> (w_jobs w))
             (w_callbacks w) in
  match get_10k_sections p_ticker with
  | Err e => (Err e, w)
  | Ok filings =>
  match filings with
  | [] | [_] =>
      (Err ("Need 2 filings, found " +:+ pretty (length filings)), w)
  | newer :: older :: _ =>
  let w := with_job job_id (set_progress 30) w in
  match compare_sections (sections older) (sections newer) with
  | Err e => (Err e, w)
  | Ok diff_results =>
  let w := with_job job_id (set_progress 50) w in
  match analyze_all_sections p_ticker (f_company_name newer)
          (filing_date older) (filing_date newer) diff_results with
  | Err e => (Err e, w)
  | Ok ai_results =>
  let w := with_job job_id (set_progress 80) w in
  let quality_result := validate_extraction filings diff_results ai_results in
  let w := with_job job_id (set_progress 90) w in
  match create_report now p_user_id p_ticker (f_company_name newer)
          (filing_date newer) (filing_date older)
          (accession newer) (accession older)
          (map fst (sections newer)) (issues quality_result)
          (is_valid quality_result) (summaries ai_results)
          (total_cost_usd ai_results) (total_tokens ai_results) 0 (w_db w) with
  | Err e => (Err (show_sql_error e), w)
  | Ok (report_id, d) =>
  let w := with_db d w in
  let refund_result :=
    if negb (is_valid quality_result)
    then create_token_refund p_user_id report_id
           ("Quality issues: " +:+ join ", " (issues quality_result)) (w_db w)
    else (None, w_db w) in
  let w := with_db refund_result.2 w in
  match refund_result.1 with
  | Some e => (Err (show_sql_error e), w)
  | None =>
  let w := with_job job_id (set_status completed ∘ set_progress 100) w in
  let cb := Callback_completed job_id report_id in
  match requests_post cb with
  | Err e => (Err e, w)
  | Ok _ => (Ok (), mkWorld (w_db w) (w_jobs w) (w_callbacks w ++ [cb]))
  end end end end end end end.

(** [db = SupabaseClient()], the first statement of [process_job], before
    the [try:].  [SupabaseClient.__init__] reads [SUPABASE_URL] and
    [SUPABASE_SERVICE_KEY] and calls [create_client(url, key)], which raises
    when one of them is missing or malformed. *)
Variable create_client : result string unit.

(** [process_job]: the construction of the client, then the [try:] block
    with its [except] branch.  An exception of the construction leaves the
    function at once: nothing has been written and no job entry touched. *)
Definition process_job (job_id p_user_id : positive) (p_ticker : string)
    (w : world) : outcome * world :=
  match create_client with
  | Err e => (Raised e, w)
  | Ok _ =>
      match job_body job_id p_user_id p_ticker w with
      | (Ok _, w') => (Returned, w')
      | (Err e, w') => job_failed job_id p_user_id p_ticker e w'
      end
  end.
End Worker.

(** ** Edge function generate-report

    The variant that takes [user_id] from the request body, uses the
    service role and clones the cached report for the requesting user.  (The
    repository holds a second variant, which takes the user from the session
    and charges for the cached report without cloning it:
    [generate_report_session] below.)  Tickers are ASCII text. *)

Definition ascii_upper (c : ascii) : ascii :=
  let n := N_of_ascii c in
  if ((97 <=? n) && (n <=? 122))%N then ascii_of_N (n - 32) else c.

Definition ascii_lower (c : ascii) : ascii :=
  let n := N_of_ascii c in
  if ((65 <=? n) && (n <=? 90))%N then ascii_of_N (n + 32) else c.

Fixpoint string_map (f : ascii → ascii) (s : string) : string :=
  match s with
  | EmptyString => EmptyString
  | String c s' => String (f c) (string_map f s')
  end.

Definition toUpperCase : string → string := string_map ascii_upper.
Definition toLowerCase : string → string := string_map ascii_lower.

(** The JSON body of a request; an absent field and an empty string are both
    falsy. *)
Record request : Type := mkRequest {
  req_ticker : string;
  req_user_id : option positive
}.

(** The body sent to the Python worker's [/generate-report]. *)
Record job_request : Type := mkJobRequest {
  jr_job_id : positive;
  jr_user_id : positive;
  jr_ticker : string
}.

Inductive worker_response : Type :=
| Worker_accepted                    (* 202 from app.py *)
| Worker_not_ok (error_text : string)
| Worker_unreachable (message : string).   (* [fetch] throws *)

Inductive response : Type :=
| Bad_request (error : string)                                (* 400 *)
| Insufficient_tokens_response (tokens : option Z)            (* 402 *)
| Profile_not_found                                           (* 404 *)
| Cached (is_refunded : bool) (report_id : positive)          (* 200 *)
| Job_queued (job_id : positive)                              (* 202 *)
| Worker_error (details : string)                             (* 500 *)
| Internal_error (message : string).                          (* 500 *)

Definition thirty_days : Z := 30 * 86400.

(** [.eq('ticker', tickerUpper).gte('created_at', thirtyDaysAgo)
     .order('created_at', { ascending: false }).limit(1)].
    Among rows of equal [created_at] the database may return any; the model
    keeps the one met last. *)
Definition newer_of (x : positive * report) (best : option (positive * report))
    : option (positive * report) :=
  match best with
  | None => Some x
  | Some b => if created_at b.2 <? created_at x.2 then Some x else Some b
  end.

Definition existing_reports (d : db) (tickerUpper : string) (thirtyDaysAgo : Z)
    : option (positive * report) :=
  foldr newer_of None
    (filter (λ x, String.eqb (ticker x.2) tickerUpper = true
                  ∧ thirtyDaysAgo ≤ created_at x.2)
            (map_to_list (reports d))).

(** The row inserted on a cache hit. *)
Definition clone_report (now : Z) (p_user_id : positive) (fullReport : report) : report :=
  {| user_id := p_user_id;
     ticker := ticker fullReport;
     company_name := company_name fullReport;
     newer_filing_date := newer_filing_date fullReport;
     older_filing_date := older_filing_date fullReport;
     newer_accession := newer_accession fullReport;
     older_accession := older_accession fullReport;
     extraction_success := extraction_success fullReport;
     sections_extracted := sections_extracted fullReport;
     extraction_issues := extraction_issues fullReport;
     ai_summaries := ai_summaries fullReport;
     tokens_used := 1;
     refunded := refunded fullReport;
     ai_cost_usd := 0;
     total_tokens_consumed := 0;
     report_url := report_url fullReport;
     created_at := now;
     generation_time_seconds := 0 |}.

(** "Log the token usage": the insert of the usage transaction of -1; the
    handler does not look at its outcome. *)
Definition log_usage (p_user_id newReport_id : positive) (tickerUpper : string) (d : db) : db :=
  (rpc (insert_token_transaction
          {| tx_user_id := p_user_id;
             tx_report_id := Some newReport_id;
             tx_type := usage;
             tokens_amount := -1;
             description := "Cached report for " +:+ tickerUpper |}) d).2.

Section Orchestrator.
(** The surroundings of one invocation: the clock, [crypto.randomUUID()],
    the [PYTHON_WORKER_URL] setting and the worker's answer. *)
Variable now : Z.
Variable randomUUID : positive.
Variable worker_url : option string.
Variable worker_fetch : job_request → worker_response.

(** STEP 2: no cached report. *)
Definition generate_new (p_user_id : positive) (tickerUpper : string) (d : db)
    : response * db * option job_request :=
  match profiles d !! p_user_id with
  | None => (Profile_not_found, d, None)
  | Some profile =>
      if tokens_remaining profile <? 1
      then (Insufficient_tokens_response (Some (tokens_remaining profile)), d, None)
      else
        let jobId := randomUUID in
        match worker_url with
        | None => (Internal_error "PYTHON_WORKER_URL not configured", d, None)
        | Some _ =>
            let jr := mkJobRequest jobId p_user_id tickerUpper in
            match worker_fetch jr with
            | Worker_unreachable m => (Internal_error m, d, None)
            | Worker_not_ok t => (Worker_error t, d, None)
            | Worker_accepted => (Job_queued jobId, d, Some jr)
            end
        end
  end.

(** The charge on a cache hit, after the clone [newReport_id] is inserted. *)
Definition charge_cached (p_user_id newReport_id : positive) (tickerUpper : string)
    (cached_refunded : bool) (d : db) : response * db * option job_request :=
  if negb cached_refunded
  then
    match rpc (deduct_token p_user_id) d with
    | (Some tokenError, d) =>
        (Insufficient_tokens_response None,
         set_reports (delete newReport_id) d, None)
    | (None, d) =>
        (Cached cached_refunded newReport_id,
         log_usage p_user_id newReport_id tickerUpper d, None)
    end
  else (Cached cached_refunded newReport_id, d, None).

Definition generate_report (req : request) (d : db)
    : response * db * option job_request :=
  if String.eqb (req_ticker req) "" then (Bad_request "missing_ticker", d, None)
  else match req_user_id req with
  | None => (Bad_request "missing_user_id", d, None)
  | Some p_user_id =>
      let tickerUpper := toUpperCase (req_ticker req) in
      let thirtyDaysAgo := now - thirty_days in
      match existing_reports d tickerUpper thirtyDaysAgo with
      | None => generate_new p_user_id tickerUpper d
      | Some (cached_id, cachedReport) =>
          match reports d !! cached_id with
          | None => generate_new p_user_id tickerUpper d
          | Some fullReport =>
              match insert_report (clone_report now p_user_id fullReport) d with
              | Err insertError => generate_new p_user_id tickerUpper d
              | Ok (newReport_id, d) =>
                  charge_cached p_user_id newReport_id tickerUpper
                    (refunded cachedReport) d
              end
          end
      end
  end.
End Orchestrator.

(** ** Edge function generate-report, the session variant

    The second handler of the repository: it takes the user from the
    session ([supabaseClient.auth.getUser()]) and talks to the database with
    the anon key and the user's token, that is as role [authenticated]
    under row-level security.  On a cache hit it charges for the cached
    report itself; it makes no clone. *)




Section SessionOrchestrator.
Variable now : Z.
Variable randomUUID : positive.
Variable worker_url : option string.
Variable worker_fetch : job_request → worker_response.

End SessionOrchestrator.

(** ** Edge function search-companies *)

Module SearchCompanies.

(** A row of [companies] as selected: ['ticker, company_name, cik']. *)
Record company : Type := mkCompany {
  ticker : string;
  company_name : string;
  cik : string
}.

(** [String.prototype.trim] on code points below 256. *)
Definition is_trim_space (c : ascii) : bool :=
  let n := N_of_ascii c in
  ((9 <=? n) && (n <=? 13) || (n =? 32) || (n =? 160))%N.

Fixpoint trim_start (s : string) : string :=
  match s with
  | String c s' => if is_trim_space c then trim_start s' else s
  | EmptyString => EmptyString
  end.

Definition trim (s : string) : string :=
  String.rev (trim_start (String.rev (trim_start s))).

(** [s.startsWith(t)] and [s.includes(t)]. *)
Definition startsWith (s t : string) : bool := String.prefix t s.

Fixpoint includes (s t : string) : bool :=
  startsWith s t
  || match s with
     | EmptyString => false
     | String _ s' => includes s' t
     end.

(** [\w] of a regular expression. *)
Definition is_word_char (c : ascii) : bool :=
  let n := N_of_ascii c in
  ((48 <=? n) && (n <=? 57) || (65 <=? n) && (n <=? 90)
   || (97 <=? n) && (n <=? 122) || (n =? 95))%N.

Definition next_is_word (s : string) : bool :=
  match s with
  | EmptyString => false
  | String c _ => is_word_char c
  end.

(** [name.match(new RegExp('\\b' + escaped))]: the escaping makes the
    pattern match [searchTerm] literally, so the test is whether
    [searchTerm] occurs at a word boundary of [name].  [prev] tells
    whether the character before the current position is a word
    character. *)
Fixpoint match_boundary_from (prev : bool) (s t : string) : bool :=
  xorb prev (next_is_word s) && startsWith s t
  || match s with
     | EmptyString => false
     | String c s' => match_boundary_from (is_word_char c) s' t
     end.

Definition match_word_boundary (name t : string) : bool :=
  match_boundary_from false name t.

Definition score (searchTerm : string) (c : company) : Z :=
  let ticker := toLowerCase (ticker c) in
  let name := toLowerCase (company_name c) in
  if String.eqb ticker searchTerm then 10000
  else if startsWith ticker searchTerm then 5000
  else if includes ticker searchTerm then 1000
  else if String.eqb name searchTerm then 9000
  else if startsWith name searchTerm then 4000
  else if match_word_boundary name searchTerm then 3000
  else if includes name searchTerm then 100
  else 0.

(** [scored.sort((a, b) => b.score - a.score)]: a stable sort by
    decreasing score.  [insert_scored] puts an element in front of the
    first one whose score is not greater. *)
Fixpoint insert_scored (x : company * Z) (l : list (company * Z)) : list (company * Z) :=
  match l with
  | [] => [x]
  | y :: l' => if y.2 <=? x.2 then x :: y :: l' else y :: insert_scored x l'
  end.

Fixpoint sort_scored (l : list (company * Z)) : list (company * Z) :=
  match l with
  | [] => []
  | x :: l' => insert_scored x (sort_scored l')
  end.

Inductive search_response : Type :=
| Results (results : list company)      (* 200 *)
| Search_failed.                        (* 500 *)

Section Handler.
(** The answer of the [companies] query
    [.or(ticker.ilike.%term%,company_name.ilike.%term%).limit(50)]. *)
Variable select_companies : string → result string (list company).

Definition search_companies (query : string) : search_response :=
  if (String.length query <? 1)%nat then Results []
  else
    let searchTerm := trim (toLowerCase query) in
    match select_companies searchTerm with
    | Err _ => Search_failed
    | Ok data =>
        let scored := map (λ c, (c, score searchTerm c)) data in
        let sorted := sort_scored scored in
        Results (map fst (take 20 sorted))
    end.
End Handler.

End SearchCompanies.

(** ** Two sessions calling [deduct_token] at once

    The statements of [deduct_token] as steps of a database session, seen on
    the one row they touch: the profile of [p_user_id].
    [SELECT ... FOR UPDATE] takes the lock of that row and waits while
    another session holds it; the lock is given back when the transaction
    ends, by the commit after [END] or by the rollback of [RAISE EXCEPTION]. *)

Module Concurrent.

Inductive pc : Type :=
| At_select
| At_check (current_balance : option Z)
| At_update
| At_commit
| Finished (error : option sql_error).

#[global] Instance pc_eq_dec : EqDecision pc.
Proof. solve_decision. Defined.

Record state : Type := mkState {
  row : option Z;             (* [tokens_remaining] of the row, if there is one *)
  lock : option nat;          (* the session holding the row lock *)
  sessions : list pc
}.

#[global] Instance state_eq_dec : EqDecision state.
Proof. solve_decision. Defined.

Definition release (i : nat) (l : option nat) : option nat :=
  if decide (l = Some i) then None else l.

(** One step of session [i]; a session that waits for the lock or has
    finished does not move. *)
Definition step (i : nat) (st : state) : state :=
  match sessions st !! i with
  | None => st
  | Some At_select =>
      match row st with
      | None => mkState (row st) (lock st) (<[i := At_check None]> (sessions st))
      | Some tokens =>
          if decide (lock st = None ∨ lock st = Some i)
          then mkState (row st) (Some i) (<[i := At_check (Some tokens)]> (sessions st))
          else st
      end
  | Some (At_check current_balance) =>
      match current_balance with
      | Some b =>
          if b <? 1
          then mkState (row st) (release i (lock st))
                 (<[i := Finished (Some (Insufficient_tokens b))]> (sessions st))
          else mkState (row st) (lock st) (<[i := At_update]> (sessions st))
      | None => mkState (row st) (lock st) (<[i := At_update]> (sessions st))
      end
  | Some At_update =>
      mkState ((λ t, t - 1) <$> row st) (lock st) (<[i := At_commit]> (sessions st))
  | Some At_commit =>
      mkState (row st) (release i (lock st)) (<[i := Finished None]> (sessions st))
  | Some (Finished _) => st
  end.

(** A schedule names the session that moves next. *)
Definition run (schedule : list nat) (st : state) : state :=
  foldl (λ st i, step i st) st schedule.

Definition one_session (r : option Z) : state := mkState r None [At_select].
Definition two_sessions (r : option Z) : state := mkState r None [At_select; At_select].

(** The states two sessions can be in when they start on a balance of 1. *)
Definition reachable : list state :=
  [ mkState (Some 1) None [At_select; At_select];
    mkState (Some 1) (Some 0%nat) [At_check (Some 1); At_select];
    mkState (Some 1) (Some 0%nat) [At_update; At_select];
    mkState (Some 0) (Some 0%nat) [At_commit; At_select];
    mkState (Some 0) None [Finished None; At_select];
    mkState (Some 0) (Some 1%nat) [Finished None; At_check (Some 0)];
    mkState (Some 0) None [Finished None; Finished (Some (Insufficient_tokens 0))];
    mkState (Some 1) (Some 1%nat) [At_select; At_check (Some 1)];
    mkState (Some 1) (Some 1%nat) [At_select; At_update];
    mkState (Some 0) (Some 1%nat) [At_select; At_commit];
    mkState (Some 0) None [At_select; Finished None];
    mkState (Some 0) (Some 0%nat) [At_check (Some 0); Finished None];
    mkState (Some 0) None [Finished (Some (Insufficient_tokens 0)); Finished None] ].

(** Enough turns for both sessions to finish from any of these states. *)
Definition catch_up : list nat :=
  [0; 0; 0; 0; 1; 1; 1; 1; 0; 0; 0; 0]%nat.

Definition both_finished (st : state) : bool :=
  match sessions st with
  | [Finished _; Finished _] => true
  | _ => false
  end.

(** One session succeeded, the other got "Insufficient tokens", and the
    balance is 0. *)
Definition one_success (st : state) : bool :=
  bool_decide (row st = Some 0)
  && (bool_decide (sessions st = [Finished None; Finished (Some (Insufficient_tokens 0))])
      || bool_decide (sessions st = [Finished (Some (Insufficient_tokens 0)); Finished None])).

End Concurrent.

(** ** Sequences of ledger operations *)



(** The database after each operation of a sequence, the first one first. *)
Fixpoint observations {Op : Type} (apply : Op → db → db) (ops : list Op) (d : db) : list db :=
  match ops with
  | [] => []
  | op :: ops' => apply op d :: observations apply ops' (apply op d)
  end.


Section Pipeline.
Context {diff_result : Type}.

(** What runs against the database as a whole: a request to generate-report
    (the cloning handler, [generate_report]), a worker job, or a refund; each
    comes with its surroundings. *)
Inductive operation : Type :=
| Request (now : Z) (randomUUID : positive) (worker_url : option string)
    (worker_fetch : job_request → worker_response) (req : request)
| Job (get_10k_sections : string → result string (list filing))
    (compare_sections :
       list (string * string) → list (string * string) → result string diff_result)
    (analyze_all_sections :
       string → string → Z → Z → diff_result → result string ai_result)
    (requests_post : callback → result string unit)
    (now : Z) (create_client : result string unit) (jobs : gmap positive job)
    (job_id p_user_id : positive) (p_ticker : string)
| Token_refund (p_user_id report_id : positive) (reason : string).

Definition apply_operation (op : operation) (d : db) : db :=
  match op with
  | Request now uuid url fetch req => (generate_report now uuid url fetch req d).1.2
  | Job fetch diff ai post now client jobs job_id u t =>
      w_db (process_job fetch diff ai post now client job_id u t (mkWorld d jobs [])).2
  | Token_refund u r reason => (create_token_refund u r reason d).2
  end.
End Pipeline.

(** [d] never took a token from an account of [d0] nor logged a
    transaction that [d0] lacks, refunds apart. *)
Definition not_debited (d0 d : db) : Prop :=
  (∀ u p, profiles d0 !! u = Some p →
     ∃ p', profiles d !! u = Some p' ∧ tokens_remaining p ≤ tokens_remaining p')
  ∧ (∀ t, t ∈ token_transactions d →
       t ∈ token_transactions d0 ∨ tx_type t = refund).

(** ** Scenarios *)

(** A database with the single account 1, holding [b] tokens and no
    transaction, report or error log. *)
Definition db_one_account (b : Z) : db :=
  mkDb {[ 1%positive := mkProfile b ]} ∅ [] ∅.

(** A database with the single account 1 that bought [b] tokens. *)
Definition db_funded (b : Z) : db :=
  mkDb {[ 1%positive := mkProfile b ]} ∅
    [mkTx 1 None purchase b "tokens purchased"] ∅.

(** A report of account 1 on "TST" whose quality check failed, as
    [create_report] stores it. *)
Definition failed_report : report :=
  {| user_id := 1;
     ticker := "TST";
     company_name := "Test Corp";
     newer_filing_date := 20000;
     older_filing_date := 19635;
     newer_accession := "0000000000-25-000001";
     older_accession := "0000000000-24-000001";
     extraction_success := false;
     sections_extracted := ["Item 1"; "Item 1A"; "Item 8"];
     extraction_issues := ["Missing sections: Item 7"];
     ai_summaries := [("Item 1", "No material change.")];
     tokens_used := 1;
     refunded := false;
     ai_cost_usd := 900;
     total_tokens_consumed := 24900;
     report_url := None;
     created_at := 1700000000;
     generation_time_seconds := 0 |}.

(** Account 1 with [b] tokens and the report above under id 1. *)
Definition db_with_failed_report (b : Z) : db :=
  set_reports (<[ 1%positive := failed_report ]>) (db_funded b).

Definition is_refund_of (report_id : positive) (t : token_transaction) : bool :=
  bool_decide (tx_type t = refund ∧ tx_report_id t = Some report_id).

(** [n] words of prose. *)
Definition prose (n : positive) : string :=
  Pos.iter (λ s, String "w" (String " " s)) EmptyString n.

(** A filing whose four required sections all meet their minimum. *)
Definition complete_filing (date : Z) (acc : string) : filing :=
  {| filing_date := date;
     accession := acc;
     f_company_name := "Test Corp";
     sections := [("Item 1", prose 1000); ("Item 1A", prose 5000);
                  ("Item 7", prose 5000); ("Item 8", prose 10000)] |}.

(** The same filing without its Item 7. *)
Definition filing_without_item7 (date : Z) (acc : string) : filing :=
  {| filing_date := date;
     accession := acc;
     f_company_name := "Test Corp";
     sections := [("Item 1", prose 1000); ("Item 1A", prose 5000);
                  ("Item 8", prose 10000)] |}.

Definition tst_summaries : ai_result :=
  {| summaries := [("Item 1", "No material change.")];
     total_cost_usd := 900;
     total_tokens := 24900 |}.

(** A fresh request for "tst" by account 1, which holds 3 tokens, and the
    worker run it dispatches; [newer] is the newer of the two filings the
    fetcher returns. *)
Definition tst_request (d : db) : response * db * option job_request :=
  generate_report 1700000000 7 (Some "https://worker.example") (λ _, Worker_accepted)
    (mkRequest "tst" (Some 1%positive)) d.

Definition tst_job (newer : filing) (d : db) : outcome * world :=
  process_job
    (λ _, Ok [newer; complete_filing 19635 "0000000000-24-000001"])
    (λ _ _, Ok ())
    (λ _ _ _ _ _, Ok tst_summaries)
    (λ _, Ok ())
    1700000060 (Ok ()) 7 1 "TST"
    (mkWorld d {[ 7%positive := mkJob queued 0 "TST" None ]} []).

(** A report of account 1 on "TST" that passed the quality check. *)
Definition passed_report : report :=
  {| user_id := 1;
     ticker := "TST";
     company_name := "Test Corp";
     newer_filing_date := 20000;
     older_filing_date := 19635;
     newer_accession := "0000000000-25-000001";
     older_accession := "0000000000-24-000001";
     extraction_success := true;
     sections_extracted := ["Item 1"; "Item 1A"; "Item 7"; "Item 8"];
     extraction_issues := [];
     ai_summaries := [("Item 1", "No material change.")];
     tokens_used := 1;
     refunded := false;
     ai_cost_usd := 900;
     total_tokens_consumed := 24900;
     report_url := None;
     created_at := 1700000000;
     generation_time_seconds := 0 |}.

(** Account 1 owns the report above; account 2 holds [b] tokens. *)
Definition db_cached (b : Z) : db :=
  mkDb {[ 1%positive := mkProfile 2; 2%positive := mkProfile b ]}
    {[ 1%positive := passed_report ]}
    [mkTx 1 None purchase 3 "tokens purchased";
     mkTx 1 (Some 1%positive) usage (-1) "Report generated for TST";
     mkTx 2 None purchase b "tokens purchased"] ∅.

(** Account 2 asks for "tst" 500 seconds after the report was made. *)
Definition tst_cached_request (d : db) : response * db * option job_request :=
  generate_report 1700000500 7 (Some "https://worker.example") (λ _, Worker_accepted)
    (mkRequest "tst" (Some 2%positive)) d.

(** [t] occurs in [s]. *)
Definition occurs_in (t s : string) : Prop := ∃ a b, s = a +:+ t +:+ b.

(** [c] is not a character of [s]. *)
Definition lacks (c : ascii) (s : string) : Prop := any_char (Ascii.eqb c) s = false.

(** The last two characters of a string. *)
Fixpoint last_two (s : string) : string :=
  match s with
  | String _ (String _ (String _ _) as s') => last_two s'
  | _ => s
  end.

(** A filing whose Item 7 has 200 words. *)
Definition filing_short_item7 : filing :=
  {| filing_date := 20000;
     accession := "0000000000-25-000001";
     f_company_name := "Test Corp";
     sections := [("Item 1", prose 1000); ("Item 7", prose 200)] |}.

(** Not after: the score of the second is at most the score of the first. *)
Definition by_score : relation (SearchCompanies.company * Z) := λ a b, b.2 ≤ a.2.

(** Rows of [companies] matching "aap". *)
Definition sample_companies : list SearchCompanies.company :=
  [SearchCompanies.mkCompany "PAAS" "Pan American Silver Corp" "0000771992";
   SearchCompanies.mkCompany "AAPL" "Apple Inc." "0000320193";
   SearchCompanies.mkCompany "AAP" "Advance Auto Parts Inc" "0001158449"].

(** The row [process_job] passes to [create_report]. *)
Definition worker_report (now : Z) (p_user_id : positive) (p_ticker : string)
    (newer older : filing) (q : quality_result) (ai : ai_result) : report :=
  {| user_id := p_user_id;
     ticker := p_ticker;
     company_name := f_company_name newer;
     newer_filing_date := filing_date newer;
     older_filing_date := filing_date older;
     newer_accession := accession newer;
     older_accession := accession older;
     extraction_success := is_valid q;
     sections_extracted := map fst (sections newer);
     extraction_issues := issues q;
     ai_summaries := summaries ai;
     tokens_used := 1;
     refunded := false;
     ai_cost_usd := total_cost_usd ai;
     total_tokens_consumed := total_tokens ai;
     report_url := None;
     created_at := now;
     generation_time_seconds := 0 |}.

(** The refund transaction [create_token_refund] writes for a worker run. *)
Definition worker_refund (p_user_id report_id : positive) (q : quality_result)
    : token_transaction :=
  {| tx_user_id := p_user_id;
     tx_report_id := Some report_id;
     tx_type := refund;
     tokens_amount := 1;
     description := "Quality refund: " +:+ "Quality issues: " +:+ join ", " (issues q) |}.

(** The test of check 3 on one section's text: it has words and more than
    80% of them hold a digit. *)
Definition mostly_numbers (content : string) : bool :=
  let words := split content in
  (0 <? length words)%nat
  && (4 * length words <? 5 * length (filter (λ w, any_char isdigit w = true) words))%nat.

(** A word as [split] yields them: not empty and without blanks. *)
Definition is_word (w : string) : Prop := w ≠ EmptyString ∧ any_char isspace w = false.

(** A filing whose Item 7 was extracted as blanks only. *)
Definition filing_blank_item7 : filing :=
  {| filing_date := 20000;
     accession := "0000000000-25-000002";
     f_company_name := "Test Corp";
     sections := [("Item 1", prose 1000); ("Item 7", "   ")] |}.

(** Account 1 after a refunded run: the failed report is marked refunded. *)
Definition db_refunded_report : db :=
  set_reports (<[ 1%positive := set_refunded true failed_report ]>) (db_funded 4).

(** ** Edge function sync-tickers *)

Module SyncTickers.

(** An entry of the SEC's [company_tickers.json]. *)
Record sec_company : Type := mkSecCompany {
  cik_str : N;
  ticker : string;
  title : string
}.

(** A row of [public.companies], keyed by its [ticker] ([UNIQUE NOT NULL]).
    Of the columns the upsert does not write, [extraction_status] is kept
    ([DEFAULT 'unknown']). *)
Record company_row : Type := mkCompanyRow {
  company_name : string;
  cik : string;
  extraction_status : string
}.

Abbreviation companies_table := (gmap string company_row).

(** An element of [upsertData]. *)
Record upsert_row : Type := mkUpsertRow {
  u_ticker : string;
  u_company_name : string;
  u_cik : string
}.

Fixpoint repeat_char (c : ascii) (n : nat) : string :=
  match n with
  | O => EmptyString
  | S n' => String c (repeat_char c n')
  end.

(** [s.padStart(targetLength, c)] for a one-character pad string. *)
Definition padStart (s : string) (targetLength : nat) (c : ascii) : string :=
  repeat_char c (targetLength - String.length s) +:+ s.

Definition upsertData (company : sec_company) : upsert_row :=
  {| u_ticker := ticker company;
     u_company_name := title company;
     u_cik := padStart (pretty (cik_str company)) 10 "0" |}.

(** [INSERT ... ON CONFLICT (ticker) DO UPDATE] for one row: an existing
    row gets the new [company_name] and [cik] and keeps the rest. *)
Definition upsert_one (t : companies_table) (r : upsert_row) : companies_table :=
  match t !! u_ticker r with
  | Some old =>
      <[u_ticker r := mkCompanyRow (u_company_name r) (u_cik r) (extraction_status old)]> t
  | None =>
      <[u_ticker r := mkCompanyRow (u_company_name r) (u_cik r) "unknown"]> t
  end.

(** [batch.slice(i, j)]. *)
Definition slice {A : Type} (l : list A) (i j : nat) : list A := take (j - i) (drop i l).

Definition BATCH_SIZE : nat := 500.

Inductive method : Type := OPTIONS | GET | POST | Other_method.

Inductive sync_response : Type :=
| Cors_ok                                                     (* 200 'ok' *)
| Method_not_allowed                                          (* 405 *)
| Sync_completed (sec_companies processed : nat) (total_in_db : option nat)   (* 200 *)
| Sync_failed (message : string).                             (* 500 *)

Section Handler.
(** The surroundings of one run: the SEC's answer (an error stands for a
    response that is not ok), whether the database refuses a batch for a
    reason of its own, and whether the final count succeeds. *)
Variable sec_fetch : result string (list sec_company).
Variable request_fails : list upsert_row → bool.
Variable count_fails : bool.

(** [.upsert(upsertData, { onConflict: 'ticker', ignoreDuplicates: false })]:
    one statement for the whole batch.  PostgreSQL refuses it when two of its
    rows have the same ticker; a refused statement writes nothing. *)
Definition upsert (rows : list upsert_row) (t : companies_table)
    : result string companies_table :=
  if bool_decide (NoDup (map u_ticker rows)) && negb (request_fails rows)
  then Ok (foldl upsert_one t rows)
  else Err "upsert failed".

(** One round of the [for] loop on the state (table, [processed]): a
    refused batch is logged and skipped. *)
Definition sync_batch (batch : list sec_company) (st : companies_table * nat)
    : companies_table * nat :=
  match upsert (map upsertData batch) st.1 with
  | Err _ => st
  | Ok t' => (t', (st.2 + length batch)%nat)
  end.

(** The [for] loop from index [i] on.  [fuel] bounds the number of rounds. *)
Fixpoint sync_loop (fuel : nat) (companies : list sec_company) (i : nat)
    (st : companies_table * nat) : companies_table * nat :=
  match fuel with
  | O => st
  | S fuel' =>
      if (i <? length companies)%nat
      then sync_loop fuel' companies (i + BATCH_SIZE)
             (sync_batch (slice companies i (i + BATCH_SIZE)) st)
      else st
  end.

(** Every round moves [i] forward by 500, so [length companies] rounds are
    enough (see [sync_loop_batches]). *)
Definition sync_all (companies : list sec_company) (t : companies_table)
    : companies_table * nat :=
  sync_loop (length companies) companies 0 (t, 0%nat).

Definition sync_tickers (m : method) (t : companies_table)
    : sync_response * companies_table :=
  match m with
  | OPTIONS => (Cors_ok, t)
  | Other_method => (Method_not_allowed, t)
  | GET | POST =>
      match sec_fetch with
      | Err message => (Sync_failed message, t)
      | Ok companies =>
          let st := sync_all companies t in
          (Sync_completed (length companies) st.2
             (if count_fails then None else Some (size st.1)),
           st.1)
      end
  end.
End Handler.

End SyncTickers.

(** What a table [t'] may be after upserts into [t] of rows made from the
    entries [cs]: old rows stay, with their status; every row is an old row
    or carries the name and CIK of an entry. *)
Definition synced (cs : list SyncTickers.sec_company)
    (t t' : gmap string SyncTickers.company_row) : Prop :=
  (∀ tk r, t !! tk = Some r →
           ∃ r', t' !! tk = Some r' ∧ SyncTickers.extraction_status r' = SyncTickers.extraction_status r)
  ∧ (∀ tk r', t' !! tk = Some r' →
       t !! tk = Some r'
       ∨ ∃ c, c ∈ cs ∧ SyncTickers.ticker c = tk
              ∧ r' = SyncTickers.mkCompanyRow (SyncTickers.title c)
                       (SyncTickers.padStart (pretty (SyncTickers.cik_str c)) 10 "0")
                       (from_option SyncTickers.extraction_status "unknown" (t !! tk))).

(** Two entries of the SEC's list, and a table that knows one of them under
    an older name. *)
Definition sec_sample : list SyncTickers.sec_company :=
  [SyncTickers.mkSecCompany 320193 "AAPL" "Apple Inc.";
   SyncTickers.mkSecCompany 1158449 "AAP" "Advance Auto Parts Inc"].

Definition companies_before : gmap string SyncTickers.company_row :=
  {[ "AAPL" := SyncTickers.mkCompanyRow "Apple Computer" "0000320193" "working" ]}.

(** A list that names a ticker twice. *)
Definition sec_duplicate : list SyncTickers.sec_company :=
  [SyncTickers.mkSecCompany 320193 "AAPL" "Apple Inc.";
   SyncTickers.mkSecCompany 1158449 "AAP" "Advance Auto Parts Inc";
   SyncTickers.mkSecCompany 320193 "AAPL" "Apple Inc. (new)"].

(** ** Invariants of the tables *)

(** No account holds a negative number of tokens. *)
Definition balances_nonneg (d : db) : Prop :=
  ∀ u p, profiles d !! u = Some p → 0 ≤ tokens_remaining p.

(** The foreign keys of [reports] and [token_transactions]: the account of
    every report and of every transaction exists, and so does the report a
    transaction points to. *)
Definition references_hold (d : db) : Prop :=
  (∀ id r, reports d !! id = Some r → is_Some (profiles d !! user_id r))
  ∧ (∀ t, t ∈ token_transactions d →
       is_Some (profiles d !! tx_user_id t)
       ∧ references_report d (tx_report_id t) = true).

(** A report is marked refunded exactly when its quality check failed. *)
Definition refund_marks_exact (d : db) : Prop :=
  ∀ id r, reports d !! id = Some r → refunded r = negb (extraction_success r).

(** ** Admin dashboard (app/admin/page.tsx) *)

Module AdminDashboard.

Record SystemStats : Type := mkSystemStats {
  totalUsers : Z;
  totalReports : Z;
  successfulReports : Z;
  failedReports : Z;
  pendingReports : Z;
  totalRevenue : Z;
  totalTokensIssued : Z;
  totalTokensRemaining : Z
}.

(** [rows.filter(f).length]. *)
Definition count {A : Type} (f : A → bool) (rows : list A) : Z :=
  Z.of_nat (length (List.filter f rows)).

(** The statistics [loadDashboardData] sets from the rows of its two
    queries. *)
Definition system_stats (profiles : list profile) (reports : list report) : SystemStats :=
  let totalUsers := Z.of_nat (length profiles) in
  let totalReports := Z.of_nat (length reports) in
  let successfulReports :=
    count (λ r, eqb (extraction_success r) true && eqb (refunded r) false) reports in
  let failedReports := count (λ r, eqb (extraction_success r) false) reports in
  let refundedReports := count (λ r, eqb (refunded r) true) reports in
  let totalRevenue := 0 in
  let totalTokensRemaining :=
    fold_left (λ sum p, sum + tokens_remaining p) profiles 0 in
  let totalTokensIssued := totalTokensRemaining + totalReports in
  {| totalUsers := totalUsers;
     totalReports := totalReports;
     successfulReports := successfulReports;
     failedReports := failedReports;
     pendingReports := refundedReports;
     totalRevenue := totalRevenue;
     totalTokensIssued := totalTokensIssued;
     totalTokensRemaining := totalTokensRemaining |}.

(** The [status] shown for a recent report. *)
Definition status (r : report) : string :=
  if refunded r then "refunded"
  else if extraction_success r then "completed" else "failed".

(** The statistics over the tables of a database. *)
Definition stats_of (d : db) : SystemStats :=
  system_stats (map snd (map_to_list (profiles d))) (map snd (map_to_list (reports d))).

End AdminDashboard.

(** ** Report page (app/report/[id]/page.tsx) *)

Module ReportPage.

(** The signed-in user as [getCurrentUser] returns it. *)
Record User : Type := mkUser {
  id : positive;
  is_admin : bool
}.

(** [ai_summaries[section]] on the stored object, whose keys are distinct. *)
Fixpoint get (section : string) (ai_summaries : list (string * string)) : option string :=
  match ai_summaries with
  | [] => None
  | (k, v) :: rest => if String.eqb k section then Some v else get section rest
  end.

Definition sectionOrder : list string := ["Item 1"; "Item 1A"; "Item 7"; "Item 8"].

(** [sectionOrder.map(...).filter(s => s.summary)]: a missing summary
    becomes [''], and [''] is dropped. *)
Definition sortedSections (ai_summaries : list (string * string)) : list (string * string) :=
  List.filter (λ s, negb (String.eqb s.2 ""))
    (map (λ section, (section, default "" (get section ai_summaries))) sectionOrder).

(** What the page ends up showing. *)
Inductive page : Type :=
| Redirect_login
| Page_error (error : string)
| Page_report (report : report) (sections : list (string * string)).

(** [loadUserAndReport], given the signed-in user and the answer of the
    query for the report ([None] for an error or no row). *)
Definition loadUserAndReport (currentUser : option User) (reportData : option report) : page :=
  match currentUser with
  | None => Redirect_login
  | Some currentUser =>
      match reportData with
      | None => Page_error "Report not found"
      | Some reportData =>
          if negb (Pos.eqb (user_id reportData) (id currentUser))
             && negb (is_admin currentUser)
          then Page_error "You do not have access to this report"
          else Page_report reportData (sortedSections (ai_summaries reportData))
      end
  end.

End ReportPage.

(** * Properties *)

(** ** The ledger *)


Lemma deduct_token_raises (d : db) (u : positive) (p : profile) :
  profiles d !! u = Some p → tokens_remaining p < 1 →
  deduct_token u d = Err (Insufficient_tokens (tokens_remaining p)).
Proof.
  intros Hp Hlt. unfold deduct_token. rewrite Hp. simpl.
  destruct (Z.ltb_spec (tokens_remaining p) 1); [done | lia].
Qed.

Lemma deduct_token_succeeds (d : db) (u : positive) (p : profile) :
  profiles d !! u = Some p → 1 ≤ tokens_remaining p →
  deduct_token u d
  = Ok (set_profiles (<[u := set_tokens_remaining (λ t, t - 1) p]>) d).
Proof.
  intros Hp Hge. unfold deduct_token. rewrite Hp. simpl.
  destruct (Z.ltb_spec (tokens_remaining p) 1); [lia | done].
Qed.

Lemma balance_Some (d : db) (u : positive) (b : Z) :
  balance d u = Some b ↔ profiles d !! u = Some (mkProfile b).
Proof.
  unfold balance. destruct (profiles d !! u) as [[b']|]; simpl; naive_solver.
Qed.

(** C3, as stated, fails for a negative starting balance: [deduct_token]
    raises and leaves the balance at -1, which is negative. *)
Lemma deduct_token_negative_start :
  balance (db_one_account (-1)) 1 = Some (-1)
  ∧ rpc (deduct_token 1) (db_one_account (-1)) = (Some (Insufficient_tokens (-1)), (db_one_account (-1)))
  ∧ ¬ (∃ b', balance (rpc (deduct_token 1) (db_one_account (-1))).2 1 = Some b' ∧ 0 ≤ b').
Proof.
  split; [reflexivity|]. split; [reflexivity|].
  intros (b' & Hb & Hpos). vm_compute in Hb. injection Hb as <-. lia.
Qed.

(** C3 (amended): for an account with balance [b], [deduct_token] raises
    exactly when [b < 1] and then leaves the database as it was; otherwise
    it succeeds and the balance becomes [b - 1]; starting from a balance that
    is not negative, the resulting balance is not negative. *)
Theorem deduct_token_spec (d : db) (u : positive) (b : Z) :
  balance d u = Some b →
  (is_Some (rpc (deduct_token u) d).1 ↔ b < 1)
  ∧ (b < 1 → rpc (deduct_token u) d = (Some (Insufficient_tokens b), d))
  ∧ (1 ≤ b → (rpc (deduct_token u) d).1 = None
             ∧ balance (rpc (deduct_token u) d).2 u = Some (b - 1))
  ∧ (0 ≤ b → ∃ b', balance (rpc (deduct_token u) d).2 u = Some b' ∧ 0 ≤ b').
Proof.
  intros Hb%balance_Some.
  assert (Hlow : b < 1 → rpc (deduct_token u) d = (Some (Insufficient_tokens b), d)).
  { intros Hlt. unfold rpc.
    by rewrite (deduct_token_raises d u _ Hb Hlt). }
  assert (Hhigh : 1 ≤ b → (rpc (deduct_token u) d).1 = None
             ∧ balance (rpc (deduct_token u) d).2 u = Some (b - 1)).
  { intros Hge. unfold rpc.
    rewrite (deduct_token_succeeds d u _ Hb Hge). simpl. split; [done|].
    unfold balance. simpl. by rewrite lookup_insert_eq. }
  split; [|split; [done|split; [done|]]].
  - split.
    + intros Hsome. destruct (Z.lt_ge_cases b 1) as [|Hge]; [done|].
      destruct (Hhigh Hge) as [Hnone _]. rewrite Hnone in Hsome.
      by destruct Hsome.
    + intros Hlt. rewrite (Hlow Hlt). by eexists.
  - intros Hpos. destruct (Z.lt_ge_cases b 1) as [Hlt|Hge].
    + rewrite (Hlow Hlt). simpl. exists b. split; [by apply balance_Some | done].
    + destruct (Hhigh Hge) as [_ Hbal]. exists (b - 1). split; [done | lia].
Qed.

Lemma deduct_token_spec_witness :
  balance (db_one_account 3) 1 = Some 3
  ∧ (is_Some (rpc (deduct_token 1) (db_one_account 3)).1 ↔ 3 < 1)
  ∧ (3 < 1 → rpc (deduct_token 1) (db_one_account 3)
             = (Some (Insufficient_tokens 3), db_one_account 3))
  ∧ (1 ≤ 3 → (rpc (deduct_token 1) (db_one_account 3)).1 = None
             ∧ balance (rpc (deduct_token 1) (db_one_account 3)).2 1 = Some (3 - 1))
  ∧ (0 ≤ 3 → ∃ b', balance (rpc (deduct_token 1) (db_one_account 3)).2 1 = Some b'
                   ∧ 0 ≤ b').
Proof.
  split; [reflexivity|].
  apply (deduct_token_spec (db_one_account 3) 1 3). reflexivity.
Defined.



Lemma insert_token_transaction_ok (t : token_transaction) (d : db) :
  is_Some (profiles d !! tx_user_id t) →
  references_report d (tx_report_id t) = true →
  insert_token_transaction t d = Ok (set_token_transactions (λ l, l ++ [t]) d).
Proof.
  intros Hu Hr. unfold insert_token_transaction.
  by rewrite (bool_decide_eq_true_2 _ Hu), Hr.
Qed.

Lemma insert_token_transaction_inv (t : token_transaction) (d d' : db) :
  insert_token_transaction t d = Ok d' →
  is_Some (profiles d !! tx_user_id t)
  ∧ d' = set_token_transactions (λ l, l ++ [t]) d.
Proof.
  unfold insert_token_transaction.
  destruct (bool_decide (is_Some (profiles d !! tx_user_id t))) eqn:Hu; simpl;
    [|done].
  destruct (references_report d (tx_report_id t)); [|done].
  intros [= <-]. split; [by apply bool_decide_eq_true in Hu | done].
Qed.

(** [create_token_refund] on an existing account and report: what each of
    its three requests leaves. *)
Lemma create_token_refund_ok (d : db) (u r : positive) (reason : string)
    (p : profile) (rep : report) :
  profiles d !! u = Some p → reports d !! r = Some rep →
  let d' := (create_token_refund u r reason d).2 in
  (create_token_refund u r reason d).1 = None
  ∧ profiles d' !! u = Some (mkProfile (tokens_remaining p + 1))
  ∧ reports d' !! r = Some (set_refunded true rep)
  ∧ token_transactions d'
    = token_transactions d
      ++ [mkTx u (Some r) refund 1 ("Quality refund: " +:+ reason)].
Proof.
  intros Hp Hr. unfold create_token_refund, rpc.
  rewrite insert_token_transaction_ok; simpl.
  - rewrite lookup_alter_eq, Hp, lookup_alter_eq, Hr. done.
  - rewrite Hp. by eexists.
  - apply bool_decide_eq_true_2. rewrite lookup_alter_eq, Hr. by eexists.
Qed.


(** C4, as stated, fails: the second [create_token_refund] for the same
    report adds a second refund transaction and a second token. *)
Lemma refund_twice_counts_twice :
  let d0 := db_with_failed_report 0 in
  let d1 := (create_token_refund 1 1 "Missing sections: Item 7" d0).2 in
  let d2 := (create_token_refund 1 1 "Missing sections: Item 7" d1).2 in
  balance d0 1 = Some 0
  ∧ balance d1 1 = Some 1
  ∧ balance d2 1 = Some 2
  ∧ length (filter (λ t, is_refund_of 1 t = true) (token_transactions d2)) = 2%nat
  ∧ d2 ≠ d1.
Proof.
  repeat split; try reflexivity.
  intros Heq. apply (f_equal (λ d, balance d 1)) in Heq. vm_compute in Heq.
  discriminate.
Qed.

(** C4 (amended): [create_token_refund] is not idempotent.  Each call for an
    existing account and report raises nothing, adds one refund transaction
    of +1 and one token; two calls for the same report leave two refund
    transactions and a balance higher by 2.  Only the [refunded] flag is the
    same after the second call as after the first. *)
Theorem create_token_refund_twice (d : db) (u r : positive) (reason1 reason2 : string)
    (b : Z) (rep : report) :
  balance d u = Some b → reports d !! r = Some rep →
  let first := create_token_refund u r reason1 d in
  let second := create_token_refund u r reason2 first.2 in
  first.1 = None ∧ second.1 = None
  ∧ balance first.2 u = Some (b + 1)
  ∧ balance second.2 u = Some (b + 2)
  ∧ token_transactions second.2
    = token_transactions d
      ++ [mkTx u (Some r) refund 1 ("Quality refund: " +:+ reason1);
          mkTx u (Some r) refund 1 ("Quality refund: " +:+ reason2)]
  ∧ reports first.2 !! r = Some (set_refunded true rep)
  ∧ reports second.2 !! r = Some (set_refunded true rep).
Proof.
  intros Hb%balance_Some Hr first second.
  destruct (create_token_refund_ok d u r reason1 _ _ Hb Hr)
    as (He1 & Hp1 & Hr1 & Ht1).
  destruct (create_token_refund_ok first.2 u r reason2 _ _ Hp1 Hr1)
    as (He2 & Hp2 & Hr2 & Ht2).
  fold first in He1, Hp1, Hr1, Ht1. fold second in He2, Hp2, Hr2, Ht2.
  simpl in Hp2. repeat split; try done.
  - by apply balance_Some.
  - apply balance_Some. rewrite Hp2. do 2 f_equal. lia.
  - rewrite Ht2, Ht1, <- app_assoc. done.
Qed.

Lemma create_token_refund_twice_witness :
  let d := db_with_failed_report 0 in
  balance d 1 = Some 0 ∧ reports d !! 1%positive = Some failed_report
  ∧ balance (create_token_refund 1 1 "b" (create_token_refund 1 1 "a" d).2).2 1
    = Some (0 + 2).
Proof.
  split; [reflexivity|]. split; [reflexivity|].
  exact (proj1 (proj2 (proj2 (proj2
    (create_token_refund_twice (db_with_failed_report 0) 1 1 "a" "b" 0 failed_report
       eq_refl eq_refl))))).
Defined.

(** ** The pipeline keeps the ledger consistent *)

Lemma insert_report_inv (r : report) (d d' : db) (id : positive) :
  insert_report r d = Ok (id, d') →
  is_Some (profiles d !! user_id r)
  ∧ reports d !! id = None
  ∧ d' = set_reports (<[id := r]>) d.
Proof.
  unfold insert_report. case_bool_decide as Hu; [|done].
  intros [= <- <-]. split; [done|]. split; [|done].
  apply not_elem_of_dom, is_fresh.
Qed.


Lemma generate_new_db uuid url fetch (u : positive) (t : string) (d : db) :
  (generate_new uuid url fetch u t d).1.2 = d.
Proof. unfold generate_new. by repeat case_match. Qed.


Lemma create_error_log_inv (u : positive) (t ty m s : string) (d d' : db) (id : positive) :
  create_error_log u t ty m s d = Ok (id, d') →
  profiles d' = profiles d ∧ reports d' = reports d
  ∧ token_transactions d' = token_transactions d.
Proof.
  unfold create_error_log. case_bool_decide; [|done]. by intros [= <- <-].
Qed.

Section WorkerProps.
Context {diff_result : Type}.
Variable get_10k_sections : string → result string (list filing).
Variable compare_sections :
  list (string * string) → list (string * string) → result string diff_result.
Variable analyze_all_sections :
  string → string → Z → Z → diff_result → result string ai_result.
Variable requests_post : callback → result string unit.
Variable now : Z.
Variable create_client : result string unit.

#[local] Arguments validate_extraction : simpl never.

Local Abbreviation job_body := (job_body get_10k_sections compare_sections
                        analyze_all_sections requests_post now).
Local Abbreviation job_failed := (job_failed requests_post).
Local Abbreviation process_job := (process_job get_10k_sections compare_sections
                           analyze_all_sections requests_post now create_client).

Section Preserved.
(** A property of the database that looks at accounts and transactions
    only and that a refund keeps. *)
Variable P : db → Prop.
Hypothesis P_same : ∀ d d',
  profiles d' = profiles d → token_transactions d' = token_transactions d →
  P d → P d'.
Hypothesis P_refund : ∀ u r reason d, P d → P (create_token_refund u r reason d).2.

Lemma job_failed_preserves (job_id u : positive) (t e : string) (w : world) :
  P (w_db w) → P (w_db (job_failed job_id u t e w).2).
Proof.
  intros Hc. unfold job_failed.
  destruct (create_error_log _ _ _ _ _ _) as [[id d]|err] eqn:Hlog; simpl; [|done].
  apply create_error_log_inv in Hlog as (Hp & _ & Ht).
  destruct (requests_post _); simpl; by apply (P_same (w_db w)).
Qed.

Lemma job_body_preserves (job_id u : positive) (t : string) (w : world) :
  P (w_db w) → P (w_db (job_body job_id u t w).2).
Proof.
  intros Hc. unfold job_body.
  destruct (get_10k_sections t) as [[|newer [|older rest]]|e];
    cbn -[validate_extraction]; try done.
  destruct (compare_sections _ _) as [diff_results|e];
    cbn -[validate_extraction]; try done.
  destruct (analyze_all_sections _ _ _ _ _) as [ai_results|e];
    cbn -[validate_extraction]; try done.
  set (q := validate_extraction _ diff_results ai_results).
  destruct (create_report _ _ _ _ _ _ _ _ _ _ _ _ _ _ _ _) as [[report_id d]|e] eqn:Hrep;
    cbn -[validate_extraction]; try done.
  unfold create_report in Hrep. apply insert_report_inv in Hrep as (_ & _ & ->).
  match goal with |- context [set_reports ?f (w_db w)] =>
    set (d1 := set_reports f (w_db w)) end.
  assert (P d1) as Hc1 by by apply (P_same (w_db w)).
  assert (P
    (if negb (is_valid q)
     then create_token_refund u report_id
            ("Quality issues: " +:+ join ", " (issues q)) d1
     else (None, d1)).2) as Hrefund.
  { destruct (is_valid q); cbn; [done|]. by apply P_refund. }
  destruct (if negb (is_valid q) then _ else _) as [[e|] d2]; cbn in *; try done.
  by destruct (requests_post _).
Qed.

Lemma process_job_preserves (job_id u : positive) (t : string) (w : world) :
  P (w_db w) → P (w_db (process_job job_id u t w).2).
Proof.
  intros Hc. unfold process_job. destruct create_client as [[]|ce]; [|done].
  pose proof (job_body_preserves job_id u t w Hc) as Hb.
  destruct (job_body job_id u t w) as [[[]|e] w']; simpl in *; [done|].
  by apply job_failed_preserves.
Qed.
End Preserved.


(** No worker run takes a token or logs a usage transaction, whatever the
    collaborators return. *)
Lemma process_job_never_debits (job_id u : positive) (t : string) (w : world) :
  not_debited (w_db w) (w_db (process_job job_id u t w).2).
Proof.
  apply (process_job_preserves (not_debited (w_db w))).
  - intros d d' Hp Ht [Hbal Htx]. split.
    + intros u' p Hlook. rewrite Hp. by apply Hbal.
    + intros tx. rewrite Ht. apply Htx.
  - intros u' r reason d [Hbal Htx]. unfold create_token_refund, rpc.
    destruct (insert_token_transaction _ _) as [d2|e] eqn:Hins; simpl.
    + apply insert_token_transaction_inv in Hins as [_ ->]. split; simpl.
      * intros u0 p Hlook. destruct (Hbal _ _ Hlook) as (p' & Hp' & Hle).
        destruct (decide (u' = u0)) as [<-|Hne].
        -- exists (set_tokens_remaining (λ x, x + 1) p').
           rewrite lookup_alter_eq, Hp'. split; [done | simpl; lia].
        -- exists p'. by rewrite lookup_alter_ne.
      * intros tx [Hin|Hin%list_elem_of_singleton]%elem_of_app; [by apply Htx|].
        right. by subst.
    + split; [done|]. apply Htx.
  - split; [|by left]. intros u' p Hlook. exists p. split; [done | lia].
Qed.
End WorkerProps.






(** ** A fresh request that reaches the worker *)

(** C5: on the code, a fresh request whose worker run passes the quality
    check creates the one report with [extraction_success = true] and
    [refunded = false], but logs no usage transaction and leaves the balance
    at 3: neither generate-report nor [process_job] calls [deduct_token]. *)
Theorem fresh_report_passed_is_not_charged :
  let d0 := db_funded 3 in
  let requested := tst_request d0 in
  let run := tst_job (complete_filing 20000 "0000000000-25-000001") requested.1.2 in
  let d := w_db run.2 in
  balance d0 1 = Some 3
  ∧ reports d0 = ∅
  ∧ requested.1.1 = Job_queued 7
  ∧ requested.2 = Some (mkJobRequest 7 1 "TST")
  ∧ run.1 = Returned
  ∧ (∃ r, map_to_list (reports d) = [(1%positive, r)]
          ∧ extraction_success r = true ∧ refunded r = false)
  ∧ token_transactions d = token_transactions d0
  ∧ filter (λ t, tx_type t = usage) (token_transactions d) = []
  ∧ balance d 1 = Some 3.
Proof.
  cbv zeta.
  repeat match goal with |- _ ∧ _ => split end; try (vm_compute; reflexivity).
  eexists. split; [vm_compute; reflexivity|]. split; reflexivity.
Qed.

(** C6: on the code, a fresh request whose worker run fails the quality
    check with "Missing sections: Item 7" stores the report with
    [extraction_success = false] and [refunded = true] and logs the refund
    of +1, but the account was never debited: the balance goes from 3 to 4. *)
Theorem fresh_report_failed_gains_a_token :
  let d0 := db_funded 3 in
  let requested := tst_request d0 in
  let run := tst_job (filing_without_item7 20000 "0000000000-25-000001") requested.1.2 in
  let d := w_db run.2 in
  balance d0 1 = Some 3
  ∧ requested.1.1 = Job_queued 7
  ∧ run.1 = Returned
  ∧ (∃ r, map_to_list (reports d) = [(1%positive, r)]
          ∧ extraction_success r = false ∧ refunded r = true
          ∧ extraction_issues r = ["Missing sections: Item 7"])
  ∧ token_transactions d
    = token_transactions d0
      ++ [mkTx 1 (Some 1%positive) refund 1
            "Quality refund: Quality issues: Missing sections: Item 7"]
  ∧ filter (λ t, tx_type t = usage) (token_transactions d) = []
  ∧ balance d 1 = Some 4.
Proof.
  cbv zeta.
  repeat match goal with |- _ ∧ _ => split end; try (vm_compute; reflexivity).
  eexists. split; [vm_compute; reflexivity|]. repeat split.
Qed.

(** ** The cached path of generate-report *)

Lemma foldr_newer_of_elem (l : list (positive * report)) (x : positive * report) :
  foldr newer_of None l = Some x → x ∈ l.
Proof.
  induction l as [|y l IH]; simpl; [done|].
  unfold newer_of at 1. destruct (foldr newer_of None l) as [b|].
  - destruct (created_at b.2 <? created_at y.2).
    + intros [= <-]. by left.
    + intros [= <-]. right. by apply IH.
  - intros [= <-]. by left.
Qed.

Lemma existing_reports_Some (d : db) (t : string) (a : Z) (id : positive) (r : report) :
  existing_reports d t a = Some (id, r) →
  reports d !! id = Some r ∧ ticker r = t ∧ a ≤ created_at r.
Proof.
  intros Hx%foldr_newer_of_elem.
  apply list_elem_of_filter in Hx as [[Ht Ha] Hin]. simpl in *.
  apply elem_of_map_to_list in Hin. by apply String.eqb_eq in Ht.
Qed.

Lemma set_reports_delete_insert (d : db) (id : positive) (r : report) :
  reports d !! id = None →
  set_reports (delete id) (set_reports (<[id := r]>) d) = d.
Proof.
  intros Hnone. destruct d as [ps rs ts es]. unfold set_reports. simpl in *.
  f_equal. rewrite delete_insert_eq. by apply delete_id.
Qed.

Lemma deduct_token_Err_inv (u : positive) (d : db) (e : sql_error) :
  deduct_token u d = Err e →
  ∃ p, profiles d !! u = Some p ∧ tokens_remaining p < 1
       ∧ e = Insufficient_tokens (tokens_remaining p).
Proof.
  unfold deduct_token. destruct (profiles d !! u) as [p|]; [|done]. simpl.
  destruct (Z.ltb_spec (tokens_remaining p) 1); [|done].
  intros [= <-]. by exists p.
Qed.

Lemma insert_report_ok (r : report) (d : db) :
  is_Some (profiles d !! user_id r) →
  insert_report r d
  = Ok (fresh (dom (reports d)), set_reports (<[fresh (dom (reports d)) := r]>) d).
Proof. intros Hu. unfold insert_report. by rewrite (bool_decide_eq_true_2 _ Hu). Qed.

Section OrchestratorProps.
Variable now : Z.
Variable randomUUID : positive.
Variable worker_url : option string.
Variable worker_fetch : job_request → worker_response.

Lemma generate_new_not_cached (u : positive) (t : string) (d : db) (b : bool)
    (rid : positive) :
  (generate_new randomUUID worker_url worker_fetch u t d).1.1 ≠ Cached b rid.
Proof. unfold generate_new. by repeat case_match. Qed.

Lemma deduct_token_reports (u : positive) (d d' : db) :
  deduct_token u d = Ok d' → reports d' = reports d.
Proof. unfold deduct_token. repeat case_match; by intros [= <-]. Qed.

Lemma log_usage_reports (u r : positive) (t : string) (d : db) :
  reports (log_usage u r t d) = reports d.
Proof.
  unfold log_usage, rpc.
  destruct (insert_token_transaction _ d) as [d'|e] eqn:Hlog; [|done].
  by apply insert_token_transaction_inv in Hlog as [_ ->].
Qed.

(** C8: on a cache hit whose source report was not refunded, when
    [deduct_token] fails for the requesting account the handler answers 402
    insufficient_tokens, dispatches nothing and leaves the database exactly
    as it was before the request: the clone it had inserted is deleted. *)
Theorem cached_debit_failure_rolls_back (req : request) (d : db) (u cid : positive)
    (cached : report) (e : sql_error) :
  req_ticker req ≠ "" → req_user_id req = Some u →
  existing_reports d (toUpperCase (req_ticker req)) (now - thirty_days)
  = Some (cid, cached) →
  refunded cached = false →
  deduct_token u d = Err e →
  generate_report now randomUUID worker_url worker_fetch req d
  = (Insufficient_tokens_response None, d, None).
Proof.
  intros Ht Hu Hex Href Hdebit. unfold generate_report.
  apply String.eqb_neq in Ht. rewrite Ht, Hu, Hex.
  apply existing_reports_Some in Hex as (Hfull & _ & _). rewrite Hfull.
  apply deduct_token_Err_inv in Hdebit as (p & Hp & Hlt & ->).
  rewrite insert_report_ok by (simpl; by eexists).
  unfold charge_cached. rewrite Href. simpl. unfold rpc.
  rewrite (deduct_token_raises _ u p) by done.
  rewrite set_reports_delete_insert; [done|].
  apply not_elem_of_dom, is_fresh.
Qed.

(** C7: whatever generate-report does, every report that was stored before
    the request is stored unchanged after it; and when it answers with a
    cached report, the report it names is a new row, the clone of the cached
    report, whose [ai_cost_usd] and [total_tokens_consumed] are 0. *)
Theorem cached_clone_zero_cost (req : request) (d : db) :
  let result := generate_report now randomUUID worker_url worker_fetch req d in
  (∀ id r, reports d !! id = Some r → reports result.1.2 !! id = Some r)
  ∧ (∀ is_refunded rid, result.1.1 = Cached is_refunded rid →
       ∃ u cid cached,
         req_user_id req = Some u
         ∧ existing_reports d (toUpperCase (req_ticker req)) (now - thirty_days)
           = Some (cid, cached)
         ∧ reports d !! rid = None
         ∧ reports result.1.2 !! rid = Some (clone_report now u cached)
         ∧ ai_cost_usd (clone_report now u cached) = 0
         ∧ total_tokens_consumed (clone_report now u cached) = 0).
Proof.
  unfold generate_report.
  assert (∀ u t, let result := generate_new randomUUID worker_url worker_fetch u t d in
    (∀ id r, reports d !! id = Some r → reports result.1.2 !! id = Some r)
    ∧ (∀ is_refunded rid, result.1.1 = Cached is_refunded rid → False)) as Hnew.
  { intros u t. split.
    - by rewrite generate_new_db.
    - intros b rid. apply generate_new_not_cached. }
  destruct (String.eqb _ _); [done|].
  destruct (req_user_id req) as [u|]; [|done].
  destruct (existing_reports _ _ _) as [[cid cached]|] eqn:Hex;
    [|destruct (Hnew u (toUpperCase (req_ticker req))) as [Hkeep Hno];
      split; [done | intros b rid Hc; by destruct (Hno b rid)]].
  apply existing_reports_Some in Hex as (Hfull & _ & _). rewrite Hfull.
  destruct (insert_report _ _) as [[newId d1]|err] eqn:Hins;
    [|destruct (Hnew u (toUpperCase (req_ticker req))) as [Hkeep Hno];
      split; [done | intros b rid Hc; by destruct (Hno b rid)]].
  apply insert_report_inv in Hins as (Hprof & Hfresh & ->).
  assert (∀ id r, reports d !! id = Some r → id ≠ newId) as Hother
    by (intros id r Hr ->; congruence).
  unfold charge_cached, rpc.
  destruct (refunded cached); simpl.
  - split.
    + intros id r Hr. rewrite lookup_insert_ne; [done|]. by apply not_eq_sym, (Hother _ r).
    + intros b rid [= <- <-]. exists u, cid, cached. by rewrite lookup_insert_eq.
  - destruct (deduct_token u _) as [d2|e] eqn:Hded; simpl.
    + apply deduct_token_reports in Hded. rewrite log_usage_reports, Hded. simpl.
      split.
      * intros id r Hr. rewrite lookup_insert_ne; [done|].
        by apply not_eq_sym, (Hother _ r).
      * intros b rid [= <- <-]. exists u, cid, cached. by rewrite lookup_insert_eq.
    + split; [|done]. intros id r Hr.
      rewrite lookup_delete_ne by (by apply not_eq_sym, (Hother _ r)).
      rewrite lookup_insert_ne; [done|]. by apply not_eq_sym, (Hother _ r).
Qed.
End OrchestratorProps.

Lemma cached_clone_zero_cost_witness :
  let result := tst_cached_request (db_cached 1) in
  result.1.1 = Cached false 2
  ∧ ∃ u cid cached,
      req_user_id (mkRequest "tst" (Some 2%positive)) = Some u
      ∧ existing_reports (db_cached 1) (toUpperCase "tst") (1700000500 - thirty_days)
        = Some (cid, cached)
      ∧ reports (db_cached 1) !! 2%positive = None
      ∧ reports result.1.2 !! 2%positive = Some (clone_report 1700000500 u cached)
      ∧ ai_cost_usd (clone_report 1700000500 u cached) = 0
      ∧ total_tokens_consumed (clone_report 1700000500 u cached) = 0.
Proof.
  split; [vm_compute; reflexivity|].
  apply (proj2 (cached_clone_zero_cost 1700000500 7 (Some "https://worker.example")
                  (λ _, Worker_accepted) (mkRequest "tst" (Some 2%positive))
                  (db_cached 1)) false 2%positive).
  vm_compute; reflexivity.
Defined.

Lemma cached_debit_failure_rolls_back_witness :
  req_ticker (mkRequest "tst" (Some 2%positive)) ≠ ""
  ∧ existing_reports (db_cached 0) (toUpperCase "tst") (1700000500 - thirty_days)
    = Some (1%positive, passed_report)
  ∧ deduct_token 2 (db_cached 0) = Err (Insufficient_tokens 0)
  ∧ tst_cached_request (db_cached 0)
    = (Insufficient_tokens_response None, db_cached 0, None).
Proof.
  split; [done|]. split; [vm_compute; reflexivity|]. split; [reflexivity|].
  apply (cached_debit_failure_rolls_back 1700000500 7 (Some "https://worker.example")
           (λ _, Worker_accepted) (mkRequest "tst" (Some 2%positive)) (db_cached 0)
           2 1 passed_report (Insufficient_tokens 0));
    [done | reflexivity | vm_compute; reflexivity | reflexivity | reflexivity].
Defined.

(** The third scenario of the spec: a fresh report of "TST" exists, a new
    account with one token asks for it.  The answer is the cached clone,
    the balance becomes 0, a usage transaction of -1 is logged and nothing
    is dispatched to the worker. *)
Example cached_request_charges_one_token :
  let result := tst_cached_request (db_cached 1) in
  balance (db_cached 1) 2 = Some 1
  ∧ result.1.1 = Cached false 2
  ∧ result.2 = None
  ∧ balance result.1.2 2 = Some 0
  ∧ token_transactions result.1.2
    = token_transactions (db_cached 1)
      ++ [mkTx 2 (Some 2%positive) usage (-1) "Cached report for TST"].
Proof. cbv zeta. repeat split; vm_compute; reflexivity. Qed.

(** ** The quality validator *)

Lemma string_app_cons (c : ascii) (a b : string) :
  String c a +:+ b = String c (a +:+ b).
Proof. reflexivity. Qed.

Lemma string_app_assoc (a b c : string) : (a +:+ b) +:+ c = a +:+ (b +:+ c).
Proof.
  induction a as [|x a IH]; [done|]. rewrite !string_app_cons. by rewrite IH.
Qed.

Lemma cut_at_char (c : ascii) (a a' r r' : string) :
  lacks c a → lacks c a' →
  a +:+ String c r = a' +:+ String c r' → a = a' ∧ r = r'.
Proof.
  unfold lacks. revert a'. induction a as [|x a IH]; intros [|x' a']; simpl;
    rewrite ?string_app_cons.
  - intros _ _ [= ->]. done.
  - intros _ [Hx _]%orb_false_elim [= <- _]. by rewrite Ascii.eqb_refl in Hx.
  - intros [Hx _]%orb_false_elim _ [= -> _]. by rewrite Ascii.eqb_refl in Hx.
  - intros [_ Ha]%orb_false_elim [_ Ha']%orb_false_elim [= -> Heq].
    destruct (IH a' Ha Ha' Heq) as [-> ->]. done.
Qed.

Lemma pretty_N_go_lacks (c : ascii) (x : N) (s : string) :
  (∀ d, pretty_N_char d ≠ c) → lacks c s → lacks c (pretty_N_go x s).
Proof.
  intros Hc. revert s. induction (N.lt_wf_0 x) as [x _ IH]; intros s Hs.
  destruct (decide (0 < x)%N) as [Hpos|Hzero].
  - rewrite pretty_N_go_step by done. apply IH; [apply N.div_lt; lia|].
    unfold lacks in *. simpl. rewrite Hs, orb_false_r.
    apply Ascii.eqb_neq. intros Heq. by apply (Hc (x `mod` 10)%N).
  - assert (x = 0%N) as -> by lia. by rewrite pretty_N_go_0.
Qed.

Lemma pretty_Z_lacks (c : ascii) (z : Z) :
  (∀ d, pretty_N_char d ≠ c) → c ≠ "-"%char → lacks c (pretty z).
Proof.
  intros Hc Hdash.
  assert (lacks c "0") as Hzero.
  { unfold lacks. simpl. rewrite orb_false_r. apply Ascii.eqb_neq.
    intros ->. by apply (Hc 0%N). }
  assert (∀ p : positive, lacks c (pretty p)) as Hpos.
  { intros p. unfold pretty, pretty_positive, pretty, pretty_N.
    case_decide; [done|]. by apply pretty_N_go_lacks. }
  destruct z as [|p|p]; unfold pretty, pretty_Z; [done|apply Hpos|].
  unfold lacks. rewrite string_app_cons. simpl.
  apply orb_false_intro; [by apply Ascii.eqb_neq | apply Hpos].
Qed.

Lemma digits_not_blank (d : N) : pretty_N_char d ≠ " "%char.
Proof. unfold pretty_N_char. by repeat case_match. Qed.

Lemma digits_not_plus (d : N) : pretty_N_char d ≠ "+"%char.
Proof. unfold pretty_N_char. by repeat case_match. Qed.

Lemma too_short_message_inj (n : string) (k k' m m' : Z) :
  too_short_message n k m = too_short_message n k' m' → k = k' ∧ m = m'.
Proof.
  unfold too_short_message. intros Heq.
  apply (inj (String.app n)), (inj (String.app ": Content too short (")) in Heq.
  change (pretty k +:+ String " " ("words, expected " +:+ pretty m +:+ "+)")
          = pretty k' +:+ String " " ("words, expected " +:+ pretty m' +:+ "+)")) in Heq.
  apply cut_at_char in Heq as [Hk Heq];
    [|by apply pretty_Z_lacks; [apply digits_not_blank|]..].
  apply (inj (String.app "words, expected ")) in Heq.
  change (pretty m +:+ String "+" ")" = pretty m' +:+ String "+" ")") in Heq.
  apply cut_at_char in Heq as [Hm _];
    [|by apply pretty_Z_lacks; [apply digits_not_plus|]..].
  split; by apply (inj pretty).
Qed.

Lemma last_two_app (a : string) (c1 c2 : ascii) :
  last_two (a +:+ String c1 (String c2 "")) = String c1 (String c2 "").
Proof.
  induction a as [|x a IH]; [done|].
  rewrite string_app_cons. destruct a as [|y [|z a]]; [done|done|].
  rewrite !string_app_cons in *. exact IH.
Qed.

Lemma too_short_message_last_two (n : string) (k m : Z) :
  last_two (too_short_message n k m) = "+)".
Proof.
  unfold too_short_message. rewrite <- !string_app_assoc. apply last_two_app.
Qed.

Lemma mostly_numbers_message_last_two (n : string) :
  last_two (mostly_numbers_message n) = "r)".
Proof.
  unfold mostly_numbers_message.
  change (last_two (n +:+ (": Appears to be mostly tables/numbers (may indicate extraction erro"
                      +:+ "r)")) = "r)").
  rewrite <- string_app_assoc. apply last_two_app.
Qed.

Lemma min_word_counts_Some (n : string) (m : Z) :
  min_word_counts n = Some m →
  n = "Item 1" ∨ n = "Item 1A" ∨ n = "Item 7" ∨ n = "Item 8".
Proof.
  unfold min_word_counts.
  destruct (String.eqb_spec n "Item 1"); [by left|].
  destruct (String.eqb_spec n "Item 1A"); [by right; left|].
  destruct (String.eqb_spec n "Item 7"); [by right; right; left|].
  destruct (String.eqb_spec n "Item 8"); [by right; right; right|done].
Qed.

Lemma too_short_message_name (n n' : string) (k k' m m' m0 m0' : Z) :
  min_word_counts n = Some m0 → min_word_counts n' = Some m0' →
  too_short_message n k m = too_short_message n' k' m' → n = n'.
Proof.
  intros Hn Hn'. apply min_word_counts_Some in Hn, Hn'.
  unfold too_short_message.
  destruct Hn as [-> | [-> | [-> | ->]]], Hn' as [-> | [-> | [-> | ->]]];
    try done; rewrite ?string_app_cons; intros Heq; by simplify_eq.
Qed.

Lemma check_length_section_elem (n c msg : string) :
  msg ∈ check_length_section (n, c) ↔
  ∃ m, min_word_counts n = Some m
       ∧ Z.of_nat (length (split c)) < m
       ∧ msg = too_short_message n (Z.of_nat (length (split c))) m.
Proof.
  unfold check_length_section. simpl.
  destruct (min_word_counts n) as [m|]; [|split; [by intros ?%elem_of_nil | by intros (? & ? & _)]].
  destruct (Z.ltb_spec (Z.of_nat (length (split c))) m) as [Hlt|Hge].
  - rewrite list_elem_of_singleton. split.
    + intros ->. by exists m.
    + by intros (m' & [= <-] & _ & ->).
  - split; [by intros ?%elem_of_nil|]. intros (m' & [= <-] & Hlt & _). lia.
Qed.

Lemma elem_of_flat_map {A B : Type} (f : A → list B) (l : list A) (y : B) :
  y ∈ flat_map f l ↔ ∃ x, x ∈ l ∧ y ∈ f x.
Proof.
  rewrite list_elem_of_In, in_flat_map. by setoid_rewrite list_elem_of_In.
Qed.

Lemma too_short_message_occurs (n : string) (k m : Z) :
  occurs_in n (too_short_message n k m)
  ∧ occurs_in (pretty k) (too_short_message n k m)
  ∧ occurs_in (pretty m) (too_short_message n k m).
Proof.
  unfold too_short_message. repeat split.
  - by exists "", (": Content too short (" +:+ pretty k
                   +:+ " words, expected " +:+ pretty m +:+ "+)").
  - exists (n +:+ ": Content too short ("), (" words, expected " +:+ pretty m +:+ "+)").
    by rewrite string_app_assoc.
  - exists (n +:+ ": Content too short (" +:+ pretty k +:+ " words, expected "), "+)".
    by rewrite !string_app_assoc.
Qed.

(** C9: for a section name [n] that has a minimum [m], every filing's
    section [n] whose word count is below [m] puts into the issues the
    message that names the section and holds both the word count and the
    minimum; and every "too short" message for [n] among the issues comes
    from such a section: it carries the minimum [m] and the word count of a
    section [n] of some filing, which is below [m].  A section that meets
    its minimum adds no such message. *)
Theorem too_short_sections_reported {D : Type} (filings : list filing) (diff_results : D)
    (ai_results : ai_result) (n : string) (m : Z) :
  min_word_counts n = Some m →
  let reported := issues (validate_extraction filings diff_results ai_results) in
  (∀ f c, f ∈ filings → (n, c) ∈ sections f →
     let word_count := Z.of_nat (length (split c)) in
     word_count < m →
     too_short_message n word_count m ∈ reported
     ∧ occurs_in n (too_short_message n word_count m)
     ∧ occurs_in (pretty word_count) (too_short_message n word_count m)
     ∧ occurs_in (pretty m) (too_short_message n word_count m))
  ∧ (∀ k m', too_short_message n k m' ∈ reported →
       m' = m ∧ k < m
       ∧ ∃ f c, f ∈ filings ∧ (n, c) ∈ sections f
                ∧ Z.of_nat (length (split c)) = k).
Proof.
  intros Hmin reported. subst reported. unfold validate_extraction. simpl. split.
  - intros f c Hf Hc Hlt. split; [|apply too_short_message_occurs].
    apply elem_of_app. right. apply elem_of_app. left.
    apply elem_of_flat_map. exists f. split; [done|].
    apply elem_of_flat_map. exists (n, c). split; [done|].
    apply check_length_section_elem. by exists m.
  - intros k m' [Hin|[Hin|[Hin|Hin]%elem_of_app]%elem_of_app]%elem_of_app.
    + apply elem_of_flat_map in Hin as (f & _ & Hin). unfold check_missing in Hin.
      destruct (filter _ _); [by apply elem_of_nil in Hin|].
      apply list_elem_of_singleton in Hin.
      apply min_word_counts_Some in Hmin as [-> | [-> | [-> | ->]]];
        unfold too_short_message in Hin; rewrite !string_app_cons in Hin;
        by simplify_eq.
    + apply elem_of_flat_map in Hin as (f & Hf & Hin).
      apply elem_of_flat_map in Hin as ([n' c] & Hc & Hin).
      apply check_length_section_elem in Hin as (m0 & Hmin' & Hlt & Heq).
      assert (n = n') as <- by by eapply too_short_message_name.
      assert (m0 = m) as -> by congruence.
      apply too_short_message_inj in Heq as [-> ->].
      split; [done|]. split; [done|]. by exists f, c.
    + apply elem_of_flat_map in Hin as (f & _ & Hin).
      apply elem_of_flat_map in Hin as ([n' c] & _ & Hin).
      unfold check_numbers_section in Hin. simpl in Hin.
      repeat case_match; try by apply elem_of_nil in Hin.
      apply list_elem_of_singleton in Hin.
      apply (f_equal last_two) in Hin.
      rewrite too_short_message_last_two, mostly_numbers_message_last_two in Hin.
      done.
    + unfold check_summaries in Hin. destruct (summaries ai_results);
        [|by apply elem_of_nil in Hin].
      apply list_elem_of_singleton in Hin.
      apply min_word_counts_Some in Hmin as [-> | [-> | [-> | ->]]];
        unfold too_short_message in Hin; rewrite !string_app_cons in Hin;
        by simplify_eq.
Qed.

(** A section of 200 words against the minimum of 5000. *)
Example item7_of_200_words :
  issues (validate_extraction [filing_short_item7] () tst_summaries)
  = ["Missing sections: Item 1A, Item 8";
     "Item 7: Content too short (200 words, expected 5000+)"]
  ∧ is_valid (validate_extraction [filing_short_item7] () tst_summaries) = false.
Proof. split; vm_compute; reflexivity. Qed.

Lemma too_short_sections_reported_witness :
  min_word_counts "Item 7" = Some 5000
  ∧ Z.of_nat (length (split (prose 200))) < 5000
  ∧ too_short_message "Item 7" (Z.of_nat (length (split (prose 200)))) 5000
    ∈ issues (validate_extraction [filing_short_item7] () tst_summaries).
Proof.
  split; [reflexivity|]. split; [vm_compute; reflexivity|].
  apply (proj1 (too_short_sections_reported [filing_short_item7] () tst_summaries
                  "Item 7" 5000 eq_refl) filing_short_item7 (prose 200)).
  - apply list_elem_of_here.
  - apply list_elem_of_further, list_elem_of_here.
  - vm_compute; reflexivity.
Defined.

(** ** search-companies *)

Section SearchProps.
Local Abbreviation company := SearchCompanies.company.
Local Abbreviation score := SearchCompanies.score.
Local Abbreviation insert_scored := SearchCompanies.insert_scored.
Local Abbreviation sort_scored := SearchCompanies.sort_scored.

Lemma score_le_10000 (t : string) (c : company) : score t c ≤ 10000.
Proof. unfold SearchCompanies.score. repeat case_match; lia. Qed.

Lemma score_exact_ticker (t : string) (c : company) :
  score t c = 10000 ↔ toLowerCase (SearchCompanies.ticker c) = t.
Proof.
  unfold SearchCompanies.score.
  destruct (String.eqb_spec (toLowerCase (SearchCompanies.ticker c)) t) as [Heq|Hne].
  - done.
  - split; [|done]. repeat case_match; lia.
Qed.

Lemma elem_of_insert_scored (x y : company * Z) (l : list (company * Z)) :
  y ∈ insert_scored x l ↔ y = x ∨ y ∈ l.
Proof.
  induction l as [|z l IH]; simpl.
  - rewrite list_elem_of_singleton, elem_of_nil. tauto.
  - destruct (z.2 <=? x.2).
    + by rewrite elem_of_cons.
    + rewrite !elem_of_cons, IH. tauto.
Qed.

Lemma elem_of_sort_scored (y : company * Z) (l : list (company * Z)) :
  y ∈ sort_scored l ↔ y ∈ l.
Proof.
  induction l as [|x l IH]; simpl; [done|].
  by rewrite elem_of_insert_scored, IH, elem_of_cons.
Qed.

Lemma insert_scored_sorted (x : company * Z) (l : list (company * Z)) :
  StronglySorted by_score l → StronglySorted by_score (insert_scored x l).
Proof.
  induction 1 as [|z l Hl IH Hz]; simpl.
  - repeat constructor.
  - destruct (Z.leb_spec z.2 x.2) as [Hle|Hgt].
    + constructor; [by constructor|]. constructor; [done|].
      eapply Forall_impl; [exact Hz|]. unfold by_score. intros; simpl in *; lia.
    + constructor; [done|]. apply Forall_forall. intros y Hy.
      apply elem_of_insert_scored in Hy as [->|Hy].
      * unfold by_score. lia.
      * by eapply Forall_forall in Hz.
Qed.

Lemma sort_scored_sorted (l : list (company * Z)) :
  StronglySorted by_score (sort_scored l).
Proof.
  induction l as [|x l IH]; simpl; [constructor | by apply insert_scored_sorted].
Qed.

Lemma sorted_companies (f : company → Z) (l : list (company * Z)) :
  StronglySorted by_score l → Forall (λ p, p.2 = f p.1) l →
  StronglySorted (λ a b, f b ≤ f a) (map fst l).
Proof.
  induction 1 as [|p l Hl IH Hp]; simpl; [constructor|].
  intros [Hpf Hlf]%Forall_cons_1. constructor; [by apply IH|].
  apply Forall_forall. intros c [q [-> Hq]]%list_elem_of_fmap.
  pose proof (proj1 (Forall_forall _ _) Hp q Hq) as Hle.
  pose proof (proj1 (Forall_forall _ _) Hlf q Hq) as Hqf.
  unfold by_score in Hle. simpl in *. lia.
Qed.

(** C10: whatever the [companies] query returns, a search answers with at
    most 20 companies in order of non-increasing score; and when one of
    them has a ticker equal to the search term (the query lower-cased and
    trimmed, compared with the lower-cased ticker, as [score] does), the
    first of them has such a ticker. *)
Theorem search_results_ranked (select_companies : string → result string (list company))
    (query : string) (results : list company) :
  SearchCompanies.search_companies select_companies query
  = SearchCompanies.Results results →
  let searchTerm := SearchCompanies.trim (toLowerCase query) in
  (length results ≤ 20)%nat
  ∧ StronglySorted (λ a b, score searchTerm b ≤ score searchTerm a) results
  ∧ ((∃ c, c ∈ results ∧ toLowerCase (SearchCompanies.ticker c) = searchTerm) →
     ∃ first, head results = Some first
              ∧ toLowerCase (SearchCompanies.ticker first) = searchTerm).
Proof.
  intros Hres searchTerm.
  assert ((length results ≤ 20)%nat
          ∧ StronglySorted (λ a b, score searchTerm b ≤ score searchTerm a) results)
    as [Hlen Hsorted].
  { unfold SearchCompanies.search_companies in Hres.
    destruct (String.length query <? 1)%nat.
    { injection Hres as <-. split; [simpl; lia | constructor]. }
    fold searchTerm in Hres.
    destruct (select_companies searchTerm) as [data|]; [|done].
    injection Hres as <-. split.
    - rewrite length_map, length_take. lia.
    - apply sorted_companies.
      + pose proof (sort_scored_sorted (map (λ c, (c, score searchTerm c)) data)) as Hs.
        rewrite <- (take_drop 20) in Hs. by apply StronglySorted_app_1_l in Hs.
      + apply Forall_forall. intros p Hp. apply subseteq_take in Hp.
        apply (proj1 (elem_of_sort_scored _ _)) in Hp.
        by apply list_elem_of_fmap in Hp as (c & -> & _). }
  split; [done|]. split; [done|].
  intros (c & Hc & Hticker). destruct results as [|first rest]; [by apply elem_of_nil in Hc|].
  exists first. split; [done|]. apply score_exact_ticker.
  apply score_exact_ticker in Hticker.
  pose proof (score_le_10000 searchTerm first).
  apply elem_of_cons in Hc as [->|Hc]; [done|].
  apply StronglySorted_inv in Hsorted as [_ Hfirst].
  pose proof (proj1 (Forall_forall _ _) Hfirst c Hc) as Hle. simpl in Hle. lia.
Qed.
End SearchProps.

(** [content.split()] drops every run of blanks. *)
Example split_blanks :
  split (String " " (String "a" (String (ascii_of_nat 9) (String " " (String "b"
           (String "c" (String (ascii_of_nat 10) EmptyString)))))))
  = ["a"; "bc"].
Proof. reflexivity. Qed.

(** The sort is stable: companies of equal score keep their order. *)
Example sort_scored_stable :
  map (λ p, SearchCompanies.cik p.1)
    (SearchCompanies.sort_scored
       [(SearchCompanies.mkCompany "A" "a" "1", 100);
        (SearchCompanies.mkCompany "B" "b" "2", 5000);
        (SearchCompanies.mkCompany "C" "c" "3", 100);
        (SearchCompanies.mkCompany "D" "d" "4", 5000)])
  = ["2"; "4"; "1"; "3"].
Proof. reflexivity. Qed.

(** Each branch of [score]. *)
Example score_branches :
  map (SearchCompanies.score "apple")
    [SearchCompanies.mkCompany "APPLE" "Apple Hospitality" "0001418121";
     SearchCompanies.mkCompany "APPLEX" "Applex Ltd" "0000000001";
     SearchCompanies.mkCompany "XAPPLE" "Xapple Ltd" "0000000002";
     SearchCompanies.mkCompany "AAA" "Apple" "0000000003";
     SearchCompanies.mkCompany "AAPL" "Apple Inc." "0000320193";
     SearchCompanies.mkCompany "BAC" "Big Apple Corp" "0000000004";
     SearchCompanies.mkCompany "PINE" "Pineapple Co" "0000000005";
     SearchCompanies.mkCompany "TSLA" "Tesla, Inc." "0001318605"]
  = [10000; 5000; 1000; 9000; 4000; 3000; 100; 0].
Proof. vm_compute; reflexivity. Qed.

Lemma search_results_ranked_witness :
  SearchCompanies.search_companies (λ _, Ok sample_companies) " Aap "
  = SearchCompanies.Results
      [SearchCompanies.mkCompany "AAP" "Advance Auto Parts Inc" "0001158449";
       SearchCompanies.mkCompany "AAPL" "Apple Inc." "0000320193";
       SearchCompanies.mkCompany "PAAS" "Pan American Silver Corp" "0000771992"]
  ∧ ∃ first,
      head [SearchCompanies.mkCompany "AAP" "Advance Auto Parts Inc" "0001158449";
            SearchCompanies.mkCompany "AAPL" "Apple Inc." "0000320193";
            SearchCompanies.mkCompany "PAAS" "Pan American Silver Corp" "0000771992"]
      = Some first
      ∧ toLowerCase (SearchCompanies.ticker first)
        = SearchCompanies.trim (toLowerCase " Aap ").
Proof.
  assert (SearchCompanies.search_companies (λ _, Ok sample_companies) " Aap "
    = SearchCompanies.Results
      [SearchCompanies.mkCompany "AAP" "Advance Auto Parts Inc" "0001158449";
       SearchCompanies.mkCompany "AAPL" "Apple Inc." "0000320193";
       SearchCompanies.mkCompany "PAAS" "Pan American Silver Corp" "0000771992"])
    as Hresults by (vm_compute; reflexivity).
  split; [exact Hresults|].
  apply (proj2 (proj2 (search_results_ranked _ _ _ Hresults))).
  exists (SearchCompanies.mkCompany "AAP" "Advance Auto Parts Inc" "0001158449").
  split; [apply list_elem_of_here | vm_compute; reflexivity].
Defined.

(** ** Concurrent debits *)

Section ConcurrentProps.
Import Concurrent.

Lemma step_idle (i : nat) (st : state) :
  (length (sessions st) ≤ i)%nat → step i st = st.
Proof. intros Hi. unfold step. by rewrite lookup_ge_None_2. Qed.

Lemma reachable_closed :
  Forall (λ st, step 0 st ∈ reachable ∧ step 1 st ∈ reachable) reachable.
Proof. apply (bool_decide_unpack _). by vm_compute. Qed.

Lemma reachable_two_sessions :
  Forall (λ st, length (sessions st) = 2%nat) reachable.
Proof. apply (bool_decide_unpack _). by vm_compute. Qed.

Lemma reachable_outcome :
  Forall (λ st, (both_finished st = true → one_success st = true)
                ∧ from_option (λ b, bool_decide (0 ≤ b)) false (row st) = true
                ∧ both_finished (run catch_up st) = true)
         reachable.
Proof. apply (bool_decide_unpack _). by vm_compute. Qed.

Lemma step_reachable (i : nat) (st : state) :
  st ∈ reachable → step i st ∈ reachable.
Proof.
  intros Hst.
  pose proof (proj1 (Forall_forall _ _) reachable_closed st Hst) as [H0 H1].
  pose proof (proj1 (Forall_forall _ _) reachable_two_sessions st Hst) as Hlen.
  destruct i as [|[|i]]; [done|done|].
  simpl in Hlen. rewrite step_idle; [done | lia].
Qed.

Lemma run_reachable (schedule : list nat) (st : state) :
  st ∈ reachable → run schedule st ∈ reachable.
Proof.
  revert st. induction schedule as [|i schedule IH]; intros st Hst; [done|].
  simpl. by apply IH, step_reachable.
Qed.

Lemma run_app (s1 s2 : list nat) (st : state) :
  run (s1 ++ s2) st = run s2 (run s1 st).
Proof. unfold run. by rewrite foldl_app. Qed.

(** A session that runs alone does what [deduct_token] does. *)
Lemma solo_session_run (b : Z) :
  run [0; 0; 0; 0]%nat (one_session (Some b))
  = if b <? 1
    then mkState (Some b) None [Finished (Some (Insufficient_tokens b))]
    else mkState (Some (b - 1)) None [Finished None].
Proof. cbv -[Z.ltb Z.sub]. by destruct (b <? 1). Qed.

Lemma solo_session_is_deduct_token (d : db) (u : positive) :
  let st := run [0; 0; 0; 0]%nat (one_session (balance d u)) in
  sessions st = [Finished (rpc (deduct_token u) d).1]
  ∧ row st = balance (rpc (deduct_token u) d).2 u
  ∧ lock st = None.
Proof.
  unfold balance, rpc, deduct_token.
  destruct (profiles d !! u) as [[b]|] eqn:Hp; cbn [fmap option_fmap option_map].
  - rewrite solo_session_run. cbn [tokens_remaining].
    destruct (b <? 1); cbn.
    + by rewrite Hp.
    + by rewrite lookup_insert_eq.
  - cbn [fst snd]. rewrite Hp. by vm_compute.
Qed.

Lemma both_finished_inv (st : state) :
  both_finished st = true → ∃ r0 r1, sessions st = [Finished r0; Finished r1].
Proof.
  unfold both_finished. destruct (sessions st) as [|[] [|[] [|]]]; try done. eauto.
Qed.

Lemma both_finished_intro (st : state) (r0 r1 : option sql_error) :
  sessions st = [Finished r0; Finished r1] → both_finished st = true.
Proof. unfold both_finished. by intros ->. Qed.

Lemma one_success_inv (st : state) (r0 r1 : option sql_error) :
  one_success st = true → sessions st = [Finished r0; Finished r1] →
  row st = Some 0
  ∧ (r0 = None ∧ r1 = Some (Insufficient_tokens 0)
     ∨ r0 = Some (Insufficient_tokens 0) ∧ r1 = None).
Proof.
  unfold one_success. intros [Hrow Hfinal]%andb_prop Hss.
  apply bool_decide_eq_true in Hrow. split; [done|]. rewrite Hss in Hfinal.
  apply orb_prop in Hfinal as [Hfinal|Hfinal];
    apply bool_decide_eq_true in Hfinal; simplify_eq; tauto.
Qed.

Lemma reachable_outcome_at (st : state) :
  st ∈ reachable →
  (both_finished st = true → one_success st = true)
  ∧ (∃ b, row st = Some b ∧ 0 ≤ b)
  ∧ both_finished (run catch_up st) = true.
Proof.
  intros Hst.
  pose proof (proj1 (Forall_forall _ _) reachable_outcome st Hst) as Hout.
  cbv beta in Hout. destruct Hout as (Hone & Hpos & Hfin).
  split; [done|]. split; [|done].
  destruct (row st) as [b|]; [|done]. apply bool_decide_eq_true in Hpos. by exists b.
Qed.

(** C2: two sessions call [deduct_token] for an account whose balance is 1.
    Under every schedule of their steps: once both have finished, one has
    succeeded, the other has got "Insufficient tokens", and the balance is
    0; the balance is never negative on the way; and both do finish when
    the schedule goes on, since a session waits for the row lock only while
    the other one holds it. *)
Theorem no_over_debit (d : db) (u : positive) (schedule : list nat) :
  balance d u = Some 1 →
  let st := run schedule (two_sessions (balance d u)) in
  (∀ r0 r1, sessions st = [Finished r0; Finished r1] →
     row st = Some 0
     ∧ (r0 = None ∧ r1 = Some (Insufficient_tokens 0)
        ∨ r0 = Some (Insufficient_tokens 0) ∧ r1 = None))
  ∧ (∃ b, row st = Some b ∧ 0 ≤ b)
  ∧ (∃ r0 r1,
       sessions (run (schedule ++ catch_up) (two_sessions (balance d u)))
       = [Finished r0; Finished r1]).
Proof.
  intros ->. cbv zeta. rewrite run_app.
  assert (two_sessions (Some 1) ∈ reachable) as Hinit by apply list_elem_of_here.
  destruct (reachable_outcome_at _ (run_reachable schedule _ Hinit))
    as (Hone & Hpos & Hfin).
  split; [|split].
  - intros r0 r1 Hss. apply one_success_inv; [|done].
    by apply Hone, (both_finished_intro _ r0 r1).
  - done.
  - by apply both_finished_inv.
Qed.

Lemma no_over_debit_witness :
  balance (db_funded 1) 1 = Some 1
  ∧ ∃ r0 r1,
      sessions (run ([0; 1; 1; 0]%nat ++ catch_up) (two_sessions (balance (db_funded 1) 1)))
      = [Finished r0; Finished r1].
Proof.
  split; [reflexivity|].
  apply (no_over_debit (db_funded 1) 1 [0; 1; 1; 0]%nat). reflexivity.
Defined.

(** Session 1 is the first to lock the row: it succeeds and session 0,
    which had to wait, is refused. *)
Example second_session_wins :
  run [1; 0; 0; 1; 0; 1; 0; 1; 1; 0; 0; 0]%nat (two_sessions (Some 1))
  = mkState (Some 0) None [Finished (Some (Insufficient_tokens 0)); Finished None].
Proof. vm_compute; reflexivity. Qed.
End ConcurrentProps.

(** ** Frames of the ledger operations *)

(** [deduct_token] touches nothing but the balance of its account; for an
    account that does not exist it raises nothing and changes nothing. *)
Theorem deduct_token_frame (u : positive) (d : db) :
  let r := rpc (deduct_token u) d in
  reports r.2 = reports d
  ∧ token_transactions r.2 = token_transactions d
  ∧ error_logs r.2 = error_logs d
  ∧ (∀ u', u' ≠ u → profiles r.2 !! u' = profiles d !! u')
  ∧ (profiles d !! u = None → r = (None, d)).
Proof.
  unfold rpc, deduct_token. destruct (profiles d !! u) as [p|] eqn:Hp; simpl.
  - destruct (tokens_remaining p <? 1); simpl; repeat split; try done.
    intros u' Hne. by rewrite lookup_insert_ne.
  - done.
Qed.

Lemma deduct_token_frame_witness :
  profiles (db_cached 1) !! 3%positive = None
  ∧ rpc (deduct_token 3) (db_cached 1) = (None, db_cached 1)
  ∧ profiles (rpc (deduct_token 2) (db_cached 1)).2 !! 1%positive
    = profiles (db_cached 1) !! 1%positive.
Proof.
  split; [reflexivity|]. split.
  - apply (deduct_token_frame 3 (db_cached 1)). reflexivity.
  - apply (deduct_token_frame 2 (db_cached 1)). done.
Defined.




(** ** Runs of the worker *)

Lemma create_token_refund_tables (u r : positive) (reason : string) (d : db) :
  reports (create_token_refund u r reason d).2
  = alter (set_refunded true) r (reports d)
  ∧ error_logs (create_token_refund u r reason d).2 = error_logs d.
Proof.
  unfold create_token_refund, rpc.
  destruct (insert_token_transaction _ _) as [d2|e] eqn:Hins; simpl; [|done].
  by apply insert_token_transaction_inv in Hins as [_ ->].
Qed.

Lemma create_error_log_inv' (u : positive) (t ty m s : string) (d d' : db) (id : positive) :
  create_error_log u t ty m s d = Ok (id, d') →
  is_Some (profiles d !! u) ∧ error_logs d !! id = None
  ∧ d' = set_error_logs (<[id := mkErrorLog u t ty m s "open"]>) d.
Proof.
  unfold create_error_log. case_bool_decide as Hu; [|done].
  intros [= <- <-]. split; [done|]. split; [|done].
  apply not_elem_of_dom, is_fresh.
Qed.

Section WorkerRuns.
Context {diff_result : Type}.
Variable get_10k_sections : string → result string (list filing).
Variable compare_sections :
  list (string * string) → list (string * string) → result string diff_result.
Variable analyze_all_sections :
  string → string → Z → Z → diff_result → result string ai_result.
Variable requests_post : callback → result string unit.
Variable now : Z.
Variable create_client : result string unit.

Local Abbreviation run_body := (job_body get_10k_sections compare_sections
                                  analyze_all_sections requests_post now).
Local Abbreviation run_failed := (job_failed requests_post).
Local Abbreviation run_job := (process_job get_10k_sections compare_sections
                                 analyze_all_sections requests_post now create_client).

(** The job entry after the [try:] block: the ticker, no error yet, and
    [completed] at 100 exactly when the block ended without an exception. *)
Lemma job_body_entry (job_id u : positive) (t : string) (w : world) :
  ∃ j, w_jobs (run_body job_id u t w).2 = <[job_id := j]> (w_jobs w)
       ∧ j_ticker j = t ∧ error j = None
       ∧ match (run_body job_id u t w).1 with
         | Ok _ => status j = completed ∧ progress j = 100
         | Err _ => status j = processing ∨ status j = completed
         end.
Proof.
  unfold job_body.
  destruct (get_10k_sections t) as [[|newer [|older rest]]|e];
    cbn -[validate_extraction];
    try (eexists; split; [reflexivity|]; cbn; by auto).
  rewrite !alter_insert_eq.
  destruct (compare_sections _ _) as [diff_results|e];
    cbn -[validate_extraction]; rewrite ?alter_insert_eq;
    try (eexists; split; [reflexivity|]; cbn; by auto).
  destruct (analyze_all_sections _ _ _ _ _) as [ai_results|e];
    cbn -[validate_extraction]; rewrite ?alter_insert_eq;
    try (eexists; split; [reflexivity|]; cbn; by auto).
  destruct (create_report _ _ _ _ _ _ _ _ _ _ _ _ _ _ _ _) as [[report_id d]|e];
    cbn -[validate_extraction]; rewrite ?alter_insert_eq;
    try (eexists; split; [reflexivity|]; cbn; by auto).
  destruct (if negb _ then _ else _) as [[e|] d2];
    cbn -[validate_extraction]; rewrite ?alter_insert_eq;
    try (eexists; split; [reflexivity|]; cbn; by auto).
  destruct (requests_post _);
    cbn -[validate_extraction]; rewrite ?alter_insert_eq;
    eexists; (split; [reflexivity|]); cbn; by auto.
Qed.

(** X2: a worker run whose database client cannot be constructed raises at
    once, before the [try:]: the job entry, the database and the callbacks
    stay as they were, so the job is left in the state it was queued in.
    Every other run ends with the job in a terminal state, its other fields
    as the run set them and every other job untouched; [completed] comes
    with a normal return, progress 100 and no error. *)
Theorem process_job_terminal (job_id u : positive) (t : string) (w : world) :
  let r := run_job job_id u t w in
  match create_client with
  | Err e => r = (Raised e, w)
  | Ok _ =>
      ∃ j, w_jobs r.2 = <[job_id := j]> (w_jobs w)
           ∧ j_ticker j = t
           ∧ (status j = completed ∧ progress j = 100 ∧ error j = None
              ∧ r.1 = Returned
              ∨ status j = failed ∧ is_Some (error j))
  end.
Proof.
  cbv zeta. unfold process_job. destruct create_client as [[]|ce]; [|done].
  destruct (job_body_entry job_id u t w) as (j & Hjobs & Ht & He & Hst).
  destruct (run_body job_id u t w) as [[[]|e] w'] eqn:Hbody; simpl in *.
  - exists j. destruct Hst as [Hs Hp]. split; [done|]. split; [done|]. by left.
  - unfold job_failed. simpl.
    exists (mkJob failed (progress j) (j_ticker j) (Some e)).
    assert (alter (set_error e ∘ set_status failed) job_id (w_jobs w')
            = <[job_id := mkJob failed (progress j) (j_ticker j) (Some e)]> (w_jobs w))
      as Hfinal by (rewrite Hjobs, alter_insert_eq; reflexivity).
    destruct (create_error_log _ _ _ _ _ _) as [[id d]|err]; simpl.
    + destruct (requests_post _); simpl; rewrite Hfinal; eauto 10.
    + rewrite Hfinal. eauto 10.
Qed.

(** What the [try:] block does to the database: nothing, when it raises
    before the report is written; otherwise it stores the report and, when
    the quality check failed, refunds it. *)
Lemma job_body_db (job_id u : positive) (t : string) (w : world) :
  let r := run_body job_id u t w in
  (w_db r.2 = w_db w ∧ w_callbacks r.2 = w_callbacks w ∧ ∃ e, r.1 = Err e)
  ∨ ∃ newer older rest diff_results ai_results,
      get_10k_sections t = Ok (newer :: older :: rest)
      ∧ compare_sections (sections older) (sections newer) = Ok diff_results
      ∧ analyze_all_sections t (f_company_name newer) (filing_date older)
          (filing_date newer) diff_results = Ok ai_results
      ∧ is_Some (profiles (w_db w) !! u)
      ∧ let q := validate_extraction (newer :: older :: rest) diff_results ai_results in
        let id := fresh (dom (reports (w_db w))) in
        let stored :=
          set_reports (<[id := worker_report now u t newer older q ai_results]>) (w_db w) in
        w_db r.2
        = (if is_valid q then stored
           else (create_token_refund u id ("Quality issues: " +:+ join ", " (issues q))
                   stored).2)
        ∧ (r.1 = Ok () ∧ requests_post (Callback_completed job_id id) = Ok ()
             ∧ w_callbacks r.2 = w_callbacks w ++ [Callback_completed job_id id]
           ∨ w_callbacks r.2 = w_callbacks w
             ∧ ((∃ e, r.1 = Err e ∧ requests_post (Callback_completed job_id id) = Err e)
                ∨ ∃ e, r.1 = Err (show_sql_error e) ∧ is_valid q = false
                       ∧ (create_token_refund u id
                            ("Quality issues: " +:+ join ", " (issues q)) stored).1
                         = Some e)).
Proof.
  cbv zeta. unfold job_body.
  destruct (get_10k_sections t) as [[|newer [|older rest]]|e];
    cbn -[validate_extraction]; try (left; by eauto).
  destruct (compare_sections _ _) as [diff_results|e] eqn:Hdiff;
    cbn -[validate_extraction]; try (left; by eauto).
  destruct (analyze_all_sections _ _ _ _ _) as [ai_results|e] eqn:Hai;
    cbn -[validate_extraction]; try (left; by eauto).
  set (q := validate_extraction _ diff_results ai_results).
  destruct (create_report _ _ _ _ _ _ _ _ _ _ _ _ _ _ _ _) as [[report_id d]|e] eqn:Hrep;
    cbn -[validate_extraction]; try (left; by eauto).
  unfold create_report in Hrep.
  fold (worker_report now u t newer older q ai_results) in Hrep.
  pose proof Hrep as Hfresh. unfold insert_report in Hfresh.
  case_bool_decide as Hu; [|done]. injection Hfresh as <- <-.
  right. exists newer, older, rest, diff_results, ai_results.
  split; [done|]. split; [done|]. split; [done|]. split; [done|].
  fold q. destruct (is_valid q) eqn:Hq; cbn -[validate_extraction].
  - split; [destruct (requests_post _); reflexivity|].
    destruct (requests_post _) as [[]|e] eqn:Hpost; cbn; [left | right]; eauto 10.
  - destruct (create_token_refund _ _ _ _) as [[e|] d2] eqn:Href;
      cbn -[validate_extraction].
    + split; [done|]. right. split; [done|]. right. by exists e.
    + split; [destruct (requests_post _); reflexivity|].
      destruct (requests_post _) as [[]|e] eqn:Hpost; cbn; [left | right]; eauto 10.
Qed.


(** What the [except] branch does: it writes the error log when the account
    exists and then tries the failure callback; when the account does not
    exist, [create_error_log] raises and the exception leaves the worker. *)
Lemma job_failed_db (job_id u : positive) (t e : string) (w : world) :
  let r := run_failed job_id u t e w in
  (profiles (w_db w) !! u = None
   ∧ r.1 = Raised (show_sql_error Foreign_key_violation)
   ∧ w_db r.2 = w_db w ∧ w_callbacks r.2 = w_callbacks w)
  ∨ (is_Some (profiles (w_db w) !! u) ∧ r.1 = Returned
     ∧ ∃ id, error_logs (w_db w) !! id = None
         ∧ w_db r.2
           = set_error_logs
               (<[id := mkErrorLog u t "extraction_failed" e "" "open"]>) (w_db w)
         ∧ (requests_post (Callback_failed job_id e id) = Ok ()
              ∧ w_callbacks r.2 = w_callbacks w ++ [Callback_failed job_id e id]
            ∨ (∃ e', requests_post (Callback_failed job_id e id) = Err e')
              ∧ w_callbacks r.2 = w_callbacks w)).
Proof.
  cbv zeta. unfold job_failed. cbn.
  destruct (create_error_log _ _ _ _ _ _) as [[id d]|err] eqn:Hlog; cbn.
  - apply create_error_log_inv' in Hlog as (Hu & Hfresh & ->). right.
    split; [done|]. split; [by destruct (requests_post _)|]. exists id.
    split; [done|].
    destruct (requests_post _) as [[]|e'] eqn:Hpost; cbn; split; eauto.
  - left. unfold create_error_log in Hlog. case_bool_decide as Hu; [done|].
    injection Hlog as <-. split; [|done].
    destruct (profiles (w_db w) !! u) eqn:Hp; [|done]. destruct Hu. by eexists.
Qed.

Lemma is_valid_issues {D : Type} (filings : list filing) (diff_results : D)
    (ai_results : ai_result) :
  is_valid (validate_extraction filings diff_results ai_results) = true
  ↔ issues (validate_extraction filings diff_results ai_results) = [].
Proof.
  unfold validate_extraction. cbn. rewrite Nat.eqb_eq. apply length_zero_iff_nil.
Qed.

(** What a whole run does to the tables other than [error_logs]. *)
Lemma process_job_db (job_id u : positive) (t : string) (w : world) :
  let r := run_job job_id u t w in
  let d := w_db w in
  (reports (w_db r.2) = reports d ∧ profiles (w_db r.2) = profiles d
   ∧ token_transactions (w_db r.2) = token_transactions d)
  ∨ ∃ newer older rest diff_results ai_results p,
      get_10k_sections t = Ok (newer :: older :: rest)
      ∧ compare_sections (sections older) (sections newer) = Ok diff_results
      ∧ analyze_all_sections t (f_company_name newer) (filing_date older)
          (filing_date newer) diff_results = Ok ai_results
      ∧ profiles d !! u = Some p
      ∧ let q := validate_extraction (newer :: older :: rest) diff_results ai_results in
        let id := fresh (dom (reports d)) in
        let row := worker_report now u t newer older q ai_results in
        reports d !! id = None
        ∧ if is_valid q
          then reports (w_db r.2) = <[id := row]> (reports d)
               ∧ profiles (w_db r.2) = profiles d
               ∧ token_transactions (w_db r.2) = token_transactions d
          else reports (w_db r.2) = <[id := set_refunded true row]> (reports d)
               ∧ profiles (w_db r.2)
                 = <[u := mkProfile (tokens_remaining p + 1)]> (profiles d)
               ∧ token_transactions (w_db r.2)
                 = token_transactions d ++ [worker_refund u id q].
Proof.
  cbv zeta. unfold process_job. destruct create_client as [[]|ce]; [|by left].
  destruct (job_body_db job_id u t w) as [(Hdb & _ & e & He)|Hrun].
  - left. destruct (run_body job_id u t w) as [res w']. simpl in *. subst res.
    destruct (job_failed_db job_id u t e w')
      as [(_ & _ & -> & _)|(_ & _ & id & _ & -> & _)]; by rewrite Hdb.
  - destruct Hrun as (newer & older & rest & diff_results & ai_results
                      & Hfetch & Hdiff & Hai & [p Hp] & Hdb & Hcb).
    right. exists newer, older, rest, diff_results, ai_results, p.
    split; [done|]. split; [done|]. split; [done|]. split; [done|].
    split; [apply not_elem_of_dom, is_fresh|].
    set (q := validate_extraction _ diff_results ai_results) in *.
    set (id := fresh (dom (reports (w_db w)))) in *.
    set (row := worker_report now u t newer older q ai_results) in *.
    assert (∃ w', (w_db w' = w_db (run_body job_id u t w).2
                   ∨ ∃ lid l, w_db w'
                        = set_error_logs (<[lid := l]>) (w_db (run_body job_id u t w).2))
                  ∧ match run_body job_id u t w with
                    | (Ok _, w'') => (Returned, w'')
                    | (Err e, w'') => run_failed job_id u t e w''
                    end.2 = w') as (w' & Hw' & ->).
    { destruct (run_body job_id u t w) as [[[]|e] w'']; simpl; [by eauto|].
      destruct (job_failed_db job_id u t e w'')
        as [(_ & _ & Hsame & _)|(_ & _ & lid & _ & Hlog & _)]; eauto 10. }
    assert (reports (w_db w') = reports (w_db (run_body job_id u t w).2)
            ∧ profiles (w_db w') = profiles (w_db (run_body job_id u t w).2)
            ∧ token_transactions (w_db w')
              = token_transactions (w_db (run_body job_id u t w).2))
      as (-> & -> & ->)
      by (destruct Hw' as [->|(lid & l & ->)]; done).
    rewrite Hdb. destruct (is_valid q); [done|].
    destruct (create_token_refund_ok
                (set_reports (<[id := row]>) (w_db w)) u id
                ("Quality issues: " +:+ join ", " (issues q)) p row)
      as (_ & Hprof & Hrow & Htx); [done | by simpl; rewrite lookup_insert_eq |].
    split; [|split].
    + rewrite (proj1 (create_token_refund_tables _ _ _ _)). simpl.
      by rewrite alter_insert_eq.
    + apply map_eq. intros u'. destruct (decide (u' = u)) as [->|Hne].
      * by rewrite Hprof, lookup_insert_eq.
      * rewrite lookup_insert_ne by done.
        unfold create_token_refund, rpc.
        rewrite insert_token_transaction_ok; simpl;
          [by rewrite lookup_alter_ne | by rewrite Hp
          | apply bool_decide_eq_true_2; rewrite lookup_alter_eq, lookup_insert_eq;
            by eexists].
    + exact Htx.
Qed.


(** The run when the collaborators succeed and the account exists, up to the
    completion callback. *)
Lemma job_body_ok_path (job_id u : positive) (t : string) (w : world)
    (newer older : filing) (rest : list filing) (diff_results : diff_result)
    (ai_results : ai_result) (p : profile) :
  get_10k_sections t = Ok (newer :: older :: rest) →
  compare_sections (sections older) (sections newer) = Ok diff_results →
  analyze_all_sections t (f_company_name newer) (filing_date older)
    (filing_date newer) diff_results = Ok ai_results →
  profiles (w_db w) !! u = Some p →
  let q := validate_extraction (newer :: older :: rest) diff_results ai_results in
  let id := fresh (dom (reports (w_db w))) in
  let row := worker_report now u t newer older q ai_results in
  let stored := set_reports (<[id := row]>) (w_db w) in
  let d' := if is_valid q then stored
            else (create_token_refund u id
                    ("Quality issues: " +:+ join ", " (issues q)) stored).2 in
  let jobs' := <[job_id := mkJob completed 100 t None]> (w_jobs w) in
  run_body job_id u t w
  = match requests_post (Callback_completed job_id id) with
    | Ok _ => (Ok (), mkWorld d' jobs' (w_callbacks w ++ [Callback_completed job_id id]))
    | Err e => (Err e, mkWorld d' jobs' (w_callbacks w))
    end.
Proof.
  intros Hfetch Hdiff Hai Hp. cbv zeta. unfold job_body.
  rewrite Hfetch. cbn -[validate_extraction]. rewrite Hdiff.
  cbn -[validate_extraction]. rewrite Hai. cbn -[validate_extraction].
  set (q := validate_extraction _ diff_results ai_results).
  unfold create_report. fold (worker_report now u t newer older q ai_results).
  rewrite insert_report_ok by (cbn; rewrite Hp; by eexists).
  cbn -[validate_extraction]. rewrite !alter_insert_eq. cbn -[validate_extraction].
  destruct (is_valid q) eqn:Hq; cbn -[validate_extraction].
  - destruct (requests_post _); unfold with_job, with_db;
      cbn -[validate_extraction]; rewrite ?alter_insert_eq; reflexivity.
  - destruct (create_token_refund_ok
                (set_reports (<[fresh (dom (reports (w_db w)))
                                := worker_report now u t newer older q ai_results]>)
                   (w_db w)) u (fresh (dom (reports (w_db w))))
                ("Quality issues: " +:+ join ", " (issues q)) p
                (worker_report now u t newer older q ai_results))
      as (Hnone & _); [done | by simpl; rewrite lookup_insert_eq |].
    rewrite Hnone. destruct (requests_post _); unfold with_job, with_db;
      cbn -[validate_extraction]; rewrite ?alter_insert_eq; reflexivity.
Qed.


(** X3: a worker run never changes or removes a stored report and stores at
    most one new one; the new report belongs to the requesting account, costs
    one token, is marked refunded exactly when its extraction failed, and
    counts as a success exactly when it has no issue. *)
Theorem process_job_stores_one_report (job_id u : positive) (t : string) (w : world) :
  let d := w_db w in
  let d' := w_db (run_job job_id u t w).2 in
  (∀ id rep, reports d !! id = Some rep → reports d' !! id = Some rep)
  ∧ (reports d' = reports d
     ∨ ∃ id rep, reports d !! id = None
         ∧ reports d' = <[id := rep]> (reports d)
         ∧ user_id rep = u ∧ ticker rep = t
         ∧ tokens_used rep = 1 ∧ created_at rep = now
         ∧ refunded rep = negb (extraction_success rep)
         ∧ (extraction_success rep = true ↔ extraction_issues rep = [])).
Proof.
  cbv zeta.
  destruct (process_job_db job_id u t w) as [(Hr & _ & _)|Hrun].
  { rewrite Hr. by auto. }
  destruct Hrun as (newer & older & rest & diff_results & ai_results & p
                    & _ & _ & _ & _ & Hfresh & Hdb).
  set (q := validate_extraction _ diff_results ai_results) in *.
  assert (∃ rep, reports (w_db (run_job job_id u t w).2)
                 = <[fresh (dom (reports (w_db w))) := rep]> (reports (w_db w))
                 ∧ user_id rep = u ∧ ticker rep = t
                 ∧ tokens_used rep = 1 ∧ created_at rep = now
                 ∧ refunded rep = negb (extraction_success rep)
                 ∧ (extraction_success rep = true ↔ extraction_issues rep = []))
    as (rep & Hrep & Hfields).
  { destruct (is_valid q) eqn:Hq; destruct Hdb as (Hrep & _);
      eexists; (split; [exact Hrep|]);
      unfold worker_report, set_refunded;
      cbn [user_id ticker tokens_used created_at refunded extraction_success
           extraction_issues];
      rewrite Hq; repeat split; try done.
    - intros _. by apply is_valid_issues.
    - intros Hnil. apply is_valid_issues in Hnil. fold q in Hnil. congruence. }
  split.
  - intros id rep' Hold. rewrite Hrep, lookup_insert_ne; [done|].
    intros <-. congruence.
  - right. by exists (fresh (dom (reports (w_db w)))), rep.
Qed.

(** X4: a worker run never takes a token.  Either it leaves balances and
    transactions as they were, or it has stored a report whose extraction
    failed and refunded it: one refund transaction of +1 for that report and
    one token more for the account. *)
Theorem process_job_ledger_effect (job_id u : positive) (t : string) (w : world) :
  let d := w_db w in
  let d' := w_db (run_job job_id u t w).2 in
  (profiles d' = profiles d ∧ token_transactions d' = token_transactions d)
  ∨ ∃ id rep p reason,
      reports d' !! id = Some rep
      ∧ extraction_success rep = false ∧ refunded rep = true
      ∧ profiles d !! u = Some p
      ∧ profiles d' = <[u := mkProfile (tokens_remaining p + 1)]> (profiles d)
      ∧ token_transactions d'
        = token_transactions d ++ [mkTx u (Some id) refund 1 reason].
Proof.
  cbv zeta.
  destruct (process_job_db job_id u t w) as [(_ & Hp & Ht)|Hrun]; [by left|].
  destruct Hrun as (newer & older & rest & diff_results & ai_results & p
                    & _ & _ & _ & Hp & Hfresh & Hdb).
  set (q := validate_extraction _ diff_results ai_results) in *.
  destruct (is_valid q) eqn:Hq.
  - left. by destruct Hdb as (_ & ? & ?).
  - right. destruct Hdb as (Hrep & Hprof & Htx).
    eexists _, _, p, _. split; [by rewrite Hrep, lookup_insert_eq|].
    unfold worker_report, set_refunded.
    cbn [refunded extraction_success]. by rewrite Hq.
Qed.

(** X5: a run delivers at most one callback, and it is about this job: the
    completion, with the report stored, or the failure, with its error log
    stored. *)
Theorem process_job_one_callback (job_id u : positive) (t : string) (w : world) :
  let r := run_job job_id u t w in
  w_callbacks r.2 = w_callbacks w
  ∨ ∃ cb, w_callbacks r.2 = w_callbacks w ++ [cb]
      ∧ requests_post cb = Ok ()
      ∧ ((∃ rid, cb = Callback_completed job_id rid ∧ r.1 = Returned
                 ∧ is_Some (reports (w_db r.2) !! rid))
         ∨ ∃ e lid, cb = Callback_failed job_id e lid
                    ∧ is_Some (error_logs (w_db r.2) !! lid)).
Proof.
  cbv zeta. unfold process_job. destruct create_client as [[]|ce]; [|by left].
  assert (∀ e w', w_callbacks w' = w_callbacks w →
    let r := run_failed job_id u t e w' in
    w_callbacks r.2 = w_callbacks w
    ∨ ∃ cb, w_callbacks r.2 = w_callbacks w ++ [cb] ∧ requests_post cb = Ok ()
        ∧ ((∃ rid, cb = Callback_completed job_id rid ∧ r.1 = Returned
                   ∧ is_Some (reports (w_db r.2) !! rid))
           ∨ ∃ e lid, cb = Callback_failed job_id e lid
                      ∧ is_Some (error_logs (w_db r.2) !! lid))) as Hfail.
  { intros e w' Hsame.
    destruct (job_failed_db job_id u t e w')
      as [(_ & _ & _ & Hcb)|(_ & _ & lid & _ & Hdb & [[Hpost Hcb]|[_ Hcb]])];
      cbv zeta; rewrite Hcb, Hsame; [by left| |by left].
    right. eexists. split; [done|]. split; [done|]. right. exists e, lid.
    split; [done|]. rewrite Hdb. simpl. rewrite lookup_insert_eq. by eexists. }
  destruct (job_body_db job_id u t w) as [(_ & Hcb & e & He)|Hrun].
  - destruct (run_body job_id u t w) as [res w']. cbn [fst snd] in *. subst res.
    by apply Hfail.
  - destruct Hrun as (newer & older & rest & diff_results & ai_results
                      & _ & _ & _ & _ & Hdb & Hcb).
    destruct (run_body job_id u t w) as [res w']. cbn [fst snd] in *.
    destruct Hcb as [(-> & Hpost & Hcb)|[Hcb [(e & -> & _)|(e & -> & _)]]];
      [|by apply Hfail..].
    right. eexists. split; [done|]. split; [done|]. left. eexists.
    split; [done|]. split; [done|]. cbn [fst snd]. rewrite Hdb.
    destruct (is_valid _).
    + cbn [reports set_reports]. rewrite lookup_insert_eq. by eexists.
    + rewrite (proj1 (create_token_refund_tables _ _ _ _)).
      cbn [reports set_reports].
      rewrite lookup_alter_eq, lookup_insert_eq. by eexists.
Qed.


(** X6: when the client is constructed and the fetcher returns fewer than
    two filings, the run stores no report and moves no token; the job is
    failed at progress 10 with the message "Need 2 filings, found n"; for an
    existing account the error is logged as 'extraction_failed' with status
    'open' and the worker returns, for an unknown account the insert of the
    log raises out of the worker. *)
Theorem process_job_too_few_filings (job_id u : positive) (t : string) (w : world)
    (filings : list filing) :
  create_client = Ok () →
  get_10k_sections t = Ok filings → (length filings < 2)%nat →
  let r := run_job job_id u t w in
  let d := w_db w in
  let msg := "Need 2 filings, found " +:+ pretty (length filings) in
  reports (w_db r.2) = reports d
  ∧ profiles (w_db r.2) = profiles d
  ∧ token_transactions (w_db r.2) = token_transactions d
  ∧ w_jobs r.2 = <[job_id := mkJob failed 10 t (Some msg)]> (w_jobs w)
  ∧ (is_Some (profiles d !! u) →
       r.1 = Returned
       ∧ ∃ lid, error_logs d !! lid = None
           ∧ error_logs (w_db r.2)
             = <[lid := mkErrorLog u t "extraction_failed" msg "" "open"]>
                 (error_logs d))
  ∧ (profiles d !! u = None →
       r.1 = Raised (show_sql_error Foreign_key_violation)
       ∧ error_logs (w_db r.2) = error_logs d
       ∧ w_callbacks r.2 = w_callbacks w).
Proof.
  intros Hclient Hfetch Hlen. cbv zeta. unfold process_job, job_body.
  rewrite Hclient, Hfetch.
  assert (∀ w0, w_db w0 = w_db w →
    w_jobs w0 = <[job_id := mkJob processing 10 t None]> (w_jobs w) →
    w_callbacks w0 = w_callbacks w →
    ∀ msg, let r := run_failed job_id u t msg w0 in
    reports (w_db r.2) = reports (w_db w)
    ∧ profiles (w_db r.2) = profiles (w_db w)
    ∧ token_transactions (w_db r.2) = token_transactions (w_db w)
    ∧ w_jobs r.2 = <[job_id := mkJob failed 10 t (Some msg)]> (w_jobs w)
    ∧ (is_Some (profiles (w_db w) !! u) →
         r.1 = Returned
         ∧ ∃ lid, error_logs (w_db w) !! lid = None
             ∧ error_logs (w_db r.2)
               = <[lid := mkErrorLog u t "extraction_failed" msg "" "open"]>
                   (error_logs (w_db w)))
    ∧ (profiles (w_db w) !! u = None →
         r.1 = Raised (show_sql_error Foreign_key_violation)
         ∧ error_logs (w_db r.2) = error_logs (w_db w)
         ∧ w_callbacks r.2 = w_callbacks w)) as Hfail.
  { intros w0 Hdb Hjobs Hcbs msg.
    assert (w_jobs (run_failed job_id u t msg w0).2
            = <[job_id := mkJob failed 10 t (Some msg)]> (w_jobs w)) as Hj.
    { unfold job_failed. cbn.
      destruct (create_error_log _ _ _ _ _ _) as [[lid d]|err]; cbn;
        [destruct (requests_post (Callback_failed _ _ _)); cbn|];
        rewrite Hjobs, alter_insert_eq; reflexivity. }
    destruct (job_failed_db job_id u t msg w0)
      as [(Hnone & Hout & Hsame & Hcb)|(Hsome & Hout & lid & Hfresh & Hlog & _)];
      cbv zeta; rewrite Hdb in *.
    - rewrite Hsame. split; [done|]. split; [done|]. split; [done|].
      split; [done|]. split.
      + rewrite Hnone. by intros [? ?].
      + intros _. by rewrite Hcb.
    - rewrite Hlog. split; [done|]. split; [done|]. split; [done|].
      split; [done|]. split.
      + intros _. split; [done|]. by exists lid.
      + intros Hnone. rewrite Hnone in Hsome. by destruct Hsome. }
  destruct filings as [|f [|g rest]]; [| |simpl in Hlen; lia]; by apply Hfail.
Qed.

(** X7: when the client is constructed, the collaborators succeed, the
    account exists and the callback goes through, the run returns with the
    job completed at 100, stores the report built from their results under a
    new id, delivers exactly the completion callback and writes no error
    log; the balance is unchanged when the quality check passed and one
    higher when it failed. *)
Theorem process_job_completes (job_id u : positive) (t : string) (w : world)
    (newer older : filing) (rest : list filing) (diff_results : diff_result)
    (ai_results : ai_result) (p : profile) :
  create_client = Ok () →
  get_10k_sections t = Ok (newer :: older :: rest) →
  compare_sections (sections older) (sections newer) = Ok diff_results →
  analyze_all_sections t (f_company_name newer) (filing_date older)
    (filing_date newer) diff_results = Ok ai_results →
  profiles (w_db w) !! u = Some p →
  let q := validate_extraction (newer :: older :: rest) diff_results ai_results in
  let id := fresh (dom (reports (w_db w))) in
  let row := worker_report now u t newer older q ai_results in
  requests_post (Callback_completed job_id id) = Ok () →
  let r := run_job job_id u t w in
  r.1 = Returned
  ∧ w_jobs r.2 = <[job_id := mkJob completed 100 t None]> (w_jobs w)
  ∧ w_callbacks r.2 = w_callbacks w ++ [Callback_completed job_id id]
  ∧ error_logs (w_db r.2) = error_logs (w_db w)
  ∧ reports (w_db r.2)
    = <[id := if is_valid q then row else set_refunded true row]> (reports (w_db w))
  ∧ balance (w_db r.2) u
    = Some (tokens_remaining p + if is_valid q then 0 else 1).
Proof.
  intros Hclient Hfetch Hdiff Hai Hp q id row Hpost. cbv zeta. unfold process_job.
  rewrite Hclient.
  rewrite (job_body_ok_path job_id u t w _ _ _ _ _ _ Hfetch Hdiff Hai Hp).
  fold q id row. rewrite Hpost. cbn [fst snd w_db w_jobs w_callbacks].
  split; [done|]. split; [done|]. split; [done|].
  destruct (is_valid q).
  - split; [done|]. split; [done|]. unfold balance.
    cbn [profiles set_reports]. rewrite Hp. cbn. f_equal. lia.
  - destruct (create_token_refund_ok (set_reports (<[id := row]>) (w_db w)) u id
                ("Quality issues: " +:+ join ", " (issues q)) p row)
      as (_ & Hprof & _ & _); [done | by simpl; rewrite lookup_insert_eq |].
    destruct (create_token_refund_tables u id
                ("Quality issues: " +:+ join ", " (issues q))
                (set_reports (<[id := row]>) (w_db w))) as [Hreports Hlogs].
    rewrite Hreports, Hlogs. cbn [reports error_logs set_reports].
    rewrite alter_insert_eq. unfold balance. rewrite Hprof. done.
Qed.

(** X8: when the client was constructed and everything succeeded but the
    completion callback cannot be delivered, the report (and its refund, if
    any) stays stored, yet the job ends failed with the callback's error and
    an 'extraction_failed' error log is written for it. *)
Theorem process_job_callback_failure (job_id u : positive) (t : string) (w : world)
    (newer older : filing) (rest : list filing) (diff_results : diff_result)
    (ai_results : ai_result) (p : profile) (e : string) :
  create_client = Ok () →
  get_10k_sections t = Ok (newer :: older :: rest) →
  compare_sections (sections older) (sections newer) = Ok diff_results →
  analyze_all_sections t (f_company_name newer) (filing_date older)
    (filing_date newer) diff_results = Ok ai_results →
  profiles (w_db w) !! u = Some p →
  let q := validate_extraction (newer :: older :: rest) diff_results ai_results in
  let id := fresh (dom (reports (w_db w))) in
  let row := worker_report now u t newer older q ai_results in
  requests_post (Callback_completed job_id id) = Err e →
  let r := run_job job_id u t w in
  r.1 = Returned
  ∧ w_jobs r.2 = <[job_id := mkJob failed 100 t (Some e)]> (w_jobs w)
  ∧ reports (w_db r.2)
    = <[id := if is_valid q then row else set_refunded true row]> (reports (w_db w))
  ∧ ∃ lid, error_logs (w_db w) !! lid = None
      ∧ error_logs (w_db r.2)
        = <[lid := mkErrorLog u t "extraction_failed" e "" "open"]>
            (error_logs (w_db w)).
Proof.
  intros Hclient Hfetch Hdiff Hai Hp q id row Hpost. cbv zeta. unfold process_job.
  rewrite Hclient.
  rewrite (job_body_ok_path job_id u t w _ _ _ _ _ _ Hfetch Hdiff Hai Hp).
  fold q id row. rewrite Hpost.
  set (d' := if is_valid q then _ else _).
  assert (reports d'
          = <[id := if is_valid q then row else set_refunded true row]>
              (reports (w_db w))
          ∧ error_logs d' = error_logs (w_db w)
          ∧ is_Some (profiles d' !! u)) as (Hreports & Hlogs & Hprof).
  { subst d'. destruct (is_valid q).
    - cbn. rewrite Hp. by eauto.
    - destruct (create_token_refund_ok (set_reports (<[id := row]>) (w_db w)) u id
                  ("Quality issues: " +:+ join ", " (issues q)) p row)
        as (_ & Hprof & _ & _); [done | by simpl; rewrite lookup_insert_eq |].
      destruct (create_token_refund_tables u id
                  ("Quality issues: " +:+ join ", " (issues q))
                  (set_reports (<[id := row]>) (w_db w))) as [-> ->].
      cbn [reports error_logs set_reports]. rewrite alter_insert_eq, Hprof.
      by eauto. }
  set (w' := mkWorld d' _ _).
  assert (w_jobs (run_failed job_id u t e w').2
          = <[job_id := mkJob failed 100 t (Some e)]> (w_jobs w)) as Hj.
  { unfold job_failed. cbn.
    destruct (create_error_log _ _ _ _ _ _) as [[lid d]|err]; cbn;
      [destruct (requests_post (Callback_failed _ _ _)); cbn|];
      rewrite alter_insert_eq; reflexivity. }
  destruct (job_failed_db job_id u t e w')
    as [(Hnone & _)|(_ & Hout & lid & Hfresh & Hlog & _)].
  { cbn in Hnone. rewrite Hnone in Hprof. by destruct Hprof. }
  cbn [fst snd]. split; [done|]. split; [done|]. rewrite Hlog.
  cbn [reports error_logs set_error_logs w_db w']. split; [done|].
  exists lid. rewrite <- Hlogs. done.
Qed.

End WorkerRuns.

Lemma process_job_too_few_filings_witness :
  let fetch : string → result string (list filing) :=
    λ _, Ok [filing_short_item7] in
  fetch "TST" = Ok [filing_short_item7]
  ∧ (length [filing_short_item7] < 2)%nat
  ∧ reports (w_db (process_job fetch (λ _ _, Ok ()) (λ _ _ _ _ _, Ok tst_summaries)
                     (λ _, Ok ()) 1700000060 (Ok ()) 7 1 "TST"
                     (mkWorld (db_funded 3) ∅ [])).2)
    = reports (db_funded 3).
Proof.
  split; [reflexivity|]. split; [simpl; lia|].
  apply (process_job_too_few_filings (λ _, Ok [filing_short_item7]) (λ _ _, Ok ())
           (λ _ _ _ _ _, Ok tst_summaries) (λ _, Ok ()) 1700000060 (Ok ()) 7 1 "TST"
           (mkWorld (db_funded 3) ∅ []) [filing_short_item7]);
    [reflexivity | reflexivity | simpl; lia].
Defined.

Lemma process_job_completes_witness :
  profiles (db_funded 3) !! 1%positive = Some (mkProfile 3)
  ∧ (tst_job (filing_without_item7 20000 "0000000000-25-000001") (db_funded 3)).1
    = Returned.
Proof.
  split; [reflexivity|].
  apply (process_job_completes
           (λ _, Ok [filing_without_item7 20000 "0000000000-25-000001";
                     complete_filing 19635 "0000000000-24-000001"])
           (λ _ _, Ok ()) (λ _ _ _ _ _, Ok tst_summaries) (λ _, Ok ())
           1700000060 (Ok ()) 7 1 "TST"
           (mkWorld (db_funded 3) {[ 7%positive := mkJob queued 0 "TST" None ]} [])
           (filing_without_item7 20000 "0000000000-25-000001")
           (complete_filing 19635 "0000000000-24-000001") [] () tst_summaries
           (mkProfile 3)); reflexivity.
Defined.

Lemma process_job_callback_failure_witness :
  let post : callback → result string unit := λ _, Err "connection refused" in
  profiles (db_funded 3) !! 1%positive = Some (mkProfile 3)
  ∧ post (Callback_completed 7 1) = Err "connection refused"
  ∧ (process_job
       (λ _, Ok [complete_filing 20000 "0000000000-25-000001";
                 complete_filing 19635 "0000000000-24-000001"])
       (λ _ _, Ok ()) (λ _ _ _ _ _, Ok tst_summaries) post
       1700000060 (Ok ()) 7 1 "TST"
       (mkWorld (db_funded 3) {[ 7%positive := mkJob queued 0 "TST" None ]} [])).1
    = Returned.
Proof.
  split; [reflexivity|]. split; [reflexivity|].
  apply (process_job_callback_failure
           (λ _, Ok [complete_filing 20000 "0000000000-25-000001";
                     complete_filing 19635 "0000000000-24-000001"])
           (λ _ _, Ok ()) (λ _ _ _ _ _, Ok tst_summaries)
           (λ _, Err "connection refused")
           1700000060 (Ok ()) 7 1 "TST"
           (mkWorld (db_funded 3) {[ 7%positive := mkJob queued 0 "TST" None ]} [])
           (complete_filing 20000 "0000000000-25-000001")
           (complete_filing 19635 "0000000000-24-000001") [] () tst_summaries
           (mkProfile 3) "connection refused"); reflexivity.
Defined.


(** ** More on the quality validator *)

Lemma check_numbers_section_spec (n c : string) :
  check_numbers_section (n, c)
  = if mostly_numbers c then [mostly_numbers_message n] else [].
Proof.
  unfold check_numbers_section, mostly_numbers. cbn [fst snd].
  destruct (0 <? length (split c))%nat; [|done]. cbn [andb].
  by destruct (_ <? _)%nat.
Qed.

Lemma flat_map_nil {A B : Type} (f : A → list B) (l : list A) :
  flat_map f l = [] ↔ ∀ x, x ∈ l → f x = [].
Proof.
  induction l as [|y l IH]; simpl.
  - split; [by intros _ x ?%elem_of_nil | done].
  - rewrite app_nil, IH. split.
    + intros [Hy Hl] x [->|Hx]%elem_of_cons; by auto.
    + intros Hall. split; [apply Hall; by left|].
      intros x Hx. apply Hall. by right.
Qed.

Lemma check_missing_nil (f : filing) :
  check_missing f = [] ↔ ∀ s, s ∈ required_sections → has_section f s = true.
Proof.
  unfold check_missing.
  destruct (filter _ required_sections) as [|s0 l] eqn:Hfilter.
  - split; [|done]. intros _ s Hs.
    destruct (has_section f s) eqn:Hhas; [done|].
    assert (s ∈ filter (λ s, has_section f s = false) required_sections) as Hin
      by by apply list_elem_of_filter.
    rewrite Hfilter in Hin. by apply elem_of_nil in Hin.
  - split; [done|]. intros Hall.
    assert (s0 ∈ filter (λ s, has_section f s = false) required_sections) as Hin
      by (rewrite Hfilter; apply list_elem_of_here).
    apply list_elem_of_filter in Hin as [Hno Hreq]. rewrite (Hall _ Hreq) in Hno.
    done.
Qed.

Lemma check_length_section_nil (n c : string) :
  check_length_section (n, c) = []
  ↔ ∀ m, min_word_counts n = Some m → m ≤ Z.of_nat (length (split c)).
Proof.
  unfold check_length_section. cbn [fst snd].
  destruct (min_word_counts n) as [m|]; [|done].
  destruct (Z.ltb_spec (Z.of_nat (length (split c))) m).
  - split; [done|]. intros Hm. specialize (Hm m eq_refl). lia.
  - split; [|done]. by intros _ m' [= <-].
Qed.

(** X9: the quality check passes exactly when every filing holds the four
    required sections, every section with a minimum has at least that many
    words, no section is mostly numbers, and there is at least one summary. *)
Theorem validate_extraction_valid_iff {D : Type} (filings : list filing)
    (diff_results : D) (ai_results : ai_result) :
  is_valid (validate_extraction filings diff_results ai_results) = true
  ↔ (∀ f s, f ∈ filings → s ∈ required_sections → has_section f s = true)
    ∧ (∀ f n c m, f ∈ filings → (n, c) ∈ sections f → min_word_counts n = Some m →
         m ≤ Z.of_nat (length (split c)))
    ∧ (∀ f n c, f ∈ filings → (n, c) ∈ sections f → mostly_numbers c = false)
    ∧ summaries ai_results ≠ [].
Proof.
  unfold validate_extraction. cbn [is_valid]. rewrite Nat.eqb_eq, length_zero_iff_nil.
  rewrite !app_nil, !flat_map_nil.
  setoid_rewrite flat_map_nil. setoid_rewrite check_missing_nil.
  split.
  - intros (Hmiss & Hlen & Hnum & Hsum). split; [by eauto|]. split; [|split].
    + intros f n c m Hf Hc. by apply check_length_section_nil, (Hlen f Hf).
    + intros f n c Hf Hc. specialize (Hnum f Hf (n, c) Hc).
      rewrite check_numbers_section_spec in Hnum. by destruct (mostly_numbers c).
    + unfold check_summaries in Hsum. by destruct (summaries ai_results).
  - intros (Hmiss & Hlen & Hnum & Hsum). split; [by eauto|]. split; [|split].
    + intros f Hf [n c] Hc. apply check_length_section_nil. by eauto.
    + intros f Hf [n c] Hc. rewrite check_numbers_section_spec.
      by rewrite (Hnum f n c Hf Hc).
    + unfold check_summaries. by destruct (summaries ai_results).
Qed.

Lemma string_app_nil_r (a : string) : a +:+ "" = a.
Proof. induction a as [|c a IH]; [done|]. by rewrite string_app_cons, IH. Qed.

Lemma occurs_in_join (sep s : string) (l : list string) :
  s ∈ l → occurs_in s (join sep l).
Proof.
  induction l as [|x l IH]; [by intros ?%elem_of_nil|].
  intros [->|Hin]%elem_of_cons.
  - destruct l as [|y l]; simpl.
    + exists "", "". by rewrite string_app_nil_r.
    + by exists "", (sep +:+ join sep (y :: l)).
  - destruct (IH Hin) as (a & b & Heq). destruct l as [|y l]; [by apply elem_of_nil in Hin|].
    change (join sep (x :: y :: l)) with (x +:+ sep +:+ join sep (y :: l)).
    rewrite Heq. exists (x +:+ sep +:+ a), b. by rewrite !string_app_assoc.
Qed.

(** X10: a filing that lacks a required section puts one issue into the list,
    "Missing sections: " followed by the names of all the required sections
    it lacks, in the order Item 1, Item 1A, Item 7, Item 8, separated by
    ", "; the lacking section is named in it, and the check fails. *)
Theorem missing_sections_reported {D : Type} (filings : list filing)
    (diff_results : D) (ai_results : ai_result) (f : filing) (s : string) :
  f ∈ filings → s ∈ required_sections → has_section f s = false →
  let missing := filter (λ s, has_section f s = false) required_sections in
  let q := validate_extraction filings diff_results ai_results in
  "Missing sections: " +:+ join ", " missing ∈ issues q
  ∧ occurs_in s ("Missing sections: " +:+ join ", " missing)
  ∧ is_valid q = false.
Proof.
  intros Hf Hs Hno missing q.
  assert (s ∈ missing) as Hin by by apply list_elem_of_filter.
  assert ("Missing sections: " +:+ join ", " missing ∈ issues q) as Hissue.
  { subst q. unfold validate_extraction. cbn [issues].
    apply elem_of_app. left. apply elem_of_flat_map. exists f. split; [done|].
    unfold check_missing. fold missing.
    destruct missing; [by apply elem_of_nil in Hin | apply list_elem_of_here]. }
  split; [done|]. split.
  - destruct (occurs_in_join ", " s missing Hin) as (a & b & ->).
    by exists ("Missing sections: " +:+ a), b.
  - destruct (is_valid q) eqn:Hq; [|done].
    apply is_valid_issues in Hq. fold q in Hq. rewrite Hq in Hissue.
    by apply elem_of_nil in Hissue.
Qed.

Lemma missing_sections_reported_witness :
  "Missing sections: " +:+ join ", " ["Item 7"]
    ∈ issues (validate_extraction [filing_without_item7 20000 "a"] tt tst_summaries)
  ∧ occurs_in "Item 7" ("Missing sections: " +:+ join ", " ["Item 7"])
  ∧ is_valid (validate_extraction [filing_without_item7 20000 "a"] tt tst_summaries) = false.
Proof.
  apply (missing_sections_reported [filing_without_item7 20000 "a"] tt tst_summaries
           (filing_without_item7 20000 "a") "Item 7").
  - apply list_elem_of_here.
  - apply list_elem_of_further, list_elem_of_further, list_elem_of_here.
  - reflexivity.
Defined.

Lemma string_length_app (a b : string) :
  String.length (a +:+ b) = (String.length a + String.length b)%nat.
Proof. induction a as [|c a IH]; [done|]. rewrite string_app_cons. simpl. by rewrite IH. Qed.

Lemma string_app_inj_r (a b c : string) : a +:+ c = b +:+ c → a = b.
Proof.
  revert b. induction a as [|x a IH]; intros [|y b] Heq.
  - done.
  - apply (f_equal String.length) in Heq. rewrite !string_length_app in Heq.
    simpl in Heq. lia.
  - apply (f_equal String.length) in Heq. rewrite !string_length_app in Heq.
    simpl in Heq. lia.
  - rewrite !string_app_cons in Heq. injection Heq as -> Heq. by rewrite (IH b).
Qed.

Lemma last_two_app_long (a b : string) :
  (2 ≤ String.length b)%nat → last_two (a +:+ b) = last_two b.
Proof.
  intros Hb. induction a as [|x a IH]; [done|].
  rewrite string_app_cons.
  assert (∃ y z r, a +:+ b = String y (String z r)) as (y & z & r & Heq).
  { destruct (a +:+ b) as [|y [|z r]] eqn:Hab; [| |by eauto];
      apply (f_equal String.length) in Hab; rewrite string_length_app in Hab;
      simpl in Hab; lia. }
  rewrite Heq in *. exact IH.
Qed.

Lemma join_ends (sep : string) (l : list string) :
  l ≠ [] → ∃ a x, x ∈ l ∧ join sep l = a +:+ x.
Proof.
  induction l as [|x l IH]; [done|]. intros _.
  destruct l as [|y l].
  - exists "", x. split; [apply list_elem_of_here | done].
  - destruct IH as (a & z & Hz & Heq); [done|].
    exists (x +:+ sep +:+ a), z. split; [by apply list_elem_of_further|].
    change (join sep (x :: y :: l)) with (x +:+ sep +:+ join sep (y :: l)).
    by rewrite Heq, !string_app_assoc.
Qed.

Lemma missing_message_last_two (f : filing) (msg : string) :
  msg ∈ check_missing f →
  last_two msg = " 1" ∨ last_two msg = "1A" ∨ last_two msg = " 7" ∨ last_two msg = " 8".
Proof.
  unfold check_missing.
  destruct (filter _ required_sections) as [|s0 l] eqn:Hfilter;
    [by intros ?%elem_of_nil|].
  intros ->%list_elem_of_singleton.
  destruct (join_ends ", " (s0 :: l)) as (a & x & Hx & ->); [done|].
  rewrite <- Hfilter in Hx. apply list_elem_of_filter in Hx as [_ Hx].
  rewrite <- string_app_assoc.
  unfold required_sections in Hx.
  repeat (apply elem_of_cons in Hx as [->|Hx]);
    [rewrite last_two_app_long by (simpl; lia); auto..|by apply elem_of_nil in Hx].
Qed.

(** X11: "mostly tables/numbers" is reported for a section name exactly when
    some filing has a section of that name with at least one word and more
    than 80% of its words holding a digit; a section of which exactly 80% of
    the words hold a digit is not reported. *)
Theorem mostly_numbers_reported {D : Type} (filings : list filing)
    (diff_results : D) (ai_results : ai_result) (n : string) :
  mostly_numbers_message n ∈ issues (validate_extraction filings diff_results ai_results)
  ↔ ∃ f c, f ∈ filings ∧ (n, c) ∈ sections f ∧ mostly_numbers c = true.
Proof.
  unfold validate_extraction. cbn [issues]. split.
  - intros [Hin|[Hin|[Hin|Hin]%elem_of_app]%elem_of_app]%elem_of_app.
    + apply elem_of_flat_map in Hin as (f & _ & Hin).
      apply missing_message_last_two in Hin.
      rewrite mostly_numbers_message_last_two in Hin.
      by destruct Hin as [H|[H|[H|H]]].
    + apply elem_of_flat_map in Hin as (f & _ & Hin).
      apply elem_of_flat_map in Hin as ([n' c] & _ & Hin).
      apply check_length_section_elem in Hin as (m & _ & _ & Heq).
      apply (f_equal last_two) in Heq.
      by rewrite too_short_message_last_two, mostly_numbers_message_last_two in Heq.
    + apply elem_of_flat_map in Hin as (f & Hf & Hin).
      apply elem_of_flat_map in Hin as ([n' c] & Hc & Hin).
      rewrite check_numbers_section_spec in Hin.
      destruct (mostly_numbers c) eqn:Hnum; [|by apply elem_of_nil in Hin].
      apply list_elem_of_singleton in Hin. unfold mostly_numbers_message in Hin.
      apply string_app_inj_r in Hin as ->. by exists f, c.
    + unfold check_summaries in Hin.
      destruct (summaries ai_results); [|by apply elem_of_nil in Hin].
      apply list_elem_of_singleton in Hin. apply (f_equal last_two) in Hin.
      by rewrite mostly_numbers_message_last_two in Hin.
  - intros (f & c & Hf & Hc & Hnum).
    apply elem_of_app. right. apply elem_of_app. right. apply elem_of_app. left.
    apply elem_of_flat_map. exists f. split; [done|].
    apply elem_of_flat_map. exists (n, c). split; [done|].
    rewrite check_numbers_section_spec, Hnum. apply list_elem_of_here.
Qed.

(** Exactly 80% is not "more than 80%"; one word more is. *)
Example mostly_numbers_threshold :
  mostly_numbers "1 2 3 4 five" = false ∧ mostly_numbers "1 2 3 4 5 six" = true
  ∧ mostly_numbers "" = false.
Proof. done. Qed.

Lemma min_word_counts_positive (n : string) (m : Z) :
  min_word_counts n = Some m → 1000 ≤ m.
Proof. unfold min_word_counts. repeat case_match; intros [= <-]; lia. Qed.

(** X12: a section that has a minimum but whose text holds no word at all
    (empty or blank) is reported as too short with 0 words, and check 3
    leaves it alone: it never divides by the zero word count. *)
Theorem blank_section_reported {D : Type} (filings : list filing)
    (diff_results : D) (ai_results : ai_result) (f : filing) (n c : string) (m : Z) :
  f ∈ filings → (n, c) ∈ sections f → split c = [] → min_word_counts n = Some m →
  too_short_message n 0 m ∈ issues (validate_extraction filings diff_results ai_results)
  ∧ check_numbers_section (n, c) = [].
Proof.
  intros Hf Hc Hblank Hmin. split.
  - unfold validate_extraction. cbn [issues].
    apply elem_of_app. right. apply elem_of_app. left.
    apply elem_of_flat_map. exists f. split; [done|].
    apply elem_of_flat_map. exists (n, c). split; [done|].
    apply check_length_section_elem. exists m. rewrite Hblank. simpl.
    apply min_word_counts_positive in Hmin as Hpos. split; [done|]. split; [lia|done].
  - rewrite check_numbers_section_spec. unfold mostly_numbers. by rewrite Hblank.
Qed.

Lemma blank_section_reported_witness :
  too_short_message "Item 7" 0 5000
    ∈ issues (validate_extraction [filing_blank_item7] tt tst_summaries)
  ∧ check_numbers_section ("Item 7", "   ") = [].
Proof.
  apply (blank_section_reported [filing_blank_item7] tt tst_summaries
           filing_blank_item7 "Item 7" "   " 5000).
  - apply list_elem_of_here.
  - apply list_elem_of_further, list_elem_of_here.
  - reflexivity.
  - reflexivity.
Defined.

(** ** Counting words *)

Lemma rev_app_rev_app (a b c : string) :
  String.rev_app (String.rev_app a b) c = String.rev_app b (a +:+ c).
Proof.
  revert b c. induction a as [|x a IH]; intros b c; [done|].
  cbn [String.rev_app]. by rewrite IH.
Qed.

Lemma rev_rev (w : string) : String.rev (String.rev w) = w.
Proof. unfold String.rev. rewrite rev_app_rev_app. cbn. apply string_app_nil_r. Qed.

Lemma rev_app_nonempty (a b : string) : b ≠ "" → String.rev_app a b ≠ "".
Proof. revert b. induction a as [|x a IH]; intros b Hb; [done|]. by apply IH. Qed.

Lemma rev_nonempty (w : string) : w ≠ "" → String.rev w ≠ "".
Proof.
  destruct w as [|x w]; [done|]. intros _. unfold String.rev.
  cbn [String.rev_app]. by apply rev_app_nonempty.
Qed.

Lemma any_char_rev_app (p : ascii → bool) (a b : string) :
  any_char p (String.rev_app a b) = any_char p a || any_char p b.
Proof.
  revert b. induction a as [|x a IH]; intros b; [done|].
  cbn [String.rev_app any_char]. rewrite IH. cbn [any_char].
  destruct (p x), (any_char p a), (any_char p b); done.
Qed.

Lemma split_go_word (cur w s : string) :
  any_char isspace w = false →
  split_go cur (w +:+ s) = split_go (String.rev_app w cur) s.
Proof.
  revert cur. induction w as [|x w IH]; intros cur Hw; [done|].
  cbn [any_char] in Hw. apply orb_false_iff in Hw as [Hx Hw].
  rewrite string_app_cons. cbn [split_go String.rev_app]. rewrite Hx. by apply IH.
Qed.

Lemma split_go_words (cur s w : string) :
  any_char isspace cur = false → w ∈ split_go cur s → is_word w.
Proof.
  revert cur. induction s as [|c s IH]; intros cur Hcur Hin.
  - cbn [split_go] in Hin. destruct cur as [|x cur]; [by apply elem_of_nil in Hin|].
    apply list_elem_of_singleton in Hin as ->. split; [by apply rev_nonempty|].
    unfold String.rev. by rewrite any_char_rev_app, Hcur.
  - cbn [split_go] in Hin. destruct (isspace c) eqn:Hc.
    + destruct cur as [|x cur]; [by apply (IH "")|].
      apply elem_of_cons in Hin as [->|Hin]; [|by apply (IH "")].
      split; [by apply rev_nonempty|].
      unfold String.rev. by rewrite any_char_rev_app, Hcur.
    + apply (IH (String c cur)); [|done]. cbn [any_char]. by rewrite Hc, Hcur.
Qed.

(** [content.split()] yields words only, and a text made of words
    joined by single blanks splits back into these words: the word count of
    checks 2 and 3 is the number of words joined. *)
Theorem split_join_words (ws : list string) :
  (∀ w, w ∈ ws → is_word w) →
  split (join " " ws) = ws ∧ Z.of_nat (length (split (join " " ws))) = Z.of_nat (length ws).
Proof.
  intros Hws. assert (split (join " " ws) = ws) as Heq; [|by rewrite Heq].
  unfold split. induction ws as [|w ws IH]; [done|].
  destruct (Hws w) as [Hne Hw]; [apply list_elem_of_here|].
  assert (String.rev (String.rev_app w "") = w) as Hrev by apply rev_rev.
  assert (String.rev_app w "" ≠ "") as Hne' by by apply rev_nonempty.
  destruct ws as [|y ws].
  - cbn [join]. rewrite <- (string_app_nil_r w) at 1.
    rewrite split_go_word by done. cbn [split_go].
    destruct (String.rev_app w ""); [done|]. by rewrite Hrev.
  - change (join " " (w :: y :: ws)) with (w +:+ " " +:+ join " " (y :: ws)).
    rewrite split_go_word by done.
    change (" " +:+ join " " (y :: ws)) with (String " " (join " " (y :: ws))).
    cbn [split_go]. change (isspace " ") with true. cbv iota.
    destruct (String.rev_app w ""); [done|]. rewrite Hrev. f_equal.
    apply IH. intros w' Hw'. by apply Hws, list_elem_of_further.
Qed.

Lemma split_join_words_witness :
  split (join " " ["Risk"; "factors"; "2024"]) = ["Risk"; "factors"; "2024"]
  ∧ Z.of_nat (length (split (join " " ["Risk"; "factors"; "2024"]))) = Z.of_nat 3.
Proof.
  apply (split_join_words ["Risk"; "factors"; "2024"]).
  intros w Hw. repeat (apply elem_of_cons in Hw as [->|Hw]); [by split..|].
  by apply elem_of_nil in Hw.
Defined.

(** Whatever the text, [content.split()] yields only words: none is
    empty and none holds a blank. *)
Theorem split_yields_words (content : string) : Forall is_word (split content).
Proof. apply Forall_forall. intros w Hw. by apply (split_go_words "" content). Qed.


(** ** generate-report: the cache lookup and the answers *)

Lemma foldr_newer_of_None (l : list (positive * report)) :
  foldr newer_of None l = None ↔ l = [].
Proof.
  destruct l as [|x l]; [done|]. simpl. unfold newer_of at 1.
  destruct (foldr newer_of None l) as [b|]; [|done].
  by destruct (created_at b.2 <? created_at x.2).
Qed.

Lemma foldr_newer_of_max (l : list (positive * report)) (x y : positive * report) :
  foldr newer_of None l = Some x → y ∈ l → created_at y.2 ≤ created_at x.2.
Proof.
  revert x. induction l as [|z l IH]; intros x; [by intros _ ?%elem_of_nil|].
  simpl. unfold newer_of at 1.
  destruct (foldr newer_of None l) as [b|] eqn:Hb.
  - destruct (Z.ltb_spec (created_at b.2) (created_at z.2)).
    + intros [= <-] [->|Hy]%elem_of_cons; [lia|]. specialize (IH b eq_refl Hy). lia.
    + intros [= <-] [->|Hy]%elem_of_cons; [lia|]. by apply IH.
  - apply foldr_newer_of_None in Hb as ->.
    intros [= <-] [->|Hy]%elem_of_cons; [lia|]. by apply elem_of_nil in Hy.
Qed.

Lemma existing_reports_match (d : db) (t : string) (a : Z) (id : positive) (r : report) :
  reports d !! id = Some r → ticker r = t → a ≤ created_at r →
  (id, r) ∈ filter (λ x : positive * report,
                      String.eqb (ticker x.2) t = true ∧ a ≤ created_at x.2)
                   (map_to_list (reports d)).
Proof.
  intros Hr Ht Ha. apply list_elem_of_filter. split.
  - split; [by apply String.eqb_eq | done].
  - by apply elem_of_map_to_list.
Qed.

Lemma existing_reports_None (d : db) (t : string) (a : Z) (id : positive) (r : report) :
  existing_reports d t a = None →
  reports d !! id = Some r → ticker r = t → created_at r < a.
Proof.
  intros Hex%foldr_newer_of_None Hr Ht.
  destruct (Z.lt_ge_cases (created_at r) a) as [|Ha]; [done|].
  pose proof (existing_reports_match d t a id r Hr Ht Ha) as Hin.
  rewrite Hex in Hin. by apply elem_of_nil in Hin.
Qed.

(** X13: the cache lookup finds nothing exactly when no stored report has
    the ticker and is at most thirty days old; what it finds is a stored
    report with the ticker, young enough, and no other such report is newer. *)
Theorem existing_reports_newest (d : db) (t : string) (a : Z) :
  match existing_reports d t a with
  | None => ∀ id r, reports d !! id = Some r → ticker r = t → created_at r < a
  | Some (cid, cached) =>
      reports d !! cid = Some cached ∧ ticker cached = t ∧ a ≤ created_at cached
      ∧ ∀ id r, reports d !! id = Some r → ticker r = t → a ≤ created_at r →
                created_at r ≤ created_at cached
  end.
Proof.
  destruct (existing_reports d t a) as [[cid cached]|] eqn:Hex.
  - pose proof Hex as (Hfull & Ht & Ha)%existing_reports_Some.
    split; [done|]. split; [done|]. split; [done|].
    intros id r Hr Ht' Ha'.
    apply (foldr_newer_of_max _ (cid, cached) (id, r) Hex).
    by apply existing_reports_match.
  - intros id r. by apply existing_reports_None.
Qed.

Lemma ascii_upper_idemp (c : ascii) : ascii_upper (ascii_upper c) = ascii_upper c.
Proof. by destruct c as [[] [] [] [] [] [] [] []]. Qed.

Lemma toUpperCase_idemp (s : string) : toUpperCase (toUpperCase s) = toUpperCase s.
Proof.
  unfold toUpperCase. induction s as [|c s IH]; [done|].
  cbn [string_map]. by rewrite ascii_upper_idemp, IH.
Qed.

Lemma toUpperCase_empty (s : string) : String.eqb (toUpperCase s) "" = String.eqb s "".
Proof. by destruct s. Qed.

Section OrchestratorRuns.
Variable now : Z.
Variable randomUUID : positive.
Variable worker_url : option string.
Variable worker_fetch : job_request → worker_response.

(** The ticker of a request is taken without regard to case: asking for
    the upper-cased ticker gives the same answer, the same database and the
    same job. *)
Theorem generate_report_ticker_case (req : request) (d : db) :
  generate_report now randomUUID worker_url worker_fetch
    (mkRequest (toUpperCase (req_ticker req)) (req_user_id req)) d
  = generate_report now randomUUID worker_url worker_fetch req d.
Proof.
  unfold generate_report. cbn [req_ticker req_user_id].
  by rewrite toUpperCase_empty, toUpperCase_idemp.
Qed.

(** X14: generate-report hands a job to the worker exactly when it answers
    202 with that job's id.  The job then carries the new id, the requesting
    account and the upper-cased ticker; the worker accepted it; the account
    held at least one token; and the database is as it was: queuing a job
    debits nothing and logs nothing. *)
Theorem generate_report_dispatch (req : request) (d : db) :
  let result := generate_report now randomUUID worker_url worker_fetch req d in
  (∀ j, result.1.1 = Job_queued j ↔ ∃ jr, result.2 = Some jr ∧ jr_job_id jr = j)
  ∧ (∀ jr, result.2 = Some jr →
       result.1.2 = d
       ∧ worker_fetch jr = Worker_accepted
       ∧ ∃ p, req_user_id req = Some (jr_user_id jr)
              ∧ jr = mkJobRequest randomUUID (jr_user_id jr) (toUpperCase (req_ticker req))
              ∧ profiles d !! jr_user_id jr = Some p
              ∧ 1 ≤ tokens_remaining p).
Proof.
  assert (∀ u t, let result := generate_new randomUUID worker_url worker_fetch u t d in
    (∀ j, result.1.1 = Job_queued j ↔ ∃ jr, result.2 = Some jr ∧ jr_job_id jr = j)
    ∧ (∀ jr, result.2 = Some jr →
         result.1.2 = d
         ∧ worker_fetch jr = Worker_accepted
         ∧ ∃ p, jr = mkJobRequest randomUUID u t
                ∧ profiles d !! u = Some p
                ∧ 1 ≤ tokens_remaining p)) as Hnew.
  { intros u t. unfold generate_new.
    destruct (profiles d !! u) as [p|] eqn:Hp;
      [|split; [intros j; split; [done | by intros (? & ? & _)] | done]].
    destruct (Z.ltb_spec (tokens_remaining p) 1);
      [split; [intros j; split; [done | by intros (? & ? & _)] | done]|].
    destruct worker_url;
      [|split; [intros j; split; [done | by intros (? & ? & _)] | done]].
    destruct (worker_fetch _) eqn:Hfetch;
      try (split; [intros j; split; [done | by intros (? & ? & _)] | done]).
    split.
    - intros j. split.
      + intros [= <-]. by eexists.
      + by intros (jr & [= <-] & <-).
    - intros jr [= <-]. split; [done|]. split; [done|]. by exists p. }
  assert (∀ (resp : response) (d' : db), (∀ j, resp ≠ Job_queued j) →
    let result := (resp, d', @None job_request) in
    (∀ j, result.1.1 = Job_queued j ↔ ∃ jr, result.2 = Some jr ∧ jr_job_id jr = j)
    ∧ (∀ jr, result.2 = Some jr →
         result.1.2 = d ∧ worker_fetch jr = Worker_accepted
         ∧ ∃ p, req_user_id req = Some (jr_user_id jr)
                ∧ jr = mkJobRequest randomUUID (jr_user_id jr) (toUpperCase (req_ticker req))
                ∧ profiles d !! jr_user_id jr = Some p
                ∧ 1 ≤ tokens_remaining p)) as Hnone.
  { intros resp d' Hresp. split; [|done]. intros j. split.
    - intros Heq. by destruct (Hresp j).
    - by intros (? & ? & _). }
  assert (∀ u, req_user_id req = Some u →
    let result := generate_new randomUUID worker_url worker_fetch u
                    (toUpperCase (req_ticker req)) d in
    (∀ j, result.1.1 = Job_queued j ↔ ∃ jr, result.2 = Some jr ∧ jr_job_id jr = j)
    ∧ (∀ jr, result.2 = Some jr →
         result.1.2 = d ∧ worker_fetch jr = Worker_accepted
         ∧ ∃ p, req_user_id req = Some (jr_user_id jr)
                ∧ jr = mkJobRequest randomUUID (jr_user_id jr) (toUpperCase (req_ticker req))
                ∧ profiles d !! jr_user_id jr = Some p
                ∧ 1 ≤ tokens_remaining p)) as Hnew'.
  { intros u Hu. destruct (Hnew u (toUpperCase (req_ticker req))) as [Hq Hjob].
    split; [done|]. intros jr Hjr.
    destruct (Hjob jr Hjr) as (? & ? & p & -> & ? & ?). split; [done|]. split; [done|].
    by exists p. }
  unfold generate_report.
  destruct (String.eqb _ _); [by apply Hnone|].
  destruct (req_user_id req) as [u|] eqn:Hu; [|by apply Hnone].
  destruct (existing_reports _ _ _) as [[cid cached]|]; [|by apply Hnew'].
  destruct (reports d !! cid); [|by apply Hnew'].
  destruct (insert_report _ _) as [[newId d1]|err]; [|by apply Hnew'].
  unfold charge_cached. destruct (negb _); [|by apply Hnone].
  destruct (rpc _ _) as [[e|] d2]; by apply Hnone.
Qed.

(** X15: a request for a ticker of which a report at most thirty days old is
    stored never reaches the worker, whatever the account and its balance. *)
Theorem cached_never_dispatches (req : request) (d : db) (id : positive) (r : report) :
  reports d !! id = Some r → ticker r = toUpperCase (req_ticker req) →
  now - thirty_days ≤ created_at r →
  let result := generate_report now randomUUID worker_url worker_fetch req d in
  result.2 = None ∧ ∀ j, result.1.1 ≠ Job_queued j.
Proof.
  intros Hr Ht Ha. unfold generate_report.
  destruct (String.eqb _ _); [done|].
  destruct (req_user_id req) as [u|]; [|done].
  destruct (existing_reports _ _ _) as [[cid cached]|] eqn:Hex.
  - apply existing_reports_Some in Hex as (Hfull & _). rewrite Hfull.
    unfold insert_report. cbn [clone_report user_id].
    case_bool_decide as Hprof.
    + unfold charge_cached. destruct (negb _); [|done].
      by destruct (rpc _ _) as [[e|] d2].
    + unfold generate_new. destruct (profiles d !! u) as [p|]; [|done].
      destruct Hprof. by eexists.
  - pose proof (existing_reports_None d _ _ id r Hex Hr Ht). lia.
Qed.

(** X16: a cache hit on a report that was not refunded, by an account that
    holds at least one token: the answer names the clone, the balance goes
    down by exactly 1, one usage transaction of -1 that points to the clone
    is appended, the clone is the only new report, and no job is queued. *)
Theorem cached_hit_charged (req : request) (d : db) (u cid : positive)
    (cached : report) (p : profile) :
  req_ticker req ≠ "" → req_user_id req = Some u →
  existing_reports d (toUpperCase (req_ticker req)) (now - thirty_days)
  = Some (cid, cached) →
  refunded cached = false →
  profiles d !! u = Some p → 1 ≤ tokens_remaining p →
  let rid := fresh (dom (reports d)) in
  generate_report now randomUUID worker_url worker_fetch req d
  = (Cached false rid,
     mkDb (<[u := mkProfile (tokens_remaining p - 1)]> (profiles d))
          (<[rid := clone_report now u cached]> (reports d))
          (token_transactions d
             ++ [mkTx u (Some rid) usage (-1)
                   ("Cached report for " +:+ toUpperCase (req_ticker req))])
          (error_logs d),
     None).
Proof.
  intros Ht Hu Hex Href Hp Hbal rid. unfold generate_report.
  apply String.eqb_neq in Ht. rewrite Ht, Hu, Hex.
  apply existing_reports_Some in Hex as (Hfull & _ & _). rewrite Hfull.
  rewrite insert_report_ok by (simpl; by eexists). fold rid.
  unfold charge_cached. rewrite Href. cbn [negb].
  unfold rpc at 1, deduct_token. cbn [profiles set_reports]. rewrite Hp.
  destruct (Z.ltb_spec (tokens_remaining p) 1); [lia|].
  unfold log_usage, rpc, insert_token_transaction, set_profiles, set_reports,
    references_report.
  cbn [profiles reports token_transactions error_logs tx_user_id tx_report_id].
  rewrite !lookup_insert_eq.
  rewrite !bool_decide_eq_true_2 by by eexists. reflexivity.
Qed.

(** X17: a cache hit on a report that was refunded costs nothing: the clone
    is stored, marked refunded itself and with [tokens_used = 1], and nothing
    else changes: no debit, no transaction, no job. *)
Theorem cached_hit_refunded_free (req : request) (d : db) (u cid : positive)
    (cached : report) :
  req_ticker req ≠ "" → req_user_id req = Some u →
  existing_reports d (toUpperCase (req_ticker req)) (now - thirty_days)
  = Some (cid, cached) →
  refunded cached = true →
  is_Some (profiles d !! u) →
  let rid := fresh (dom (reports d)) in
  generate_report now randomUUID worker_url worker_fetch req d
  = (Cached true rid, set_reports (<[rid := clone_report now u cached]>) d, None)
  ∧ refunded (clone_report now u cached) = true
  ∧ tokens_used (clone_report now u cached) = 1.
Proof.
  intros Ht Hu Hex Href Hp rid. split; [|by split].
  unfold generate_report.
  apply String.eqb_neq in Ht. rewrite Ht, Hu, Hex.
  apply existing_reports_Some in Hex as (Hfull & _ & _). rewrite Hfull.
  rewrite insert_report_ok by done. fold rid.
  unfold charge_cached. by rewrite Href.
Qed.

(** X18: a cache hit for an account that has no profile stores nothing: the
    clone is refused by the foreign key, the handler falls through to the
    fresh path and answers 404. *)
Theorem cached_hit_unknown_account (req : request) (d : db) (u cid : positive)
    (cached : report) :
  req_ticker req ≠ "" → req_user_id req = Some u →
  existing_reports d (toUpperCase (req_ticker req)) (now - thirty_days)
  = Some (cid, cached) →
  profiles d !! u = None →
  generate_report now randomUUID worker_url worker_fetch req d
  = (Profile_not_found, d, None).
Proof.
  intros Ht Hu Hex Hp. unfold generate_report.
  apply String.eqb_neq in Ht. rewrite Ht, Hu, Hex.
  apply existing_reports_Some in Hex as (Hfull & _ & _). rewrite Hfull.
  unfold insert_report. cbn [clone_report user_id]. rewrite Hp.
  rewrite bool_decide_eq_false_2 by by intros [? [=]].
  unfold generate_new. by rewrite Hp.
Qed.
End OrchestratorRuns.

Lemma cached_never_dispatches_witness :
  (tst_cached_request (db_cached 0)).2 = None
  ∧ ∀ j, (tst_cached_request (db_cached 0)).1.1 ≠ Job_queued j.
Proof.
  apply (cached_never_dispatches 1700000500 7 (Some "https://worker.example")
           (λ _, Worker_accepted) (mkRequest "tst" (Some 2%positive)) (db_cached 0)
           1%positive passed_report).
  - reflexivity.
  - reflexivity.
  - vm_compute. discriminate.
Defined.

Lemma cached_hit_charged_witness :
  tst_cached_request (db_cached 1)
  = (Cached false (fresh (dom (reports (db_cached 1)))),
     mkDb (<[2%positive := mkProfile (1 - 1)]> (profiles (db_cached 1)))
          (<[fresh (dom (reports (db_cached 1)))
               := clone_report 1700000500 2 passed_report]> (reports (db_cached 1)))
          (token_transactions (db_cached 1)
             ++ [mkTx 2 (Some (fresh (dom (reports (db_cached 1))))) usage (-1)
                   ("Cached report for " +:+ toUpperCase "tst")])
          (error_logs (db_cached 1)),
     None).
Proof.
  apply (cached_hit_charged 1700000500 7 (Some "https://worker.example")
           (λ _, Worker_accepted) (mkRequest "tst" (Some 2%positive)) (db_cached 1)
           2%positive 1%positive passed_report (mkProfile 1)).
  - discriminate.
  - reflexivity.
  - vm_compute. reflexivity.
  - reflexivity.
  - reflexivity.
  - simpl. lia.
Defined.

Lemma cached_hit_refunded_free_witness :
  generate_report 1700000500 7 (Some "https://worker.example") (λ _, Worker_accepted)
    (mkRequest "TST" (Some 1%positive)) db_refunded_report
  = (Cached true (fresh (dom (reports db_refunded_report))),
     set_reports (<[fresh (dom (reports db_refunded_report))
                      := clone_report 1700000500 1 (set_refunded true failed_report)]>)
       db_refunded_report,
     None)
  ∧ refunded (clone_report 1700000500 1 (set_refunded true failed_report)) = true
  ∧ tokens_used (clone_report 1700000500 1 (set_refunded true failed_report)) = 1.
Proof.
  apply (cached_hit_refunded_free 1700000500 7 (Some "https://worker.example")
           (λ _, Worker_accepted) (mkRequest "TST" (Some 1%positive)) db_refunded_report
           1%positive 1%positive (set_refunded true failed_report)).
  - discriminate.
  - reflexivity.
  - vm_compute. reflexivity.
  - reflexivity.
  - by eexists.
Defined.

Lemma cached_hit_unknown_account_witness :
  generate_report 1700000500 7 (Some "https://worker.example") (λ _, Worker_accepted)
    (mkRequest "tst" (Some 9%positive)) (db_cached 1)
  = (Profile_not_found, db_cached 1, None).
Proof.
  apply (cached_hit_unknown_account 1700000500 7 (Some "https://worker.example")
           (λ _, Worker_accepted) (mkRequest "tst" (Some 9%positive)) (db_cached 1)
           9%positive 1%positive passed_report).
  - discriminate.
  - reflexivity.
  - vm_compute. reflexivity.
  - reflexivity.
Defined.


(** ** search-companies: what is returned, and in which order *)

Section SearchRuns.
Local Abbreviation company := SearchCompanies.company.
Local Abbreviation score := SearchCompanies.score.
Local Abbreviation insert_scored := SearchCompanies.insert_scored.
Local Abbreviation sort_scored := SearchCompanies.sort_scored.
Local Abbreviation startsWith := SearchCompanies.startsWith.
Local Abbreviation includes := SearchCompanies.includes.

Lemma insert_scored_perm (x : company * Z) (l : list (company * Z)) :
  insert_scored x l ≡ₚ x :: l.
Proof.
  induction l as [|y l IH]; simpl; [done|].
  destruct (y.2 <=? x.2); [done|]. rewrite IH. apply Permutation_swap.
Qed.

Lemma sort_scored_perm (l : list (company * Z)) : sort_scored l ≡ₚ l.
Proof.
  induction l as [|x l IH]; simpl; [done|]. by rewrite insert_scored_perm, IH.
Qed.

Lemma filter_insert_scored (v : Z) (x : company * Z) (l : list (company * Z)) :
  filter (λ p, p.2 = v) (insert_scored x l) = filter (λ p, p.2 = v) (x :: l).
Proof.
  induction l as [|y l IH]; simpl; [done|].
  destruct (Z.leb_spec y.2 x.2) as [Hle|Hgt]; [done|].
  rewrite filter_cons, IH, !filter_cons.
  destruct (decide (y.2 = v)) as [Hy|Hy], (decide (x.2 = v)) as [Hx|Hx];
    try done. lia.
Qed.

Lemma filter_sort_scored (v : Z) (l : list (company * Z)) :
  filter (λ p, p.2 = v) (sort_scored l) = filter (λ p, p.2 = v) l.
Proof.
  induction l as [|x l IH]; simpl; [done|].
  by rewrite filter_insert_scored, !filter_cons, IH.
Qed.

Lemma map_fst_scored (t : string) (data : list company) :
  map fst (map (λ c, (c, score t c)) data) = data.
Proof. induction data as [|c data IH]; simpl; [done|]. by rewrite IH. Qed.

Lemma filter_scored (t : string) (v : Z) (data : list company) :
  map fst (filter (λ p, p.2 = v) (map (λ c, (c, score t c)) data))
  = filter (λ c, score t c = v) data.
Proof.
  induction data as [|c data IH]; simpl; [done|].
  rewrite !filter_cons. simpl. destruct (decide (score t c = v)); simpl; by rewrite IH.
Qed.

Lemma filter_fst (t : string) (v : Z) (l : list (company * Z)) :
  Forall (λ p, p.2 = score t p.1) l →
  filter (λ c, score t c = v) (map fst l) = map fst (filter (λ p, p.2 = v) l).
Proof.
  induction 1 as [|p l Hp Hl IH]; simpl; [done|].
  rewrite !filter_cons, <- Hp. destruct (decide (p.2 = v)); simpl; by rewrite IH.
Qed.

Lemma scored_Forall (t : string) (data : list company) :
  Forall (λ p, p.2 = score t p.1) (map (λ c, (c, score t c)) data).
Proof. induction data; simpl; by constructor. Qed.

Lemma prefix_refl (s : string) : String.prefix s s = true.
Proof. induction s as [|c s IH]; simpl; [done|]. by destruct (ascii_dec c c). Qed.

Lemma startsWith_includes (s t : string) : startsWith s t = true → includes s t = true.
Proof. intros Hs. destruct s; cbn [SearchCompanies.includes]; by rewrite Hs. Qed.

Lemma match_boundary_includes (prev : bool) (s t : string) :
  SearchCompanies.match_boundary_from prev s t = true → includes s t = true.
Proof.
  revert prev. induction s as [|c s IH]; intros prev;
    cbn [SearchCompanies.match_boundary_from SearchCompanies.includes].
  - rewrite !orb_false_r. intros [_ Hs]%andb_true_iff. by rewrite Hs.
  - intros [[_ Hs]%andb_true_iff|Hm]%orb_true_iff.
    + by rewrite Hs.
    + rewrite (IH _ Hm). apply orb_true_r.
Qed.

(** X19: the score tells how a company matches.  It is 0 exactly when
    neither the lower-cased ticker nor the lower-cased name holds the term,
    so a row that the [ilike] filter let through never scores 0.  A match in
    the ticker is looked at first: a company whose ticker holds the term
    scores 10000, 5000 or 1000 even when its name equals the term, and the
    9000 of an exact name is given only when the ticker does not hold it. *)
Theorem score_classes (t : string) (c : company) :
  let ticker := toLowerCase (SearchCompanies.ticker c) in
  let name := toLowerCase (SearchCompanies.company_name c) in
  (score t c = 0 ↔ includes ticker t = false ∧ includes name t = false)
  ∧ (includes ticker t = true ↔ score t c = 10000 ∨ score t c = 5000 ∨ score t c = 1000)
  ∧ (score t c = 9000 ↔ includes ticker t = false ∧ name = t).
Proof.
  intros ticker name. unfold SearchCompanies.score. fold ticker. fold name.
  assert (String.eqb ticker t = true → startsWith ticker t = true) as H1.
  { intros ->%String.eqb_eq. apply prefix_refl. }
  assert (String.eqb name t = true → startsWith name t = true) as H2.
  { intros ->%String.eqb_eq. apply prefix_refl. }
  pose proof (startsWith_includes ticker t) as H3.
  pose proof (startsWith_includes name t) as H4.
  pose proof (match_boundary_includes false name t) as H5.
  fold (SearchCompanies.match_word_boundary name t) in H5.
  destruct (String.eqb_spec name t) as [Hname|Hname];
  destruct (String.eqb ticker t), (startsWith ticker t), (includes ticker t),
    (startsWith name t), (SearchCompanies.match_word_boundary name t),
    (includes name t);
    try (specialize (H1 eq_refl)); try (specialize (H2 eq_refl));
    try (specialize (H3 eq_refl)); try (specialize (H4 eq_refl));
    try (specialize (H5 eq_refl)); try discriminate;
    (split; [|split]); split; try done; try lia;
    try (by intros [? ?]); try (by intros [?|[?|?]]); auto.
Qed.

Variable select_companies : string → result string (list company).

(** X20: a search returns rows of the database's answer and nothing else:
    the results are a sub-multiset of the rows, min(20, number of rows) of
    them, and when the database returns at most 20 rows every one of them is
    in the results. *)
Theorem search_results_drawn_from_data (query : string) (data : list company) :
  query ≠ "" →
  select_companies (SearchCompanies.trim (toLowerCase query)) = Ok data →
  ∃ results,
    SearchCompanies.search_companies select_companies query
    = SearchCompanies.Results results
    ∧ results ⊆+ data
    ∧ length results = (length data `min` 20)%nat
    ∧ ((length data ≤ 20)%nat → results ≡ₚ data).
Proof.
  intros Hq Hdata. unfold SearchCompanies.search_companies.
  destruct query as [|a q]; [done|]. cbn [String.length Nat.ltb Nat.leb].
  rewrite Hdata. eexists. split; [reflexivity|].
  set (t := SearchCompanies.trim (toLowerCase (String a q))).
  set (scored := map (λ c, (c, score t c)) data).
  assert (map fst (sort_scored scored) ≡ₚ data) as Hperm.
  { change (fst <$> sort_scored scored ≡ₚ data).
    rewrite sort_scored_perm. apply reflexive_eq, map_fst_scored. }
  assert (length (sort_scored scored) = length data) as Hlen.
  { rewrite <- (length_map fst). by apply Permutation_length. }
  split; [|split].
  - rewrite <- Hperm. change (fst <$> take 20 (sort_scored scored)
                               ⊆+ fst <$> sort_scored scored).
    apply fmap_submseteq, submseteq_take.
  - rewrite length_map, length_take, Hlen. lia.
  - intros Hle. rewrite take_ge by lia. exact Hperm.
Qed.

(** X21: sorting by score keeps the database's order among companies of
    equal score: for each score, the results with that score are the first
    of the database's rows with that score, in the same order. *)
Theorem search_results_stable (query : string) (data results : list company) (v : Z) :
  select_companies (SearchCompanies.trim (toLowerCase query)) = Ok data →
  SearchCompanies.search_companies select_companies query
  = SearchCompanies.Results results →
  let searchTerm := SearchCompanies.trim (toLowerCase query) in
  filter (λ c, score searchTerm c = v) results
    `prefix_of` filter (λ c, score searchTerm c = v) data.
Proof.
  intros Hdata Hres t. unfold SearchCompanies.search_companies in Hres.
  destruct (String.length query <? 1)%nat.
  { injection Hres as <-. apply prefix_nil. }
  fold t in Hdata, Hres. rewrite Hdata in Hres. injection Hres as <-.
  set (scored := map (λ c, (c, score t c)) data).
  assert (Forall (λ p, p.2 = score t p.1) (sort_scored scored)) as Hscores.
  { rewrite sort_scored_perm. apply scored_Forall. }
  rewrite <- (filter_scored t v data). fold scored.
  rewrite <- (filter_sort_scored v scored).
  rewrite filter_fst by (by apply Forall_take).
  rewrite <- (take_drop 20 (sort_scored scored)) at 2.
  rewrite filter_app. change (map fst ?l) with (fst <$> l). rewrite fmap_app.
  by apply prefix_app_r.
Qed.

(** X22: when every row of the database's answer has the same score, as for
    a query of blanks only, the results are the first 20 rows in the
    database's order. *)
Theorem search_equal_scores_keep_order (query : string) (data : list company) (v : Z) :
  query ≠ "" →
  select_companies (SearchCompanies.trim (toLowerCase query)) = Ok data →
  (∀ c, c ∈ data → score (SearchCompanies.trim (toLowerCase query)) c = v) →
  SearchCompanies.search_companies select_companies query
  = SearchCompanies.Results (take 20 data).
Proof.
  intros Hq Hdata Hv. unfold SearchCompanies.search_companies.
  destruct query as [|a q]; [done|]. cbn [String.length Nat.ltb Nat.leb].
  rewrite Hdata. f_equal.
  set (t := SearchCompanies.trim (toLowerCase (String a q))) in *.
  assert (sort_scored (map (λ c, (c, score t c)) data)
          = map (λ c, (c, score t c)) data) as ->.
  { clear Hdata. induction data as [|c data IH]; simpl; [done|].
    rewrite IH by (intros c' Hc'; by apply Hv, list_elem_of_further).
    destruct data as [|c' data]; simpl; [done|].
    rewrite (Hv c) by apply list_elem_of_here.
    rewrite (Hv c') by apply list_elem_of_further, list_elem_of_here.
    by rewrite Z.leb_refl. }
  change (map ?f ?l) with (f <$> l). rewrite <- fmap_take.
  change (fst <$> ((λ c, (c, score t c)) <$> take 20 data)) with
    (map fst (map (λ c, (c, score t c)) (take 20 data))).
  apply map_fst_scored.
Qed.
End SearchRuns.

Lemma search_results_drawn_from_data_witness :
  ∃ results,
    SearchCompanies.search_companies (λ _, Ok sample_companies) " Aap "
    = SearchCompanies.Results results
    ∧ results ⊆+ sample_companies
    ∧ length results = (length sample_companies `min` 20)%nat
    ∧ ((length sample_companies ≤ 20)%nat → results ≡ₚ sample_companies).
Proof.
  apply (search_results_drawn_from_data (λ _, Ok sample_companies) " Aap "
           sample_companies).
  - discriminate.
  - reflexivity.
Defined.

Lemma search_results_stable_witness :
  filter (λ c, SearchCompanies.score (SearchCompanies.trim (toLowerCase " a ")) c = 5000)
    [SearchCompanies.mkCompany "AAPL" "Apple Inc." "0000320193";
     SearchCompanies.mkCompany "AAP" "Advance Auto Parts Inc" "0001158449";
     SearchCompanies.mkCompany "PAAS" "Pan American Silver Corp" "0000771992"]
  `prefix_of`
  filter (λ c, SearchCompanies.score (SearchCompanies.trim (toLowerCase " a ")) c = 5000)
    sample_companies.
Proof.
  apply (search_results_stable (λ _, Ok sample_companies) " a " sample_companies).
  - reflexivity.
  - vm_compute. reflexivity.
Defined.

Lemma search_equal_scores_keep_order_witness :
  SearchCompanies.search_companies (λ _, Ok sample_companies) "  "
  = SearchCompanies.Results (take 20 sample_companies).
Proof.
  apply (search_equal_scores_keep_order (λ _, Ok sample_companies) "  "
           sample_companies 5000).
  - discriminate.
  - reflexivity.
  - intros c Hc. unfold sample_companies in Hc.
    repeat (apply elem_of_cons in Hc as [->|Hc]); [vm_compute; reflexivity..|].
    by apply elem_of_nil in Hc.
Defined.


(** ** sync-tickers *)

Section SyncProps.
Import SyncTickers.
Variable sec_fetch : result string (list sec_company).
Variable request_fails : list upsert_row → bool.
Variable count_fails : bool.

Local Abbreviation round := (λ st batch, sync_batch request_fails batch st).

(** The loop runs [sync_batch] on consecutive chunks of at most 500
    entries whose concatenation is the list from [i] on, once it has fuel
    for them; more fuel changes nothing. *)
Lemma sync_loop_batches (companies : list sec_company) (fuel i : nat)
    (st : companies_table * nat) :
  (length companies - i ≤ fuel * BATCH_SIZE)%nat →
  ∃ batches,
    sync_loop request_fails fuel companies i st = foldl round st batches
    ∧ concat batches = drop i companies
    ∧ Forall (λ b, (0 < length b ≤ BATCH_SIZE)%nat) batches
    ∧ length batches = ((length companies - i + 499) / 500)%nat.
Proof.
  revert i st. induction fuel as [|fuel IH]; intros i st Hfuel.
  - exists []. split; [done|]. unfold BATCH_SIZE in Hfuel. split; [|split; [done|]].
    + symmetry. apply drop_ge. lia.
    + replace (length companies - i)%nat with 0%nat by lia. done.
  - cbn [sync_loop]. destruct (Nat.ltb_spec i (length companies)) as [Hlt|Hge].
    + destruct (IH (i + BATCH_SIZE)%nat
                  (sync_batch request_fails (slice companies i (i + BATCH_SIZE)) st))
        as (batches & Hloop & Hconcat & Hlen & Hcount); [unfold BATCH_SIZE in *; lia|].
      exists (slice companies i (i + BATCH_SIZE) :: batches).
      split; [done|]. split; [|split].
      * cbn [concat]. rewrite Hconcat. unfold slice.
        replace (i + BATCH_SIZE - i)%nat with BATCH_SIZE by lia.
        rewrite <- drop_drop. apply take_drop.
      * constructor; [|done]. unfold slice.
        rewrite length_take, length_drop. unfold BATCH_SIZE. lia.
      * cbn [length]. rewrite Hcount. unfold BATCH_SIZE.
        destruct (Nat.le_gt_cases (length companies - i) 500) as [Hle|Hgt].
        -- replace (length companies - (i + 500))%nat with 0%nat by lia.
           change ((0 + 499) `div` 500)%nat with 0%nat.
           apply (Nat.div_unique _ 500 1 (length companies - i - 1)); lia.
        -- replace (length companies - i + 499)%nat
             with (length companies - (i + 500) + 499 + 1 * 500)%nat by lia.
           rewrite Nat.div_add by lia. lia.
    + exists []. split; [done|]. split; [|split; [done|]].
      * symmetry. by apply drop_ge.
      * replace (length companies - i)%nat with 0%nat by lia. done.
Qed.

Lemma sync_all_batches (companies : list sec_company) (t : companies_table) :
  ∃ batches,
    sync_all request_fails companies t = foldl round (t, 0%nat) batches
    ∧ concat batches = companies
    ∧ Forall (λ b, (0 < length b ≤ BATCH_SIZE)%nat) batches.
Proof.
  destruct (sync_loop_batches companies (length companies) 0 (t, 0%nat))
    as (batches & ? & ? & ? & _); [unfold BATCH_SIZE; lia|].
  by exists batches.
Qed.

Lemma sync_loop_fuel (companies : list sec_company) (fuel fuel' i : nat)
    (st : companies_table * nat) :
  (length companies - i ≤ fuel * BATCH_SIZE)%nat → (fuel ≤ fuel')%nat →
  sync_loop request_fails fuel' companies i st
  = sync_loop request_fails fuel companies i st.
Proof.
  unfold BATCH_SIZE. revert fuel' i st.
  induction fuel as [|fuel IH]; intros fuel' i st Hfuel Hle.
  - destruct fuel' as [|fuel']; [done|]. cbn [sync_loop].
    destruct (Nat.ltb_spec i (length companies)); [lia | done].
  - destruct fuel' as [|fuel']; [lia|]. cbn [sync_loop].
    destruct (Nat.ltb_spec i (length companies)); [|done].
    apply IH; unfold BATCH_SIZE; lia.
Qed.

(** X23: the loop sends the SEC's list in consecutive batches: each has
    between 1 and 500 entries, together and in order they are the whole
    list, and there are ceil(n / 500) of them.  The loop ends: with fuel for
    at least [length companies] rounds it gives the result of [sync_all]. *)
Theorem sync_tickers_batches (companies : list sec_company) (t : companies_table)
    (fuel : nat) :
  (length companies ≤ fuel)%nat →
  ∃ batches,
    sync_loop request_fails fuel companies 0 (t, 0%nat)
    = sync_all request_fails companies t
    ∧ sync_all request_fails companies t = foldl round (t, 0%nat) batches
    ∧ concat batches = companies
    ∧ Forall (λ b, (0 < length b ≤ BATCH_SIZE)%nat) batches
    ∧ length batches = ((length companies + 499) / 500)%nat.
Proof.
  intros Hfuel.
  destruct (sync_loop_batches companies (length companies) 0 (t, 0%nat))
    as (batches & Hall & Hconcat & Hlen & Hcount); [unfold BATCH_SIZE; lia|].
  exists batches. rewrite Nat.sub_0_r in Hcount. split; [|done].
  apply sync_loop_fuel; [unfold BATCH_SIZE; lia | done].
Qed.

Lemma upsert_one_lookup (t : companies_table) (r : upsert_row) (tk : string) :
  upsert_one t r !! tk
  = if decide (tk = u_ticker r)
    then Some (mkCompanyRow (u_company_name r) (u_cik r)
                 (from_option extraction_status "unknown" (t !! tk)))
    else t !! tk.
Proof.
  unfold upsert_one. destruct (decide (tk = u_ticker r)) as [->|Hne].
  - destruct (t !! u_ticker r); cbv iota; by rewrite lookup_insert_eq.
  - destruct (t !! u_ticker r); cbv iota; by rewrite lookup_insert_ne.
Qed.

Lemma synced_refl (cs : list sec_company) (t : companies_table) : synced cs t t.
Proof. split; [by eauto | by auto]. Qed.

Lemma synced_trans (cs1 cs2 : list sec_company) (t1 t2 t3 : companies_table) :
  synced cs1 t1 t2 → synced cs2 t2 t3 → synced (cs1 ++ cs2) t1 t3.
Proof.
  intros [Hkeep1 Hrows1] [Hkeep2 Hrows2]. split.
  - intros tk r Hr. destruct (Hkeep1 tk r Hr) as (r2 & Hr2 & Hs2).
    destruct (Hkeep2 tk r2 Hr2) as (r3 & Hr3 & Hs3). exists r3. split; [done|congruence].
  - intros tk r3 Hr3. destruct (Hrows2 tk r3 Hr3) as [Hr2|(c & Hc & Htk & ->)].
    + destruct (Hrows1 tk r3 Hr2) as [Hr1|(c & Hc & Htk & ->)]; [by left|].
      right. exists c. split; [apply elem_of_app; by left | done].
    + right. exists c. split; [apply elem_of_app; by right|]. split; [done|].
      f_equal. destruct (t2 !! tk) as [r2|] eqn:Hr2.
      * destruct (Hrows1 tk r2 Hr2) as [Hr1|(c1 & _ & _ & ->)]; [by rewrite Hr1 | done].
      * destruct (t1 !! tk) as [r1|] eqn:Hr1; [|done].
        destruct (Hkeep1 tk r1 Hr1) as (r2 & Hr2' & _). congruence.
Qed.

Lemma synced_upsert_one (c : sec_company) (t : companies_table) :
  synced [c] t (upsert_one t (upsertData c)).
Proof.
  split.
  - intros tk r Hr. rewrite upsert_one_lookup.
    destruct (decide _); [|by eauto]. rewrite Hr. by eexists.
  - intros tk r'. rewrite upsert_one_lookup.
    destruct (decide (tk = u_ticker (upsertData c))) as [->|Hne]; [|by left].
    intros [= <-]. right. exists c. split; [apply list_elem_of_here | done].
Qed.

Lemma synced_foldl (cs : list sec_company) (t : companies_table) :
  synced cs t (foldl upsert_one t (map upsertData cs)).
Proof.
  revert t. induction cs as [|c cs IH]; intros t; [apply synced_refl|].
  cbn [map foldl]. change (c :: cs) with ([c] ++ cs).
  eapply synced_trans; [apply synced_upsert_one | apply IH].
Qed.

Lemma synced_batch (batch : list sec_company) (st : companies_table * nat) :
  synced batch st.1 (sync_batch request_fails batch st).1
  ∧ ((sync_batch request_fails batch st).2 = st.2
     ∨ (sync_batch request_fails batch st).2 = (st.2 + length batch)%nat).
Proof.
  unfold sync_batch, upsert. destruct (_ && _).
  - split; [apply synced_foldl | by right].
  - split; [apply synced_refl | by left].
Qed.

Lemma synced_rounds (batches : list (list sec_company)) (st : companies_table * nat) :
  synced (concat batches) st.1 (foldl round st batches).1
  ∧ (st.2 ≤ (foldl round st batches).2 ≤ st.2 + length (concat batches))%nat.
Proof.
  revert st. induction batches as [|b batches IH]; intros st.
  - split; [apply synced_refl | simpl; lia].
  - cbn [foldl concat]. destruct (synced_batch b st) as [Hb Hp].
    destruct (IH (sync_batch request_fails b st)) as [Hrest Hp'].
    split; [by eapply synced_trans|]. rewrite length_app. lia.
Qed.

(** X24: a run of sync-tickers never deletes a company and never changes an
    [extraction_status]; and every row of the table after the run is a row
    that was there before, unchanged, or carries the ticker, the name and the
    zero-padded CIK of an entry of the SEC's list, with status 'unknown' when
    the ticker is new. *)
Theorem sync_tickers_never_deletes (m : method) (t : companies_table) :
  let t' := (sync_tickers sec_fetch request_fails count_fails m t).2 in
  (∀ tk r, t !! tk = Some r →
           ∃ r', t' !! tk = Some r' ∧ extraction_status r' = extraction_status r)
  ∧ (∀ tk r', t' !! tk = Some r' →
       t !! tk = Some r'
       ∨ ∃ companies c,
           sec_fetch = Ok companies ∧ c ∈ companies ∧ ticker c = tk
           ∧ r' = mkCompanyRow (title c) (padStart (pretty (cik_str c)) 10 "0")
                    (from_option extraction_status "unknown" (t !! tk))).
Proof.
  assert (∀ t' : companies_table, t' = t →
    (∀ tk r, t !! tk = Some r →
             ∃ r', t' !! tk = Some r' ∧ extraction_status r' = extraction_status r)
    ∧ (∀ tk r', t' !! tk = Some r' →
         t !! tk = Some r'
         ∨ ∃ companies c,
             sec_fetch = Ok companies ∧ c ∈ companies ∧ ticker c = tk
             ∧ r' = mkCompanyRow (title c) (padStart (pretty (cik_str c)) 10 "0")
                      (from_option extraction_status "unknown" (t !! tk)))) as Hsame.
  { intros t' ->. split; [by eauto | by auto]. }
  unfold sync_tickers.
  destruct m; try (by apply Hsame);
    (destruct sec_fetch as [companies|msg] eqn:Hfetch; [|by apply Hsame]);
    cbn [snd];
    destruct (sync_all_batches companies t) as (batches & -> & Hconcat & _);
    destruct (synced_rounds batches (t, 0%nat)) as [[Hkeep Hrows] _];
    rewrite Hconcat in Hrows; cbn [fst] in *;
    (split; [done|]); intros tk r' Hr';
    (destruct (Hrows tk r' Hr') as [?|(c & ? & ? & ?)]; [by left|]);
    right; by exists companies, c.
Qed.

Lemma upsertData_tickers (cs : list sec_company) :
  map u_ticker (map upsertData cs) = map ticker cs.
Proof. induction cs as [|c cs IH]; simpl; [done|]. by rewrite IH. Qed.

Lemma foldl_upsert_other (cs : list sec_company) (t : companies_table) (tk : string) :
  tk ∉ map ticker cs → foldl upsert_one t (map upsertData cs) !! tk = t !! tk.
Proof.
  revert t. induction cs as [|c cs IH]; intros t Hnot; [done|].
  cbn [map foldl] in *. apply not_elem_of_cons in Hnot as [Hne Hnot].
  rewrite IH by done. rewrite upsert_one_lookup. by destruct (decide _).
Qed.

Lemma foldl_upsert_lookup (cs : list sec_company) (t : companies_table) (c : sec_company) :
  NoDup (map ticker cs) → c ∈ cs →
  foldl upsert_one t (map upsertData cs) !! ticker c
  = Some (mkCompanyRow (title c) (padStart (pretty (cik_str c)) 10 "0")
            (from_option extraction_status "unknown" (t !! ticker c))).
Proof.
  revert t. induction cs as [|c0 cs IH]; intros t Hnodup Hc; [by apply elem_of_nil in Hc|].
  cbn [map foldl] in *. apply NoDup_cons in Hnodup as [Hc0 Hnodup].
  apply elem_of_cons in Hc as [->|Hc].
  - rewrite foldl_upsert_other by done. rewrite upsert_one_lookup.
    by destruct (decide _).
  - rewrite IH by done. rewrite upsert_one_lookup.
    destruct (decide (ticker c = u_ticker (upsertData c0))) as [Heq|Hne]; [|done].
    destruct Hc0. cbn [upsertData u_ticker] in Heq. rewrite <- Heq.
    apply list_elem_of_fmap. by exists c.
Qed.

Lemma rounds_all_accepted (batches : list (list sec_company)) (st : companies_table * nat) :
  (∀ rows, request_fails rows = false) →
  NoDup (map ticker (concat batches)) →
  foldl round st batches
  = (foldl upsert_one st.1 (map upsertData (concat batches)),
     (st.2 + length (concat batches))%nat).
Proof.
  intros Hok. revert st. induction batches as [|b batches IH]; intros st Hnodup.
  - destruct st. cbn. f_equal. lia.
  - cbn [foldl concat] in *. change (map ?f ?l) with (f <$> l) in Hnodup.
    rewrite fmap_app in Hnodup. apply NoDup_app in Hnodup as (Hb & _ & Hrest).
    rewrite IH by done. unfold sync_batch, upsert.
    rewrite upsertData_tickers, Hok, (bool_decide_eq_true_2 _ Hb). cbn [andb negb fst snd].
    change (map ?f ?l) with (f <$> l). rewrite fmap_app, foldl_app, length_app.
    f_equal. lia.
Qed.

(** X25: when the SEC's list names no ticker twice and the database refuses
    no batch, a run stores every entry: [processed] is the number of
    entries, and each ticker of the list has the entry's name and its CIK
    padded with zeros, with the status it had before, or 'unknown'. *)
Theorem sync_tickers_stores_all (t : companies_table) (companies : list sec_company) :
  sec_fetch = Ok companies →
  NoDup (map ticker companies) →
  (∀ rows, request_fails rows = false) →
  let result := sync_tickers sec_fetch request_fails count_fails POST t in
  result.1 = Sync_completed (length companies) (length companies)
               (if count_fails then None else Some (size result.2))
  ∧ ∀ c, c ∈ companies →
      result.2 !! ticker c
      = Some (mkCompanyRow (title c) (padStart (pretty (cik_str c)) 10 "0")
                (from_option extraction_status "unknown" (t !! ticker c))).
Proof.
  intros Hfetch Hnodup Hok. unfold sync_tickers. rewrite Hfetch. cbn [fst snd].
  destruct (sync_all_batches companies t) as (batches & -> & Hconcat & _).
  rewrite rounds_all_accepted by (by rewrite ?Hconcat).
  rewrite Hconcat. cbn [fst snd]. split; [done|].
  intros c Hc. by apply foldl_upsert_lookup.
Qed.

(** A batch in which a ticker occurs twice is refused as a whole, and
    the run goes on: when the SEC's list fits in one batch and names a
    ticker twice, nothing is written, [processed] is 0, and the answer is
    still the 200 of a completed sync. *)
Theorem sync_tickers_duplicate_ticker (m : method) (t : companies_table)
    (companies : list sec_company) :
  m = GET ∨ m = POST →
  sec_fetch = Ok companies →
  (length companies ≤ BATCH_SIZE)%nat →
  ¬ NoDup (map ticker companies) →
  sync_tickers sec_fetch request_fails count_fails m t
  = (Sync_completed (length companies) 0 (if count_fails then None else Some (size t)), t).
Proof.
  intros Hm Hfetch Hlen Hdup.
  assert (sync_all request_fails companies t = (t, 0%nat)) as Hall.
  { unfold sync_all. destruct companies as [|c cs]; [done|].
    cbn [length sync_loop Nat.ltb Nat.leb].
    assert (slice (c :: cs) 0 (0 + BATCH_SIZE) = c :: cs) as ->.
    { unfold slice. rewrite drop_0. apply take_ge. cbn [length] in *. lia. }
    assert (sync_batch request_fails (c :: cs) (t, 0%nat) = (t, 0%nat)) as ->.
    { unfold sync_batch, upsert. rewrite upsertData_tickers.
      by rewrite (bool_decide_eq_false_2 _ Hdup). }
    destruct (length cs) as [|n]; [done|]. cbn [sync_loop].
    destruct (Nat.ltb_spec (0 + BATCH_SIZE) (length (c :: cs))) as [Hlt|_]; [|done].
    lia. }
  unfold sync_tickers. rewrite Hfetch, Hall. by destruct Hm as [-> | ->].
Qed.

(** The answer of a run counts what the SEC sent and what was stored:
    [sec_companies] is the length of the list, [processed] is at most that,
    and [total_in_db], when the count succeeds, is the size of the table
    after the run, which is at least its size before. *)
Theorem sync_tickers_stats (m : method) (t : companies_table) :
  let result := sync_tickers sec_fetch request_fails count_fails m t in
  (size t ≤ size result.2)%nat
  ∧ ∀ n p total, result.1 = Sync_completed n p total →
      (∃ companies, sec_fetch = Ok companies ∧ n = length companies)
      ∧ (p ≤ n)%nat
      ∧ (total = None ∨ total = Some (size result.2)).
Proof.
  unfold sync_tickers.
  destruct m; try (split; [done|]; by intros n p total [=]);
    (destruct sec_fetch as [companies|msg]; [|split; [done|]; by intros n p total [=]]);
    cbn [fst snd];
    destruct (sync_all_batches companies t) as (batches & -> & Hconcat & _);
    destruct (synced_rounds batches (t, 0%nat)) as [[Hkeep _] Hp];
    rewrite Hconcat in Hp; cbn [fst snd] in *.
  all: split;
    [rewrite <- !size_dom; apply subseteq_size; intros tk [r Hr]%elem_of_dom;
     destruct (Hkeep tk r Hr) as (r' & Hr' & _); apply elem_of_dom; by eexists|].
  all: intros n p total [= <- <- <-]; split; [by eexists|]; split; [lia|];
    destruct count_fails; auto.
Qed.
End SyncProps.

Lemma sync_tickers_batches_witness :
  ∃ batches,
    SyncTickers.sync_loop (λ _, false) 2 sec_sample 0 (companies_before, 0%nat)
    = SyncTickers.sync_all (λ _, false) sec_sample companies_before
    ∧ SyncTickers.sync_all (λ _, false) sec_sample companies_before
      = foldl (λ st batch, SyncTickers.sync_batch (λ _, false) batch st)
          (companies_before, 0%nat) batches
    ∧ concat batches = sec_sample
    ∧ Forall (λ b, (0 < length b ≤ SyncTickers.BATCH_SIZE)%nat) batches
    ∧ length batches = ((length sec_sample + 499) / 500)%nat.
Proof.
  apply (sync_tickers_batches (λ _, false) sec_sample companies_before 2).
  simpl. lia.
Defined.

Lemma sync_tickers_stores_all_witness :
  let result :=
    SyncTickers.sync_tickers (Ok sec_sample) (λ _, false) false SyncTickers.POST
      companies_before in
  result.1 = SyncTickers.Sync_completed (length sec_sample) (length sec_sample)
               (Some (size result.2))
  ∧ ∀ c, c ∈ sec_sample →
      result.2 !! SyncTickers.ticker c
      = Some (SyncTickers.mkCompanyRow (SyncTickers.title c)
                (SyncTickers.padStart (pretty (SyncTickers.cik_str c)) 10 "0")
                (from_option SyncTickers.extraction_status "unknown"
                   (companies_before !! SyncTickers.ticker c))).
Proof.
  apply (sync_tickers_stores_all (Ok sec_sample) (λ _, false) false companies_before
           sec_sample).
  - reflexivity.
  - apply (bool_decide_unpack _). by vm_compute.
  - reflexivity.
Defined.

Lemma sync_tickers_duplicate_ticker_witness :
  SyncTickers.sync_tickers (Ok sec_duplicate) (λ _, false) false SyncTickers.GET
    companies_before
  = (SyncTickers.Sync_completed (length sec_duplicate) 0 (Some (size companies_before)),
     companies_before).
Proof.
  apply (sync_tickers_duplicate_ticker (Ok sec_duplicate) (λ _, false) false
           SyncTickers.GET companies_before sec_duplicate).
  - by left.
  - reflexivity.
  - unfold SyncTickers.BATCH_SIZE. simpl. lia.
  - apply (bool_decide_unpack _). by vm_compute.
Defined.

(** The CIK is padded to ten digits; a longer one is kept as it is.  The
    row of a known ticker keeps its status. *)
Example sync_tickers_run :
  let t' := (SyncTickers.sync_tickers (Ok sec_sample) (λ _, false) false SyncTickers.POST
               companies_before).2 in
  SyncTickers.padStart (pretty 12345678901%N) 10 "0" = "12345678901"
  ∧ t' !! "AAPL" = Some (SyncTickers.mkCompanyRow "Apple Inc." "0000320193" "working")
  ∧ t' !! "AAP"
    = Some (SyncTickers.mkCompanyRow "Advance Auto Parts Inc" "0001158449" "unknown")
  ∧ size t' = 2%nat.
Proof. cbv zeta. repeat split; by vm_compute. Qed.


(** ** Invariants of the tables under the pipeline *)

(** What a generate-report request does to the database: nothing, or the
    insertion of a clone, with or without the debit and its usage
    transaction. *)
Lemma generate_report_effect now uuid url fetch (req : request) (d : db) :
  let d' := (generate_report now uuid url fetch req d).1.2 in
  d' = d
  ∨ ∃ u cid cached p,
      profiles d !! u = Some p ∧ reports d !! cid = Some cached
      ∧ let rid := fresh (dom (reports d)) in
        reports d !! rid = None
        ∧ (d' = set_reports (<[rid := clone_report now u cached]>) d
           ∨ 1 ≤ tokens_remaining p
             ∧ d' = mkDb (<[u := mkProfile (tokens_remaining p - 1)]> (profiles d))
                      (<[rid := clone_report now u cached]> (reports d))
                      (token_transactions d
                         ++ [mkTx u (Some rid) usage (-1)
                               ("Cached report for " +:+ toUpperCase (req_ticker req))])
                      (error_logs d)).
Proof.
  cbv zeta.
  remember ((generate_report now uuid url fetch req d).1.2) as d' eqn:Hd'.
  unfold generate_report in Hd'.
  destruct (String.eqb _ _); [by left|].
  destruct (req_user_id req) as [u|]; [|by left].
  destruct (existing_reports _ _ _) as [[cid cached]|] eqn:Hex;
    [|left; by rewrite generate_new_db in Hd'].
  apply existing_reports_Some in Hex as (Hfull & _ & _). rewrite Hfull in Hd'.
  destruct (profiles d !! u) as [p|] eqn:Hp.
  2: { left. unfold insert_report in Hd'. cbn [clone_report user_id] in Hd'.
       rewrite Hp, bool_decide_eq_false_2 in Hd' by (by intros [? [=]]).
       by rewrite generate_new_db in Hd'. }
  rewrite insert_report_ok in Hd' by (cbn [clone_report user_id]; by rewrite Hp).
  assert (reports d !! fresh (dom (reports d)) = None) as Hfresh
    by apply not_elem_of_dom, is_fresh.
  unfold charge_cached in Hd'. destruct (refunded cached); cbn [negb] in Hd'.
  { right. exists u, cid, cached, p. split; [done|]. split; [done|]. split; [done|].
    by left. }
  unfold rpc at 1, deduct_token in Hd'. cbn [profiles set_reports] in Hd'.
  rewrite Hp in Hd'.
  destruct (Z.ltb_spec (tokens_remaining p) 1).
  - left. cbn [fst snd] in Hd'. rewrite Hd'. by apply set_reports_delete_insert.
  - right. exists u, cid, cached, p. split; [done|]. split; [done|]. split; [done|].
    right. split; [lia|]. cbn [fst snd] in Hd'. rewrite Hd'.
    unfold log_usage, rpc, insert_token_transaction, set_profiles, set_reports,
      references_report.
    cbn [profiles reports token_transactions error_logs tx_user_id tx_report_id].
    rewrite !lookup_insert_eq.
    rewrite !bool_decide_eq_true_2 by by eexists. reflexivity.
Qed.

(** What [create_token_refund] does: the mark, and, when the account and the
    report exist, the refund transaction and the credit. *)
Lemma create_token_refund_effect (u r : positive) (reason : string) (d : db) :
  let d' := (create_token_refund u r reason d).2 in
  reports d' = alter (set_refunded true) r (reports d)
  ∧ (profiles d' = profiles d ∧ token_transactions d' = token_transactions d
     ∨ ∃ p, profiles d !! u = Some p ∧ is_Some (reports d !! r)
            ∧ profiles d' = <[u := mkProfile (tokens_remaining p + 1)]> (profiles d)
            ∧ token_transactions d'
              = token_transactions d
                ++ [mkTx u (Some r) refund 1 ("Quality refund: " +:+ reason)]).
Proof.
  cbv zeta. split; [apply create_token_refund_tables|].
  unfold create_token_refund, rpc, insert_token_transaction, references_report.
  cbn [tx_user_id tx_report_id profiles reports set_reports].
  case_bool_decide as Hu; [|by left]. case_bool_decide as Hr; [|by left].
  cbn [andb]. destruct Hu as [p Hp]. right. exists p. split; [done|].
  split; [by rewrite lookup_alter_is_Some in Hr|].
  cbn. split; [|done].
  apply map_eq. intros u'. destruct (decide (u' = u)) as [->|Hne].
  - by rewrite lookup_alter_eq, lookup_insert_eq, Hp.
  - by rewrite lookup_alter_ne, lookup_insert_ne.
Qed.

Section Invariants.
Context {diff_result : Type}.

Lemma operations_invariant (P : db → Prop) :
  (∀ (op : @operation diff_result) d, P d → P (apply_operation op d)) →
  ∀ (ops : list (@operation diff_result)) d,
    P d → Forall P (observations apply_operation ops d).
Proof.
  intros Hstep ops. induction ops as [|op ops IH]; intros d Hd; simpl; [constructor|].
  constructor; [by apply Hstep | by apply IH, Hstep].
Qed.

(** X26: no sequence of requests, worker jobs and refunds makes a balance
    negative: if no account is below 0 before, none is after any of the
    operations. *)
Theorem balances_nonneg_operations (ops : list (@operation diff_result)) (d : db) :
  balances_nonneg d →
  Forall balances_nonneg (observations apply_operation ops d).
Proof.
  apply operations_invariant. clear. intros op d Hd.
  assert (∀ d' u p b, profiles d !! u = Some p → 0 ≤ b →
            profiles d' = <[u := mkProfile b]> (profiles d) → balances_nonneg d') as Hset.
  { intros d' u p b Hp Hb Hprof u' p'. rewrite Hprof.
    destruct (decide (u' = u)) as [->|Hne].
    - rewrite lookup_insert_eq. by intros [= <-].
    - rewrite lookup_insert_ne by done. apply Hd. }
  assert (∀ d', profiles d' = profiles d → balances_nonneg d') as Hsame
    by (intros d' Hprof u p; rewrite Hprof; apply Hd).
  destruct op as [now uuid url fetch req|fetch diff ai post now client jobs job_id u t|u r reason];
    cbn [apply_operation].
  - destruct (generate_report_effect now uuid url fetch req d)
      as [->|(u & cid & cached & p & Hp & _ & _ & [->|[Hge ->]])]; [done| |].
    + by apply Hsame.
    + apply (Hset _ u p (tokens_remaining p - 1)); [done | lia | done].
  - destruct (process_job_db fetch diff ai post now client job_id u t (mkWorld d jobs []))
      as [(_ & Hprof & _)|(newer & older & rest & dr & air & p & _ & _ & _ & Hp & _ & Hq)];
      [by apply Hsame|].
    cbn [w_db] in *. destruct (is_valid _).
    + destruct Hq as (_ & Hprof & _). by apply Hsame.
    + destruct Hq as (_ & Hprof & _).
      apply (Hset _ u p (tokens_remaining p + 1)); [done| |done].
      specialize (Hd u p Hp). lia.
  - destruct (create_token_refund_effect u r reason d)
      as [_ [[Hprof _]|(p & Hp & _ & Hprof & _)]]; [by apply Hsame|].
    apply (Hset _ u p (tokens_remaining p + 1)); [done| |done].
    specialize (Hd u p Hp). lia.
Qed.

Lemma references_hold_fields (d d' : db) :
  references_hold d →
  (∀ u, is_Some (profiles d !! u) → is_Some (profiles d' !! u)) →
  (∀ id r', reports d' !! id = Some r' →
     (∃ r, reports d !! id = Some r ∧ user_id r = user_id r')
     ∨ is_Some (profiles d' !! user_id r')) →
  (∀ id, is_Some (reports d !! id) → is_Some (reports d' !! id)) →
  (∀ t, t ∈ token_transactions d' →
     t ∈ token_transactions d
     ∨ is_Some (profiles d' !! tx_user_id t)
       ∧ references_report d' (tx_report_id t) = true) →
  references_hold d'.
Proof.
  intros [Hrep Htx] Hprof Hrep' Hkeep Htx'. split.
  - intros id r' Hr'. destruct (Hrep' id r' Hr') as [(r & Hr & <-)|]; [|done].
    by apply Hprof, (Hrep id).
  - intros t Ht. destruct (Htx' t Ht) as [Hold|]; [|done].
    destruct (Htx t Hold) as [Hu Hr]. split; [by apply Hprof|].
    unfold references_report in *. destruct (tx_report_id t) as [r|]; [|done].
    apply bool_decide_eq_true_2, Hkeep. by apply bool_decide_eq_true_1 in Hr.
Qed.

(** X27: the foreign keys hold after every operation of the pipeline when
    they hold before it: every report and every transaction belongs to an
    existing account and a transaction's report exists.  In particular the
    clone that a failed charge deletes is referenced by no transaction. *)
Theorem references_hold_operations (ops : list (@operation diff_result)) (d : db) :
  references_hold d →
  Forall references_hold (observations apply_operation ops d).
Proof.
  apply operations_invariant. clear. intros op d Hd.
  destruct op as [now uuid url fetch req|fetch diff ai post now client jobs job_id u t|u r reason];
    cbn [apply_operation].
  - destruct (generate_report_effect now uuid url fetch req d)
      as [->|(u & cid & cached & p & Hp & _ & Hfresh & [->|[Hge ->]])]; [done| |].
    + apply (references_hold_fields d); [done|done| | |by left].
      * intros id r'. cbn [reports set_reports].
        destruct (decide (id = fresh (dom (reports d)))) as [->|Hne].
        -- rewrite lookup_insert_eq. intros [= <-]. right. cbn. by rewrite Hp.
        -- rewrite lookup_insert_ne by done. intros Hr. left. by exists r'.
      * intros id [r Hr]. cbn [reports set_reports].
        rewrite lookup_insert_ne by congruence. by eexists.
    + apply (references_hold_fields d); [done| | | |]; cbn [profiles reports token_transactions].
      * intros u' Hu'. destruct (decide (u' = u)) as [->|Hne];
          [rewrite lookup_insert_eq; by eexists | by rewrite lookup_insert_ne].
      * intros id r'. destruct (decide (id = fresh (dom (reports d)))) as [->|Hne].
        -- rewrite lookup_insert_eq. intros [= <-]. right. cbn.
           rewrite lookup_insert_eq. by eexists.
        -- rewrite lookup_insert_ne by done. intros Hr. left. by exists r'.
      * intros id [r Hr]. rewrite lookup_insert_ne by congruence. by eexists.
      * intros t [Ht| ->%list_elem_of_singleton]%elem_of_app; [by left|]. right.
        cbn. rewrite !lookup_insert_eq. split; [by eexists|].
        apply bool_decide_eq_true_2. by eexists.
  - destruct (process_job_db fetch diff ai post now client job_id u t (mkWorld d jobs []))
      as [(Hrep & Hprof & Htx)
         |(newer & older & rest & dr & air & p & _ & _ & _ & Hp & Hfresh & Hq)];
      cbn [w_db] in *.
    { apply (references_hold_fields d); [done|..].
      - intros u'. by rewrite Hprof.
      - intros id r'. rewrite Hrep. intros Hr. left. by exists r'.
      - intros id. by rewrite Hrep.
      - intros t'. rewrite Htx. by left. }
    destruct (is_valid _).
    + destruct Hq as (Hrep & Hprof & Htx).
      apply (references_hold_fields d); [done|..].
      * intros u'. by rewrite Hprof.
      * intros id r'. rewrite Hrep, Hprof.
        destruct (decide (id = fresh (dom (reports d)))) as [->|Hne].
        -- rewrite lookup_insert_eq. intros [= <-]. right. cbn. by rewrite Hp.
        -- rewrite lookup_insert_ne by done. intros Hr. left. by exists r'.
      * intros id [r Hr]. rewrite Hrep, lookup_insert_ne by congruence. by eexists.
      * intros t'. rewrite Htx. by left.
    + destruct Hq as (Hrep & Hprof & Htx).
      apply (references_hold_fields d); [done|..].
      * intros u' Hu'. rewrite Hprof. destruct (decide (u' = u)) as [->|Hne];
          [rewrite lookup_insert_eq; by eexists | by rewrite lookup_insert_ne].
      * intros id r'. rewrite Hrep, Hprof.
        destruct (decide (id = fresh (dom (reports d)))) as [->|Hne].
        -- rewrite lookup_insert_eq. intros [= <-]. right. cbn.
           rewrite lookup_insert_eq. by eexists.
        -- rewrite lookup_insert_ne by done. intros Hr. left. by exists r'.
      * intros id [r Hr]. rewrite Hrep, lookup_insert_ne by congruence. by eexists.
      * intros t'. rewrite Htx, Hprof.
        intros [Ht| ->%list_elem_of_singleton]%elem_of_app; [by left|]. right.
        cbn. rewrite Hrep, !lookup_insert_eq. split; [by eexists|].
        apply bool_decide_eq_true_2. by eexists.
  - destruct (create_token_refund_effect u r reason d) as [Hrep Hrest].
    assert (∀ id, is_Some (reports d !! id)
                  → is_Some (reports (create_token_refund u r reason d).2 !! id))
      as Hkeep by (intros id; by rewrite Hrep, lookup_alter_is_Some).
    assert (∀ id r', reports (create_token_refund u r reason d).2 !! id = Some r' →
              ∃ r0, reports d !! id = Some r0 ∧ user_id r0 = user_id r') as Hrows.
    { intros id r'. rewrite Hrep. destruct (decide (id = r)) as [->|Hne].
      - rewrite lookup_alter_eq. destruct (reports d !! r) as [r0|]; [|done].
        intros [= <-]. by exists r0.
      - rewrite lookup_alter_ne by done. intros Hr. by exists r'. }
    destruct Hrest as [[Hprof Htx]|(p & Hp & Hr & Hprof & Htx)].
    + apply (references_hold_fields d); [done|..].
      * intros u'. by rewrite Hprof.
      * intros id r' Hr'. left. by apply Hrows.
      * done.
      * intros t'. rewrite Htx. by left.
    + apply (references_hold_fields d); [done|..].
      * intros u' Hu'. rewrite Hprof. destruct (decide (u' = u)) as [->|Hne];
          [rewrite lookup_insert_eq; by eexists | by rewrite lookup_insert_ne].
      * intros id r' Hr'. left. by apply Hrows.
      * done.
      * intros t'. rewrite Htx, Hprof.
        intros [Ht| ->%list_elem_of_singleton]%elem_of_app; [by left|]. right.
        cbn. rewrite lookup_insert_eq. split; [by eexists|].
        by apply bool_decide_eq_true_2, Hkeep.
Qed.

Lemma refund_marks_exact_step (op : @operation diff_result) (d : db) :
  refund_marks_exact d →
  match op with Token_refund _ _ _ => True | _ => refund_marks_exact (apply_operation op d) end.
Proof.
  intros Hd.
  assert (∀ (d' : db) rid row, refunded row = negb (extraction_success row) →
            reports d' = <[rid := row]> (reports d) → refund_marks_exact d') as Hins.
  { intros d' rid row Hrow Hrep id r. rewrite Hrep.
    destruct (decide (id = rid)) as [->|Hne].
    - rewrite lookup_insert_eq. by intros [= <-].
    - rewrite lookup_insert_ne by done. apply Hd. }
  destruct op as [now uuid url fetch req|fetch diff ai post now client jobs job_id u t|u r reason];
    cbn [apply_operation]; [| |done].
  - destruct (generate_report_effect now uuid url fetch req d)
      as [->|(u & cid & cached & p & _ & Hcached & _ & [->|[_ ->]])]; [done|..];
      (apply (Hins _ (fresh (dom (reports d))) (clone_report now u cached));
        [cbn [clone_report refunded extraction_success]; by apply (Hd cid) | done]).
  - destruct (process_job_db fetch diff ai post now client job_id u t (mkWorld d jobs []))
      as [(Hrep & _ & _)
         |(newer & older & rest & dr & air & p & _ & _ & _ & _ & _ & Hq)];
      cbn [w_db] in *.
    { intros id r. rewrite Hrep. apply Hd. }
    destruct (is_valid _) eqn:Hvalid; destruct Hq as (Hrep & _ & _);
      (eapply Hins; [|exact Hrep]);
      cbn [worker_report set_refunded refunded extraction_success]; by rewrite Hvalid.
Qed.

(** X28: requests and worker jobs keep the refund marks exact: if every
    stored report is marked refunded exactly when its quality check failed,
    this is still so after each operation of any sequence of generate-report
    requests and worker jobs. *)
Theorem refund_marks_exact_pipeline (ops : list (@operation diff_result)) (d : db) :
  Forall (λ op, match op with Token_refund _ _ _ => False | _ => True end) ops →
  refund_marks_exact d →
  Forall refund_marks_exact (observations apply_operation ops d).
Proof.
  intros Hops. revert d. induction Hops as [|op ops Hop _ IH]; intros d Hd;
    cbn [observations]; [constructor|].
  pose proof (refund_marks_exact_step op d Hd) as Hstep.
  destruct op; [| |done]; (constructor; [done | by apply IH]).
Qed.
End Invariants.

(** ** The admin dashboard *)

Section AdminProps.
Import AdminDashboard.

Lemma count_partition {A : Type} (f g : A → bool) (rows : list A) :
  (∀ x, x ∈ rows → f x = negb (g x)) →
  count f rows + count g rows = Z.of_nat (length rows).
Proof.
  unfold count. induction rows as [|x rows IH]; intros Hfg; [done|].
  cbn [List.filter]. rewrite (Hfg x) by apply list_elem_of_here.
  specialize (IH (λ y Hy, Hfg y (list_elem_of_further _ _ _ Hy))).
  destruct (g x); cbn [negb length]; lia.
Qed.

Lemma count_ext {A : Type} (f g : A → bool) (rows : list A) :
  (∀ x, x ∈ rows → f x = g x) → count f rows = count g rows.
Proof.
  unfold count. induction rows as [|x rows IH]; intros Hfg; [done|].
  cbn [List.filter]. rewrite (Hfg x) by apply list_elem_of_here.
  specialize (IH (λ y Hy, Hfg y (list_elem_of_further _ _ _ Hy))).
  destruct (g x); cbn [length]; lia.
Qed.

Lemma count_le {A : Type} (f g : A → bool) (rows : list A) :
  (∀ x, x ∈ rows → f x = true → g x = false) →
  count f rows + count g rows ≤ Z.of_nat (length rows).
Proof.
  unfold count. induction rows as [|x rows IH]; intros Hfg; [done|].
  cbn [List.filter].
  specialize (IH (λ y Hy, Hfg y (list_elem_of_further _ _ _ Hy))).
  pose proof (Hfg x (list_elem_of_here _ _)) as Hx.
  destruct (f x), (g x); cbn [length]; first [lia | by specialize (Hx eq_refl)].
Qed.

(** Whatever rows the two queries return, the successful and the failed
    reports of the dashboard are disjoint, so together they are at most all
    reports; a report that passed the check and is marked refunded is in
    neither.  "Tokens issued" is the tokens remaining plus one per report. *)
Theorem admin_stats_counts (profiles : list profile) (reports : list report) :
  let s := system_stats profiles reports in
  successfulReports s + failedReports s ≤ totalReports s
  ∧ (successfulReports s + failedReports s = totalReports s
     ↔ ∀ r, r ∈ reports → extraction_success r = true → refunded r = false)
  ∧ totalTokensIssued s = totalTokensRemaining s + totalReports s
  ∧ 0 ≤ pendingReports s ≤ totalReports s.
Proof.
  cbv zeta. unfold system_stats.
  cbn [successfulReports failedReports totalReports
       totalTokensIssued totalTokensRemaining pendingReports].
  split; [|split; [|split; [reflexivity|]]].
  - apply count_le. intros r _. destruct (extraction_success r); cbn; congruence.
  - unfold count. induction reports as [|r reports IH];
      [split; [by intros _ r ?%elem_of_nil | done]|].
    cbn [List.filter length].
    assert (Z.of_nat (length (List.filter
              (λ r, eqb (extraction_success r) true && eqb (refunded r) false) reports))
            + Z.of_nat (length (List.filter
                (λ r, eqb (extraction_success r) false) reports))
            ≤ Z.of_nat (length reports)) as Hle.
    { apply (count_le (λ r, eqb (extraction_success r) true && eqb (refunded r) false)
               (λ r, eqb (extraction_success r) false)).
      intros r' _. destruct (extraction_success r'); cbn; congruence. }
    split.
    + intros Heq r' [Hr'|Hr']%elem_of_cons.
      * subst r'. intros Hs. rewrite Hs in Heq.
        destruct (refunded r); [|done]. cbn [eqb andb length] in Heq. lia.
      * apply IH; [|done].
        destruct (extraction_success r), (refunded r); cbn [eqb andb length] in Heq; lia.
    + intros Hall.
      assert (Z.of_nat (length (List.filter
                (λ r, eqb (extraction_success r) true && eqb (refunded r) false) reports))
              + Z.of_nat (length (List.filter
                  (λ r, eqb (extraction_success r) false) reports))
              = Z.of_nat (length reports)) as Heq
        by (apply IH; intros r' Hr'; by apply Hall, list_elem_of_further).
      pose proof (Hall r (list_elem_of_here _ _)) as Hr.
      destruct (extraction_success r), (refunded r); cbn [eqb andb length];
        first [lia | by specialize (Hr eq_refl)].
  - unfold count. split; [lia|]. rewrite <- Nat2Z.inj_le. apply filter_length_le.
Qed.

(** X29: on a database whose refund marks are exact, as the pipeline keeps
    them, the dashboard's successful and failed reports add up to all
    reports, its "pending" count (the refunded reports) is the number of
    failed reports, and no recent report is shown with status 'failed'. *)
Theorem admin_stats_exact_marks (d : db) :
  refund_marks_exact d →
  let s := stats_of d in
  successfulReports s + failedReports s = totalReports s
  ∧ pendingReports s = failedReports s
  ∧ ∀ id r, reports d !! id = Some r →
      status r = (if extraction_success r then "completed" else "refunded").
Proof.
  intros Hd s.
  assert (∀ r, r ∈ map snd (map_to_list (reports d)) →
               refunded r = negb (extraction_success r)) as Hrows.
  { intros r [[id r'] [-> Hin]]%list_elem_of_fmap.
    apply elem_of_map_to_list in Hin. by apply (Hd id). }
  split; [|split].
  - apply count_partition. intros r Hr. rewrite (Hrows r Hr).
    by destruct (extraction_success r).
  - apply count_ext. intros r Hr. rewrite (Hrows r Hr).
    by destruct (extraction_success r).
  - intros id r Hr. unfold status. rewrite (Hd id r Hr).
    by destruct (extraction_success r).
Qed.
End AdminProps.

Lemma balances_nonneg_operations_witness :
  let ops : list (@operation unit) :=
    [Request 1700000500 7 None (λ _, Worker_accepted) (mkRequest "tst" (Some 2%positive));
     Token_refund 1 1 "Missing sections: Item 7"] in
  Forall balances_nonneg (observations apply_operation ops (db_cached 1)).
Proof.
  apply (balances_nonneg_operations _ (db_cached 1)).
  change (map_Forall (λ _ p, 0 ≤ tokens_remaining p) (profiles (db_cached 1))).
  apply (bool_decide_unpack _). by vm_compute.
Defined.

Lemma references_hold_operations_witness :
  let ops : list (@operation unit) :=
    [Request 1700000500 7 None (λ _, Worker_accepted) (mkRequest "tst" (Some 2%positive));
     Token_refund 1 1 "Missing sections: Item 7"] in
  Forall references_hold (observations apply_operation ops (db_cached 1)).
Proof.
  apply (references_hold_operations _ (db_cached 1)). split.
  - change (map_Forall (λ _ r, is_Some (profiles (db_cached 1) !! user_id r))
              (reports (db_cached 1))).
    apply (bool_decide_unpack _). by vm_compute.
  - apply Forall_forall. apply (bool_decide_unpack _). by vm_compute.
Defined.

Lemma refund_marks_exact_pipeline_witness :
  let ops : list (@operation unit) :=
    [Request 1700000500 7 None (λ _, Worker_accepted) (mkRequest "tst" (Some 2%positive));
     Request 1700000900 8 None (λ _, Worker_accepted) (mkRequest "TST" (Some 1%positive))] in
  Forall refund_marks_exact (observations apply_operation ops (db_cached 1)).
Proof.
  apply (refund_marks_exact_pipeline _ (db_cached 1)).
  - by repeat constructor.
  - change (map_Forall (λ _ r, refunded r = negb (extraction_success r))
              (reports (db_cached 1))).
    apply (bool_decide_unpack _). by vm_compute.
Defined.

Lemma admin_stats_exact_marks_witness :
  let s := AdminDashboard.stats_of (db_cached 1) in
  AdminDashboard.successfulReports s + AdminDashboard.failedReports s
  = AdminDashboard.totalReports s
  ∧ AdminDashboard.pendingReports s = AdminDashboard.failedReports s
  ∧ ∀ id r, reports (db_cached 1) !! id = Some r →
      AdminDashboard.status r
      = (if extraction_success r then "completed" else "refunded").
Proof.
  apply (admin_stats_exact_marks (db_cached 1)).
  change (map_Forall (λ _ r, refunded r = negb (extraction_success r))
            (reports (db_cached 1))).
  apply (bool_decide_unpack _). by vm_compute.
Defined.

(** A refund of a report that passed its check leaves a report that is
    both successful and refunded: the dashboard then counts it in neither
    the successful nor the failed reports. *)
Example refund_of_passed_report :
  let d := (create_token_refund 1 1 "support request" (db_cached 1)).2 in
  ¬ refund_marks_exact d
  ∧ AdminDashboard.successfulReports (AdminDashboard.stats_of d) = 0
  ∧ AdminDashboard.failedReports (AdminDashboard.stats_of d) = 0
  ∧ AdminDashboard.totalReports (AdminDashboard.stats_of d) = 1.
Proof.
  cbv zeta. split; [|by vm_compute].
  intros Hd. specialize (Hd 1%positive (set_refunded true passed_report)).
  by vm_compute in Hd; specialize (Hd eq_refl).
Qed.


(** ** The report page *)

Section ReportPageProps.
Import ReportPage.

Lemma sortedSections_elem (summaries : list (string * string)) (s t : string) :
  (s, t) ∈ sortedSections summaries
  ↔ s ∈ sectionOrder ∧ get s summaries = Some t ∧ t ≠ "".
Proof.
  unfold sortedSections. rewrite list_elem_of_In, filter_In, <- list_elem_of_In.
  change (map ?f ?l) with (f <$> l). rewrite list_elem_of_fmap. cbn [snd]. split.
  - intros [(s' & [= -> ->] & Hs') Ht]. split; [done|].
    apply negb_true_iff, String.eqb_neq in Ht.
    destruct (get s' summaries) as [t|]; [by split | done].
  - intros (Hs & Hget & Ht). split.
    + exists s. by rewrite Hget.
    + by apply negb_true_iff, String.eqb_neq.
Qed.

Lemma sortedSections_sublist (summaries : list (string * string)) :
  map fst (sortedSections summaries) `sublist_of` sectionOrder.
Proof.
  unfold sortedSections. induction sectionOrder as [|s l IH]; [done|].
  cbn [map List.filter snd]. destruct (negb _); cbn [map fst].
  - by apply sublist_skip.
  - by apply sublist_cons.
Qed.

(** X30: the report page shows a report only to a signed-in user who owns
    it or is an administrator.  Of its summaries it shows those of Item 1,
    Item 1A, Item 7 and Item 8 that are not empty, in this order, and no
    other: a summary stored under another name is never shown. *)
Theorem report_page_shows (currentUser : option User) (reportData : option report)
    (r : report) (sections : list (string * string)) :
  loadUserAndReport currentUser reportData = Page_report r sections →
  reportData = Some r
  ∧ (∃ u, currentUser = Some u ∧ (user_id r = id u ∨ is_admin u = true))
  ∧ map fst sections `sublist_of` sectionOrder
  ∧ ∀ s t, (s, t) ∈ sections
           ↔ s ∈ sectionOrder ∧ get s (ai_summaries r) = Some t ∧ t ≠ "".
Proof.
  unfold loadUserAndReport.
  destruct currentUser as [u|]; [|done]. destruct reportData as [r'|]; [|done].
  destruct (Pos.eqb_spec (user_id r') (id u)) as [Hown|Hother]; cbn [negb andb].
  - intros [= <- <-]. split; [done|]. split; [by eauto|].
    split; [apply sortedSections_sublist | apply sortedSections_elem].
  - destruct (is_admin u) eqn:Hadmin; cbn [negb]; [|done].
    intros [= <- <-]. split; [done|]. split; [by eauto|].
    split; [apply sortedSections_sublist | apply sortedSections_elem].
Qed.
End ReportPageProps.

Lemma report_page_shows_witness :
  Some passed_report = Some passed_report
  ∧ (∃ u, Some (ReportPage.mkUser 1 false) = Some u
          ∧ (user_id passed_report = ReportPage.id u ∨ ReportPage.is_admin u = true))
  ∧ map fst [("Item 1", "No material change.")] `sublist_of` ReportPage.sectionOrder
  ∧ ∀ s t, (s, t) ∈ [("Item 1", "No material change.")]
           ↔ s ∈ ReportPage.sectionOrder
             ∧ ReportPage.get s (ai_summaries passed_report) = Some t ∧ t ≠ "".
Proof.
  apply (report_page_shows (Some (ReportPage.mkUser 1 false)) (Some passed_report)).
  reflexivity.
Defined.

(** Check 4 of the validator asks for some summary, whatever its name: a
    report whose only summary is stored under a name the page does not
    know passes it and shows no section; and another user's report is
    refused. *)
Example report_page_runs :
  check_summaries (mkAiResult [("Item 9", "Nothing new.")] 0 0) = []
  ∧ ReportPage.sortedSections [("Item 9", "Nothing new.")] = []
  ∧ ReportPage.sortedSections
      [("Item 8", "Revenue grew."); ("Item 1", "No material change."); ("Item 7", "")]
    = [("Item 1", "No material change."); ("Item 8", "Revenue grew.")]
  ∧ ReportPage.loadUserAndReport (Some (ReportPage.mkUser 2 false)) (Some passed_report)
    = ReportPage.Page_error "You do not have access to this report".
Proof. repeat split. Qed.
